(** * VulkanSceneGraph: frame task ring, submission protocol and light packing

    A shallow embedding of
      - src/vsg/app/RecordAndSubmitTask.cpp  (module [RecordAndSubmitTask])
      - src/vsg/state/ViewDependentState.cpp (module [ViewDependentState])
    together with the properties of the specification that concern them.

    Conventions.
      - [size_t] and [uint64_t] values are integers in [Z]; the only
        arithmetic the sources perform on them ([++] and [size() - 1]) is
        written with its wrap-around [wrap64].
      - A [std::vector] is a list; [v[i]] outside of [0 .. size()-1] is
        undefined behaviour and is reported as the fault [OutOfRange];
        dereferencing a null pointer is the fault [NullDereference].
      - Calls into classes whose bodies are not part of these two files
        (Fence, TransferTask, CommandGraph, Queue, ...) are taken through the
        record [External]; each such call may read and change an opaque
        [Device] state, and is logged in a trace of [Event]s. *)

From Stdlib Require Import ZArith Lia.
From stdpp Require Import base option list gmap.

#[local] Open Scope Z_scope.

(** ** Machine integers and Vulkan constants *)

Definition UINT64_MAX : Z := 2 ^ 64 - 1.
Definition UINT32_MAX : Z := 2 ^ 32 - 1.

(** arithmetic on [size_t] is modulo 2^64 *)
Definition wrap64 (z : Z) : Z := z mod 2 ^ 64.

Definition VkResult : Type := Z.
Definition VK_SUCCESS : VkResult := 0.

(** [v.size()] *)
Definition vsize {A} (v : list A) : Z := Z.of_nat (length v).

Inductive Fault : Set :=
| NullDereference
| DanglingPointer
| OutOfRange.

(** [v[i]] as an rvalue *)
Definition vec_read {A} (v : list A) (i : Z) : Fault + A :=
  if bool_decide (0 <= i < vsize v) then
    match v !! Z.to_nat i with
    | Some x => inr x
    | None => inl OutOfRange
    end
  else inl OutOfRange.

(** [v[i] = x] *)
Definition vec_write {A} (v : list A) (i : Z) (x : A) : Fault + list A :=
  if bool_decide (0 <= i < vsize v) then inr (<[Z.to_nat i := x]> v)
  else inl OutOfRange.

Module RecordAndSubmitTask.

Inductive VkCommandBufferLevel : Set :=
| VK_COMMAND_BUFFER_LEVEL_PRIMARY
| VK_COMMAND_BUFFER_LEVEL_SECONDARY.

#[global] Instance VkCommandBufferLevel_eq_dec : EqDecision VkCommandBufferLevel.
Proof. solve_decision. Defined.

(** A semaphore: its Vulkan handle and the stage mask it guards. *)
Record Semaphore : Set := mkSemaphore {
  sem_vk : Z;
  pipelineStageFlags : Z
}.

Record CommandBuffer : Set := mkCommandBuffer {
  cb_vk : Z;
  level : VkCommandBufferLevel
}.

(** The part of a Fence this file touches: the two dependency lists, reached
    through [dependentCommandBuffers()] and [dependentSemaphores()]. *)
Record Fence : Set := mkFence {
  fence_vk : Z;
  dependentCommandBuffers : list CommandBuffer;
  dependentSemaphores : list Semaphore
}.

Record Frame : Set := mkFrame {
  imageAvailableSemaphore : Semaphore
}.

Record Window : Set := mkWindow {
  imageIndex : Z;
  frames : list Frame
}.

Definition numFrames (w : Window) : Z := vsize (frames w).

Record VkSubmitInfo : Set := mkSubmitInfo {
  pWaitSemaphores : list Z;
  pWaitDstStageMask : list Z;
  pCommandBuffers : list Z;
  pSignalSemaphores : list Z
}.

Definition waitSemaphoreCount (i : VkSubmitInfo) : Z := vsize (pWaitSemaphores i).
Definition commandBufferCount (i : VkSubmitInfo) : Z := vsize (pCommandBuffers i).
Definition signalSemaphoreCount (i : VkSubmitInfo) : Z := vsize (pSignalSemaphores i).

(** Calls that leave this file, in the order they are made. *)
Inductive Event : Set :=
| EvTransferAdvance (early : bool)
| EvTransferDynamicData (early : bool)
| EvFenceHasDependencies (fenceIndex : Z)
| EvFenceWait (fenceIndex : Z) (timeout : Z)
| EvFenceReset (fenceIndex : Z)
| EvRecord (graph : nat)
| EvSleep (milliseconds : Z)
| EvQueueSubmit (queue : Z) (info : VkSubmitInfo) (fenceIndex : Z).

Definition is_wait_or_reset (e : Event) : bool :=
  match e with
  | EvFenceWait _ _ | EvFenceReset _ => true
  | _ => false
  end.

Definition is_submit (e : Event) : bool :=
  match e with
  | EvQueueSubmit _ _ _ => true
  | _ => false
  end.

Definition is_sleep (e : Event) : bool :=
  match e with
  | EvSleep _ => true
  | _ => false
  end.

Section Task.

(** Opaque state of the collaborating classes. *)
Context {Device TransferState GraphState FrameStamp : Type}.
Context {DynamicData CompileManager PagerState : Type}.

(** A TransferTask: the two members read and written here, and the rest. *)
Record TransferTask : Type := mkTransferTask {
  currentTransferCompletedSemaphore : option Semaphore;
  tt_waitSemaphores : list Semaphore;
  tt_state : TransferState
}.

Record CommandGraph : Type := mkCommandGraph {
  maxSlot : Z;
  cg_state : GraphState
}.

(** A DatabasePager: the member assigned here, and the rest. *)
Record DatabasePager : Type := mkDatabasePager {
  compileManager : option CompileManager;
  pager_state : PagerState
}.

Record Task : Type := mkTask {
  _currentFrameIndex : Z;
  _indices : list Z;
  _fences : list Fence;
  earlyTransferTask : option TransferTask;
  lateTransferTask : option TransferTask;
  earlyTransferTaskConsumerCompletedSemaphore : Semaphore;
  lateTransferTaskConsumerCompletedSemaphore : Semaphore;
  commandGraphs : list CommandGraph;
  windows : list Window;
  waitSemaphores : list Semaphore;
  signalSemaphores : list Semaphore;
  databasePager : option nat;
  queue : option Z
}.

Definition set_currentFrameIndex (x : Z) (t : Task) : Task :=
  mkTask x (_indices t) (_fences t) (earlyTransferTask t) (lateTransferTask t)
    (earlyTransferTaskConsumerCompletedSemaphore t)
    (lateTransferTaskConsumerCompletedSemaphore t)
    (commandGraphs t) (windows t) (waitSemaphores t) (signalSemaphores t)
    (databasePager t) (queue t).

Definition set_indices (x : list Z) (t : Task) : Task :=
  mkTask (_currentFrameIndex t) x (_fences t) (earlyTransferTask t)
    (lateTransferTask t)
    (earlyTransferTaskConsumerCompletedSemaphore t)
    (lateTransferTaskConsumerCompletedSemaphore t)
    (commandGraphs t) (windows t) (waitSemaphores t) (signalSemaphores t)
    (databasePager t) (queue t).

Definition set_fences (x : list Fence) (t : Task) : Task :=
  mkTask (_currentFrameIndex t) (_indices t) x (earlyTransferTask t)
    (lateTransferTask t)
    (earlyTransferTaskConsumerCompletedSemaphore t)
    (lateTransferTaskConsumerCompletedSemaphore t)
    (commandGraphs t) (windows t) (waitSemaphores t) (signalSemaphores t)
    (databasePager t) (queue t).

Definition set_earlyTransferTask (x : option TransferTask) (t : Task) : Task :=
  mkTask (_currentFrameIndex t) (_indices t) (_fences t) x (lateTransferTask t)
    (earlyTransferTaskConsumerCompletedSemaphore t)
    (lateTransferTaskConsumerCompletedSemaphore t)
    (commandGraphs t) (windows t) (waitSemaphores t) (signalSemaphores t)
    (databasePager t) (queue t).

Definition set_lateTransferTask (x : option TransferTask) (t : Task) : Task :=
  mkTask (_currentFrameIndex t) (_indices t) (_fences t) (earlyTransferTask t) x
    (earlyTransferTaskConsumerCompletedSemaphore t)
    (lateTransferTaskConsumerCompletedSemaphore t)
    (commandGraphs t) (windows t) (waitSemaphores t) (signalSemaphores t)
    (databasePager t) (queue t).

Definition set_commandGraphs (x : list CommandGraph) (t : Task) : Task :=
  mkTask (_currentFrameIndex t) (_indices t) (_fences t) (earlyTransferTask t)
    (lateTransferTask t)
    (earlyTransferTaskConsumerCompletedSemaphore t)
    (lateTransferTaskConsumerCompletedSemaphore t)
    x (windows t) (waitSemaphores t) (signalSemaphores t)
    (databasePager t) (queue t).

Definition set_databasePager (x : option nat) (t : Task) : Task :=
  mkTask (_currentFrameIndex t) (_indices t) (_fences t) (earlyTransferTask t)
    (lateTransferTask t)
    (earlyTransferTaskConsumerCompletedSemaphore t)
    (lateTransferTaskConsumerCompletedSemaphore t)
    (commandGraphs t) (windows t) (waitSemaphores t) (signalSemaphores t) x
    (queue t).

(** The collaborators' methods.  Each takes the device state it may depend
    on and returns the one it leaves. *)
Record External : Type := mkExternal {
  Fence_create : Device -> Fence * Device;
  Semaphore_create : Device -> Semaphore * Device;
  TransferTask_create : Z -> Device -> TransferTask * Device;
  TransferTask_advance : TransferTask -> Device -> TransferTask * Device;
  transferDynamicData : TransferTask -> Device -> VkResult * TransferTask * Device;
  hasDependencies : Fence -> Device -> bool;
  Fence_wait : Fence -> Z -> Device -> VkResult * Device;
  resetFenceAndDependencies : Fence -> Device -> Fence * Device;
  CommandGraph_record :
    CommandGraph -> list CommandBuffer -> FrameStamp -> option nat -> Device ->
    CommandGraph * list CommandBuffer * Device;
  Queue_submit : Z -> VkSubmitInfo -> Fence -> Device -> VkResult * Device;
  (* used by updateTasks *)
  DynamicData_bool : DynamicData -> bool;
  TransferTask_assign : TransferTask -> DynamicData -> TransferTask;
  DatabasePager_create : DatabasePager;
  DatabasePager_start : DatabasePager -> DatabasePager
}.

Variable ext : External.

(** ** The state the member functions run in *)

Record Machine : Type := mkMachine {
  task : Task;
  device : Device;
  trace : list Event
}.

Definition M (A : Type) : Type := Machine -> Fault + (A * Machine).

#[export] Instance M_ret : MRet M := fun A a s => inr (a, s).
#[export] Instance M_bind : MBind M := fun A B k m s =>
  match m s with
  | inl f => inl f
  | inr (a, s') => k a s'
  end.

Definition this : M Task := fun s => inr (task s, s).
Definition update (f : Task -> Task) : M unit :=
  fun s => inr (tt, mkMachine (f (task s)) (device s) (trace s)).
Definition raise {A} (f : Fault) : M A := fun _ => inl f.
Definition lift {A} (r : Fault + A) : M A :=
  fun s => match r with inl f => inl f | inr a => inr (a, s) end.
(** a call into a collaborator *)
Definition call {A} (e : Event) (f : Device -> A * Device) : M A :=
  fun s => let '(a, d) := f (device s) in
           inr (a, mkMachine (task s) d (trace s ++ [e])).

(** ** RecordAndSubmitTask::RecordAndSubmitTask *)

(** [for (i = 0; i < numBuffers; ++i) _fences[i] = Fence::create(device);] *)
Fixpoint create_fences (n : nat) (d : Device) : list Fence * Device :=
  match n with
  | O => ([], d)
  | S n' =>
      let '(f, d1) := Fence_create ext d in
      let '(fs, d2) := create_fences n' d1 in
      (f :: fs, d2)
  end.

(** [numBuffers] is a [uint32_t]; it doubles as the "unset" value of
    [_currentFrameIndex] and of every ring slot. *)
Definition constructor (numBuffers : Z) (d : Device) : Task * Device :=
  let indices := replicate (Z.to_nat numBuffers) numBuffers in
  let '(fences, d1) := create_fences (Z.to_nat numBuffers) d in
  let '(early, d2) := TransferTask_create ext numBuffers d1 in
  let '(earlySem, d3) := Semaphore_create ext d2 in
  let '(late, d4) := TransferTask_create ext numBuffers d3 in
  let '(lateSem, d5) := Semaphore_create ext d4 in
  (mkTask numBuffers indices fences (Some early) (Some late) earlySem lateSem
     [] [] [] [] None None, d5).

(** ** RecordAndSubmitTask::advance *)

(** [for (size_t i = from; i >= 1; --i) _indices[i] = _indices[i - 1];] *)
Fixpoint shift_indices (i : nat) : M unit :=
  match i with
  | O => mret tt
  | S j =>
      t ← this;
      x ← lift (vec_read (_indices t) (Z.of_nat (S j) - 1));
      v ← lift (vec_write (_indices t) (Z.of_nat (S j)) x);
      update (set_indices v);;
      shift_indices j
  end.

Definition advance_transfer (early : bool) (transfer : option TransferTask)
    (set : option TransferTask -> Task -> Task) : M unit :=
  match transfer with
  | Some x =>
      x' ← call (EvTransferAdvance early) (TransferTask_advance ext x);
      update (set (Some x'))
  | None => mret tt
  end.

Definition advance : M unit :=
  t ← this;
  (if bool_decide (vsize (_indices t) <= _currentFrameIndex t) then
     (* first frame so set to 0 *)
     update (set_currentFrameIndex 0)
   else
     update (set_currentFrameIndex (wrap64 (_currentFrameIndex t + 1)));;
     t1 ← this;
     (if bool_decide (wrap64 (vsize (_indices t1) - 1) < _currentFrameIndex t1)
      then update (set_currentFrameIndex 0)
      else mret tt);;
     (* shift the index for previous frames *)
     shift_indices (Z.to_nat (wrap64 (vsize (_indices t1) - 1))));;
  (* pass the index for the current frame *)
  t2 ← this;
  v ← lift (vec_write (_indices t2) 0 (_currentFrameIndex t2));
  update (set_indices v);;
  advance_transfer true (earlyTransferTask t2) set_earlyTransferTask;;
  advance_transfer false (lateTransferTask t2) set_lateTransferTask.

(** [advance()] called [k] times in a row *)
Fixpoint advances (k : nat) : M unit :=
  match k with
  | O => mret tt
  | S k' => advance;; advances k'
  end.

(** ** RecordAndSubmitTask::index and RecordAndSubmitTask::fence *)

Definition index (t : Task) (relativeFrameIndex : Z) : Z :=
  if bool_decide (relativeFrameIndex < vsize (_indices t)) then
    default 0 (_indices t !! Z.to_nat relativeFrameIndex)
  else vsize (_indices t).

(** The result is a pointer to [_fences[i]], represented by [i]; [None] is
    [nullptr]. *)
Definition fence (t : Task) (relativeFrameIndex : Z) : option Z :=
  let i := index t relativeFrameIndex in
  if bool_decide (i < vsize (_fences t)) then Some i else None.

(** [*p] for a pointer returned by [fence] *)
Definition deref_fence (p : option Z) : M (Z * Fence) :=
  match p with
  | None => raise NullDereference
  | Some i =>
      t ← this;
      f ← lift (vec_read (_fences t) i);
      mret (i, f)
  end.

Definition store_fence (i : Z) (f : Fence) : M unit :=
  t ← this;
  v ← lift (vec_write (_fences t) i f);
  update (set_fences v).

(** ** RecordAndSubmitTask::start *)

Definition clear_completed (x : TransferTask) : TransferTask :=
  mkTransferTask None (tt_waitSemaphores x) (tt_state x).

Definition start : M VkResult :=
  update (fun t => set_earlyTransferTask (clear_completed <$> earlyTransferTask t) t);;
  update (fun t => set_lateTransferTask (clear_completed <$> lateTransferTask t) t);;
  t ← this;
  let current_fence := fence t 0 in
  '(i, f) ← deref_fence current_fence;
  has ← call (EvFenceHasDependencies i) (fun d => (hasDependencies ext f d, d));
  if has : bool then
    let timeout := UINT64_MAX in
    result ← call (EvFenceWait i timeout) (Fence_wait ext f timeout);
    if bool_decide (result ≠ VK_SUCCESS) then mret result
    else
      f' ← call (EvFenceReset i) (resetFenceAndDependencies ext f);
      store_fence i f';;
      mret VK_SUCCESS
  else mret VK_SUCCESS.

(** ** RecordAndSubmitTask::record *)

(** The loop over [commandGraphs]; [n] is the position of the head of [cgs].
    The collection of recorded buffers is shared with the caller, so its
    final contents are handed back. *)
Fixpoint record_graphs (n : nat) (cgs : list CommandGraph)
    (recorded : list CommandBuffer) (frameStamp : FrameStamp)
    : M (list CommandGraph * list CommandBuffer) :=
  match cgs with
  | [] => mret ([], recorded)
  | cg :: rest =>
      t ← this;
      '(cg', recorded') ← call (EvRecord n)
         (CommandGraph_record ext cg recorded frameStamp (databasePager t));
      '(rest', recorded'') ← record_graphs (S n) rest recorded' frameStamp;
      mret (cg' :: rest', recorded'')
  end.

Definition record (recordedCommandBuffers : list CommandBuffer)
    (frameStamp : FrameStamp) : M (VkResult * list CommandBuffer) :=
  t ← this;
  '(cgs, recorded) ← record_graphs 0 (commandGraphs t) recordedCommandBuffers frameStamp;
  update (set_commandGraphs cgs);;
  mret (VK_SUCCESS, recorded).

(** ** RecordAndSubmitTask::finish *)

Definition with_dependencies (f : Fence) (cbs : list CommandBuffer)
    (sems : list Semaphore) : Fence :=
  mkFence (fence_vk f) cbs sems.

(** what one transfer task adds to the wait and signal lists *)
Definition transfer_semaphores (transfer : option TransferTask)
    (consumer : Semaphore)
    : list Semaphore * list Semaphore * option TransferTask :=
  match transfer with
  | Some x =>
      match currentTransferCompletedSemaphore x with
      | Some s =>
          ([s], [consumer],
           Some (mkTransferTask (currentTransferCompletedSemaphore x)
                   (tt_waitSemaphores x ++ [consumer]) (tt_state x)))
      | None => ([], [], transfer)
      end
  | None => ([], [], transfer)
  end.

(** [for (auto& window : windows)] *)
Fixpoint window_semaphores (ws : list Window) : Fault + list Semaphore :=
  match ws with
  | [] => inr []
  | w :: rest =>
      if bool_decide (numFrames w <= imageIndex w) then window_semaphores rest
      else
        match vec_read (frames w) (imageIndex w) with
        | inl e => inl e
        | inr fr =>
            match window_semaphores rest with
            | inl e => inl e
            | inr l => inr (imageAvailableSemaphore fr :: l)
            end
        end
  end.

Definition finish (recordedCommandBuffers : list CommandBuffer) : M VkResult :=
  t ← this;
  late_result ←
    match lateTransferTask t with
    | Some x =>
        '(r, x') ← call (EvTransferDynamicData false) (transferDynamicData ext x);
        update (set_lateTransferTask (Some x'));;
        mret r
    | None => mret VK_SUCCESS
    end;
  if bool_decide (late_result ≠ VK_SUCCESS) then mret late_result
  else if bool_decide (recordedCommandBuffers = []) then
    (* nothing to do so return early *)
    call (EvSleep 16) (fun d => (tt, d));;
    mret VK_SUCCESS
  else
    t1 ← this;
    let current_fence := fence t1 0 in
    let buffers := recordedCommandBuffers in
    let vk_commandBuffers :=
      cb_vk <$> filter (fun cb => level cb = VK_COMMAND_BUFFER_LEVEL_PRIMARY) buffers in
    '(i, f) ← deref_fence current_fence;
    let f1 := with_dependencies f (dependentCommandBuffers f ++ buffers)
                (signalSemaphores t1) in
    store_fence i f1;;
    let '(w_early, s_early, early') :=
      transfer_semaphores (earlyTransferTask t1)
        (earlyTransferTaskConsumerCompletedSemaphore t1) in
    update (set_earlyTransferTask early');;
    let '(w_late, s_late, late') :=
      transfer_semaphores (lateTransferTask t1)
        (lateTransferTaskConsumerCompletedSemaphore t1) in
    update (set_lateTransferTask late');;
    w_windows ← lift (window_semaphores (windows t1));
    let waits := w_early ++ w_late ++ w_windows ++ waitSemaphores t1 in
    let signals := s_early ++ s_late ++ signalSemaphores t1 in
    let submitInfo :=
      mkSubmitInfo (sem_vk <$> waits) (pipelineStageFlags <$> waits)
        vk_commandBuffers (sem_vk <$> signals) in
    match queue t1 with
    | None => raise NullDereference
    | Some q => call (EvQueueSubmit q submitInfo i) (Queue_submit ext q submitInfo f1)
    end.

(** ** RecordAndSubmitTask::submit *)

Definition submit (frameStamp : FrameStamp) : M VkResult :=
  result ← start;
  if bool_decide (result ≠ VK_SUCCESS) then mret result
  else
    t ← this;
    early_result ←
      match earlyTransferTask t with
      | Some x =>
          '(r, x') ← call (EvTransferDynamicData true) (transferDynamicData ext x);
          update (set_earlyTransferTask (Some x'));;
          mret r
      | None => mret VK_SUCCESS
      end;
    if bool_decide (early_result ≠ VK_SUCCESS) then mret early_result
    else
      let recordedCommandBuffers := [] in
      '(record_result, recorded) ← record recordedCommandBuffers frameStamp;
      if bool_decide (record_result ≠ VK_SUCCESS) then mret record_result
      else finish recorded.
(** ** vsg::updateTasks *)

Inductive SortOrder : Set :=
| ASCENDING
| NO_SORT
| DESCENDING.

(** [Bin::create(binNumber, sortOrder)] *)
Record Bin : Set := Bin_create {
  binNumber : Z;
  sortOrder : SortOrder
}.

Record View : Set := mkView {
  bins : list Bin
}.

(** [BinDetails::indices], in iteration order *)
Record BinDetails : Set := mkBinDetails {
  indices : list Z
}.

(** [views] is keyed by the address of a View and listed in iteration
    order. *)
Record CompileResult : Type := mkCompileResult {
  earlyDynamicData : DynamicData;
  lateDynamicData : DynamicData;
  cr_maxSlot : Z;
  containsPagedLOD : bool;
  views : list (nat * BinDetails)
}.

(** The objects [updateTasks] reaches through pointers: the views, by
    address, and the database pagers, by allocation number. *)
Record Scene : Type := mkScene {
  view_heap : gmap nat View;
  pagers : list DatabasePager
}.

Definition assign_dynamic_data (cr : CompileResult) (t : Task) : Task :=
  let t1 :=
    match earlyTransferTask t with
    | Some x =>
        if DynamicData_bool ext (earlyDynamicData cr)
        then set_earlyTransferTask
               (Some (TransferTask_assign ext x (earlyDynamicData cr))) t
        else t
    | None => t
    end in
  match lateTransferTask t1 with
  | Some x =>
      if DynamicData_bool ext (lateDynamicData cr)
      then set_lateTransferTask
             (Some (TransferTask_assign ext x (lateDynamicData cr))) t1
      else t1
  | None => t1
  end.

Definition raise_maxSlot (cr : CompileResult) (cg : CommandGraph) : CommandGraph :=
  if bool_decide (maxSlot cg < cr_maxSlot cr)
  then mkCommandGraph (cr_maxSlot cr) (cg_state cg)
  else cg.

(** [if (task->databasePager && !databasePager) databasePager = task->databasePager;] *)
Definition first_pager (tasks : list Task) : option nat :=
  foldl (fun found t =>
           match databasePager t, found with
           | Some p, None => Some p
           | _, _ => found
           end) None tasks.

Definition assign_pager (cm : CompileManager) (p : nat)
    (acc : list Task * list DatabasePager) (t : Task)
    : list Task * list DatabasePager :=
  match databasePager t with
  | None =>
      (acc.1 ++ [set_databasePager (Some p) t],
       alter (fun pg => mkDatabasePager (Some cm) (pager_state pg)) p acc.2)
  | Some _ => (acc.1 ++ [t], acc.2)
  end.

Definition update_pagers (cm : CompileManager) (tasks : list Task)
    (pgs : list DatabasePager) : list Task * list DatabasePager :=
  match first_pager tasks with
  | Some _ => (tasks, pgs)
  | None =>
      let p := length pgs in
      let '(tasks', pgs') :=
        foldl (assign_pager cm p) ([], pgs ++ [DatabasePager_create ext]) tasks in
      (tasks', alter (DatabasePager_start ext) p pgs')
  end.

Definition sortOrder_of (n : Z) : SortOrder :=
  if bool_decide (n < 0) then ASCENDING
  else if bool_decide (n = 0) then NO_SORT
  else DESCENDING.

(** [for (auto& bin : view->bins) if (bin->binNumber == binNumber) binNumberMatched = true;] *)
Definition binNumberMatched (bs : list Bin) (n : Z) : bool :=
  foldl (fun matched b => if bool_decide (binNumber b = n) then true else matched)
    false bs.

(** body of [for (auto& binNumber : binDetails.indices)] *)
Definition ensure_bin (bs : list Bin) (n : Z) : list Bin :=
  if binNumberMatched bs n then bs
  else bs ++ [Bin_create n (sortOrder_of n)].

(** body of [for (auto& [const_view, binDetails] : compileResult.views)] *)
Definition update_view (heap : Fault + gmap nat View) (entry : nat * BinDetails)
    : Fault + gmap nat View :=
  match heap with
  | inl e => inl e
  | inr h =>
      match h !! entry.1 with
      | None => inl DanglingPointer
      | Some view =>
          inr (<[entry.1 := mkView (foldl ensure_bin (bins view) (indices entry.2))]> h)
      end
  end.

Definition updateTasks (tasks : list Task) (cm : CompileManager)
    (compileResult : CompileResult) (sc : Scene) : Fault + (list Task * Scene) :=
  let tasks1 :=
    if DynamicData_bool ext (earlyDynamicData compileResult)
       || DynamicData_bool ext (lateDynamicData compileResult)
    then assign_dynamic_data compileResult <$> tasks
    else tasks in
  (* increase maxSlot if required *)
  let tasks2 :=
    (fun t => set_commandGraphs (raise_maxSlot compileResult <$> commandGraphs t) t)
      <$> tasks1 in
  (* assign database pager if required *)
  let '(tasks3, pagers3) :=
    if containsPagedLOD compileResult
    then update_pagers cm tasks2 (pagers sc)
    else (tasks2, pagers sc) in
  (* handle any new Bin needs *)
  match foldl update_view (inr (view_heap sc)) (views compileResult) with
  | inl e => inl e
  | inr heap => inr (tasks3, mkScene heap pagers3)
  end.

(** ** Notions the properties are stated with *)

Definition with_task (f : Task -> Task) (m : Machine) : Machine :=
  mkMachine (f (task m)) (device m) (trace m).

Definition same_ring (t t' : Task) : Prop :=
  _currentFrameIndex t' = _currentFrameIndex t
  /\ _indices t' = _indices t
  /\ _fences t' = _fences t.

(** What the ring holds after [k] calls of [advance] on a ring of [N] slots:
    the current frame in front, the frames before it behind. *)
Fixpoint ring_history (N : Z) (k : nat) : list Z :=
  match k with
  | O => replicate (Z.to_nat N) N
  | S k' => Z.of_nat k' mod N :: take (Z.to_nat N - 1) (ring_history N k')
  end.

Definition ring_state (N : Z) (k : nat) (t : Task) : Prop :=
  _currentFrameIndex t = match k with O => N | S k' => Z.of_nat k' mod N end
  /\ _indices t = ring_history N k
  /\ length (_fences t) = Z.to_nat N.

Definition initial (N : Z) (d : Device) : Machine :=
  mkMachine (constructor N d).1 (constructor N d).2 [].

Definition cleared (t : Task) : Task :=
  set_lateTransferTask (clear_completed <$> lateTransferTask t)
    (set_earlyTransferTask (clear_completed <$> earlyTransferTask t) t).

(** the events of a run from [m] to [m'] *)
Definition new_events (m m' : Machine) : list Event :=
  drop (length (trace m)) (trace m').

Definition late_transfer_result (m : Machine) : VkResult :=
  match lateTransferTask (task m) with
  | Some x => (transferDynamicData ext x (device m)).1.1
  | None => VK_SUCCESS
  end.

(** [bs'] is [bs] with bins appended, each new to [bs], with a number in [P],
    sorted by the sign of its number, and no two with the same number. *)
Definition extends (P : Z -> Prop) (bs bs' : list Bin) : Prop :=
  exists added,
    bs' = bs ++ added
    /\ Forall (fun b => sortOrder b = sortOrder_of (binNumber b)
                        /\ P (binNumber b)
                        /\ binNumber b ∉ (binNumber <$> bs)) added
    /\ NoDup (binNumber <$> added).

(** the bin number [n] is listed for the view at [v] *)
Definition listed (vs : list (nat * BinDetails)) (v : nat) (n : Z) : Prop :=
  exists details, (v, details) ∈ vs /\ n ∈ indices details.

End Task.
End RecordAndSubmitTask.

Module ViewDependentState.

Section Lights.

(** [float], [double] and [dmat4] with the operations [pack] applies to them:
    the single- and double-precision arithmetic is that of the platform. *)
Context {float double dmat4 dmat3 LightKey : Type}.

Record vec3 : Type := mkvec3 { r : float; g : float; b : float }.
Record vec4 : Type := mkvec4 { v_x : float; v_y : float; v_z : float; v_w : float }.
Record dvec3 : Type := mkdvec3 { x : double; y : double; z : double }.

Record Numerics : Type := mkNumerics {
  float_of_size : Z -> float;          (* static_cast<float>(size_t) *)
  float_of_double : double -> float;   (* static_cast<float>(double) *)
  float_zero : float;                  (* 0.0f *)
  vec4_default : vec4;                 (* a value-initialised element *)
  cos : double -> double;
  normalize : dvec3 -> dvec3;
  inverse_3x3 : dmat4 -> dmat3;
  dvec3_mul_dmat3 : dvec3 -> dmat3 -> dvec3;   (* v * m *)
  dmat4_mul_dvec3 : dmat4 -> dvec3 -> dvec3    (* m * v *)
}.

Variable num : Numerics.

Record AmbientLight : Type := mkAmbientLight {
  a_color : vec3;
  a_intensity : float
}.

Record DirectionalLight : Type := mkDirectionalLight {
  d_color : vec3;
  d_intensity : float;
  d_direction : dvec3
}.

Record PointLight : Type := mkPointLight {
  p_color : vec3;
  p_intensity : float;
  p_position : dvec3
}.

Record SpotLight : Type := mkSpotLight {
  s_color : vec3;
  s_intensity : float;
  s_position : dvec3;
  s_direction : dvec3;
  innerAngle : double;
  outerAngle : double
}.

(** The four containers hold pairs; [pack] reads the light from the second
    component and, except for ambient lights, the transform from the first. *)
Record State : Type := mkState {
  lightData : list vec4;
  lightData_dirty : bool;
  viewportData : list vec4;
  ambientLights : list (LightKey * AmbientLight);
  directionalLights : list (dmat4 * DirectionalLight);
  pointLights : list (dmat4 * PointLight);
  spotLights : list (dmat4 * SpotLight)
}.

(** ** ViewDependentState::init *)

Definition init (maxNumberLights maxViewports : Z) : State :=
  mkState (replicate (Z.to_nat maxNumberLights) (vec4_default num)) false
    (replicate (Z.to_nat maxViewports) (vec4_default num)) [] [] [] [].

(** ** ViewDependentState::clear *)

Definition clear (s : State) : State :=
  mkState (lightData s) (lightData_dirty s) (viewportData s) [] [] [] [].

(** ** ViewDependentState::pack *)

(** The array together with the iterator [light_itr] that walks it.  The
    iterator is not checked against the end of the array: [written] lists
    every store made through it, slot and value, and [overrun] tells whether
    one of them fell outside of the array. *)
Record Cursor : Type := mkCursor {
  array : list vec4;
  light_itr : nat;
  written : list (nat * vec4);
  overrun : bool
}.

(** [lightData->begin()] *)
Definition begin (data : list vec4) : Cursor := mkCursor data 0 [] false.

(** a store through the iterator, which then moves on by one slot:
    [*light_itr++ = v] *)
Definition store (c : Cursor) (v : vec4) : Cursor :=
  mkCursor (<[light_itr c := v]> (array c)) (S (light_itr c))
    (written c ++ [(light_itr c, v)])
    (overrun c || bool_decide (length (array c) <= light_itr c)%nat).

Definition counts_record (a d p s : Z) : vec4 :=
  mkvec4 (float_of_size num a) (float_of_size num d)
    (float_of_size num p) (float_of_size num s).

Definition colour_record (c : vec3) (intensity : float) : vec4 :=
  mkvec4 (r c) (g c) (b c) intensity.

Definition geometry_record (v : dvec3) (w : float) : vec4 :=
  mkvec4 (float_of_double num (x v)) (float_of_double num (y v))
    (float_of_double num (z v)) w.

Definition pack_ambient (c : Cursor) (entry : LightKey * AmbientLight) : Cursor :=
  let light := entry.2 in
  store c (colour_record (a_color light) (a_intensity light)).

Definition pack_directional (c : Cursor) (entry : dmat4 * DirectionalLight) : Cursor :=
  let '(mv, light) := entry in
  let eye_direction :=
    normalize num (dvec3_mul_dmat3 num (d_direction light) (inverse_3x3 num mv)) in
  let c1 := store c (colour_record (d_color light) (d_intensity light)) in
  store c1 (geometry_record eye_direction (float_zero num)).

Definition pack_point (c : Cursor) (entry : dmat4 * PointLight) : Cursor :=
  let '(mv, light) := entry in
  let eye_position := dmat4_mul_dvec3 num mv (p_position light) in
  let c1 := store c (colour_record (p_color light) (p_intensity light)) in
  store c1 (geometry_record eye_position (float_zero num)).

Definition pack_spot (c : Cursor) (entry : dmat4 * SpotLight) : Cursor :=
  let '(mv, light) := entry in
  let eye_position := dmat4_mul_dvec3 num mv (s_position light) in
  let eye_direction :=
    normalize num (dvec3_mul_dmat3 num (s_direction light) (inverse_3x3 num mv)) in
  let cos_innerAngle := float_of_double num (cos num (innerAngle light)) in
  let cos_outerAngle := float_of_double num (cos num (outerAngle light)) in
  let c1 := store c (colour_record (s_color light) (s_intensity light)) in
  let c2 := store c1 (geometry_record eye_position cos_innerAngle) in
  store c2 (geometry_record eye_direction cos_outerAngle).

(** The run of [pack] through the array. *)
Definition pack_cursor (s : State) : Cursor :=
  let light_itr0 := begin (lightData s) in
  let c0 := store light_itr0
              (counts_record (vsize (ambientLights s)) (vsize (directionalLights s))
                 (vsize (pointLights s)) (vsize (spotLights s))) in
  let c1 := foldl pack_ambient c0 (ambientLights s) in
  let c2 := foldl pack_directional c1 (directionalLights s) in
  let c3 := foldl pack_point c2 (pointLights s) in
  foldl pack_spot c3 (spotLights s).

(** [pack()]: a store past the end of the array is undefined behaviour. *)
Definition pack (s : State) : Fault + State :=
  let c := pack_cursor s in
  if overrun c then inl OutOfRange
  else inr (mkState (array c) true (viewportData s) (ambientLights s)
              (directionalLights s) (pointLights s) (spotLights s)).

(** the number of records the lights of [s] take *)
Definition record_count (s : State) : nat :=
  (1 + length (ambientLights s) + 2 * length (directionalLights s)
   + 2 * length (pointLights s) + 3 * length (spotLights s))%nat.

Definition with_lightData (data : list vec4) (s : State) : State :=
  mkState data (lightData_dirty s) (viewportData s) (ambientLights s)
    (directionalLights s) (pointLights s) (spotLights s).

(** ** The records of a frame, as a list

    What [pack] stores, in the order it stores it; [pack_cursor] is compared
    with this list in [ViewDependentStateSpec]. *)

Definition ambient_records (entry : LightKey * AmbientLight) : list vec4 :=
  [colour_record (a_color entry.2) (a_intensity entry.2)].

Definition directional_records (entry : dmat4 * DirectionalLight) : list vec4 :=
  [colour_record (d_color entry.2) (d_intensity entry.2);
   geometry_record
     (normalize num
        (dvec3_mul_dmat3 num (d_direction entry.2) (inverse_3x3 num entry.1)))
     (float_zero num)].

Definition point_records (entry : dmat4 * PointLight) : list vec4 :=
  [colour_record (p_color entry.2) (p_intensity entry.2);
   geometry_record (dmat4_mul_dvec3 num entry.1 (p_position entry.2))
     (float_zero num)].

Definition spot_records (entry : dmat4 * SpotLight) : list vec4 :=
  [colour_record (s_color entry.2) (s_intensity entry.2);
   geometry_record (dmat4_mul_dvec3 num entry.1 (s_position entry.2))
     (float_of_double num (cos num (innerAngle entry.2)));
   geometry_record
     (normalize num
        (dvec3_mul_dmat3 num (s_direction entry.2) (inverse_3x3 num entry.1)))
     (float_of_double num (cos num (outerAngle entry.2)))].

Definition pack_records (s : State) : list vec4 :=
  counts_record (vsize (ambientLights s)) (vsize (directionalLights s))
    (vsize (pointLights s)) (vsize (spotLights s))
  :: (ambientLights s ≫= ambient_records)
  ++ (directionalLights s ≫= directional_records)
  ++ (pointLights s ≫= point_records)
  ++ (spotLights s ≫= spot_records).

End Lights.
End ViewDependentState.

(** * Concrete collaborators and states

    Instances the properties below are tried on. *)

Module Demo.
Import RecordAndSubmitTask.

Definition VK_ERROR_DEVICE_LOST : VkResult := -4.

(** The device is a counter that numbers the handles it gives out.  A fence
    has dependencies when one of its two lists is not empty; a transfer
    reports [transfer_status], every other device call [VK_SUCCESS]. *)
Definition ext (transfer_status : VkResult)
    : @External Z unit unit unit (list Z) unit bool :=
  mkExternal
    (fun d => (mkFence d [] [], d + 1))
    (fun d => (mkSemaphore d 0, d + 1))
    (fun _ d => (mkTransferTask None [] tt, d))
    (fun x d => (x, d))
    (fun x d => (transfer_status, x, d))
    (fun f _ =>
       match dependentCommandBuffers f, dependentSemaphores f with
       | [], [] => false
       | _, _ => true
       end)
    (fun _ _ d => (VK_SUCCESS, d))
    (fun f d => (mkFence (fence_vk f) [] [], d))
    (fun cg recorded _ _ d => (cg, recorded, d))
    (fun _ _ _ d => (VK_SUCCESS, d))
    (fun dd => match dd with [] => false | _ => true end)
    (fun x _ => x)
    (mkDatabasePager None false)
    (fun p => mkDatabasePager (compileManager p) true).

(** a task with three buffered frames, as constructed *)
Definition fresh : Machine := initial (ext VK_SUCCESS) 3 0.

(** the same on a device whose transfers fail *)
Definition failing : Machine := initial (ext VK_ERROR_DEVICE_LOST) 3 0.

(** [fresh] after [k] calls of [advance] *)
Definition advanced (k : nat) : Machine :=
  match advances (ext VK_SUCCESS) k fresh with
  | inr (_, m) => m
  | inl _ => fresh
  end.

(** one frame in, with a command buffer of an earlier submission still
    attached to the current fence *)
Definition busy : Machine :=
  with_task
    (fun t =>
       set_fences
         (<[0%nat := mkFence 0 [mkCommandBuffer 7 VK_COMMAND_BUFFER_LEVEL_PRIMARY] []]>
            (_fences t)) t)
    (advanced 1).

Definition busy_started : Machine :=
  match start (ext VK_SUCCESS) busy with
  | inr (_, m) => m
  | inl _ => busy
  end.

(** one view, at address 1, with an unsorted bin 0 *)
Definition scene : @Scene unit bool :=
  mkScene {[ 1%nat := mkView [Bin_create 0 NO_SORT] ]} [].

Definition compiled : @CompileResult (list Z) :=
  mkCompileResult [] [] 0 false [(1%nat, mkBinDetails [-1; 0; 2])].

Import ViewDependentState.

(** Integers in the place of [float] and [double], and the identity in the
    place of every transform. *)
Definition num : @Numerics Z Z unit unit :=
  mkNumerics (fun n => n) (fun v => v) 0 (mkvec4 0 0 0 1)
    (fun a => a) (fun v => v) (fun _ => tt) (fun v _ => v) (fun _ v => v).

(** four slots of light data, one ambient light of colour (1,0,0) and
    intensity 2 *)
Definition lit : @State Z Z unit nat :=
  mkState (replicate 4 (mkvec4 0 0 0 1)) false [mkvec4 0 0 0 1]
    [(0%nat, mkAmbientLight (mkvec3 1 0 0) 2)] [] [] [].

(** the same lights over an array with other contents *)
Definition lit' : @State Z Z unit nat :=
  with_lightData (replicate 4 (mkvec4 9 9 9 9)) lit.

End Demo.

(** * Notions for the submission protocol *)

Module FrameProtocol.
Import RecordAndSubmitTask.

Section Protocol.
Context {Device TransferState GraphState FrameStamp : Type}.
Context {DynamicData CompileManager PagerState : Type}.

#[local] Abbreviation Task := (@Task TransferState GraphState).
#[local] Abbreviation TransferTask := (@TransferTask TransferState).
#[local] Abbreviation Machine := (@Machine Device TransferState GraphState).
#[local] Abbreviation External :=
  (@External Device TransferState GraphState FrameStamp DynamicData
     CompileManager PagerState).

Variable ext : External.

(** the status of a transfer step and the machine it leaves *)
Definition after_transfer (early : bool) (transfer : option TransferTask)
    (set : option TransferTask -> Task -> Task) (m : Machine)
    : VkResult * Machine :=
  match transfer with
  | Some x =>
      let '(r, x', d') := transferDynamicData ext x (device m) in
      (r, mkMachine (set (Some x') (task m)) d'
            (trace m ++ [EvTransferDynamicData early]))
  | None => (VK_SUCCESS, m)
  end.

Definition after_late_transfer (m : Machine) : VkResult * Machine :=
  after_transfer false (lateTransferTask (task m)) set_lateTransferTask m.

Definition after_early_transfer (m : Machine) : VkResult * Machine :=
  after_transfer true (earlyTransferTask (task m)) set_earlyTransferTask m.

(** the completion semaphore a transfer task has produced, if any *)
Definition completion (transfer : option TransferTask) : list Semaphore :=
  match transfer with
  | Some x =>
      match currentTransferCompletedSemaphore x with
      | Some s => [s]
      | None => []
      end
  | None => []
  end.

(** the "image available" semaphores of the windows that hold an image *)
Definition acquired (ws : list Window) : list Semaphore :=
  omap (fun w =>
          if bool_decide (numFrames w <= imageIndex w) then None
          else imageAvailableSemaphore <$> frames w !! Z.to_nat (imageIndex w))
    ws.

Definition is_fence_event (e : Event) : bool :=
  match e with
  | EvFenceHasDependencies _ | EvFenceWait _ _ | EvFenceReset _ => true
  | _ => false
  end.

Definition is_primary (cb : CommandBuffer) : Prop :=
  level cb = VK_COMMAND_BUFFER_LEVEL_PRIMARY.

(** the consumer-completed semaphore, signalled when the transfer task has
    produced a completion semaphore *)
Definition consumer (transfer : option TransferTask) (sem : Semaphore)
    : list Semaphore :=
  match completion transfer with
  | [] => []
  | _ => [sem]
  end.

(** the transfer task once the submission waits on its completion *)
Definition consumed (transfer : option TransferTask) (sem : Semaphore)
    : option TransferTask :=
  (fun x =>
     mkTransferTask (currentTransferCompletedSemaphore x)
       (tt_waitSemaphores x ++ consumer transfer sem) (tt_state x))
  <$> transfer.

(** the semaphores a submission of the task [t] waits on, and signals *)
Definition wait_list (t : Task) : list Semaphore :=
  completion (earlyTransferTask t) ++ completion (lateTransferTask t)
  ++ acquired (windows t) ++ waitSemaphores t.

Definition signal_list (t : Task) : list Semaphore :=
  consumer (earlyTransferTask t) (earlyTransferTaskConsumerCompletedSemaphore t)
  ++ consumer (lateTransferTask t) (lateTransferTaskConsumerCompletedSemaphore t)
  ++ signalSemaphores t.

Definition submission (t : Task) (buffers : list CommandBuffer) : VkSubmitInfo :=
  mkSubmitInfo (sem_vk <$> wait_list t) (pipelineStageFlags <$> wait_list t)
    (cb_vk <$> filter is_primary buffers) (sem_vk <$> signal_list t).

(** the current fence once the buffers of a submission are attached to it *)
Definition attached (t : Task) (f : Fence) (buffers : list CommandBuffer) : Fence :=
  mkFence (fence_vk f) (dependentCommandBuffers f ++ buffers) (signalSemaphores t).

End Protocol.
End FrameProtocol.

(** * Notions for updateTasks *)

Module UpdateTasks.
Import RecordAndSubmitTask.

Section Update.
Context {Device TransferState GraphState FrameStamp : Type}.
Context {DynamicData CompileManager PagerState : Type}.

#[local] Abbreviation Task := (@Task TransferState GraphState).
#[local] Abbreviation TransferTask := (@TransferTask TransferState).
#[local] Abbreviation CompileResult := (@CompileResult DynamicData).
#[local] Abbreviation External :=
  (@External Device TransferState GraphState FrameStamp DynamicData
     CompileManager PagerState).

Variable ext : External.

(** a transfer task once the data [dd] has been offered to it *)
Definition offered (dd : DynamicData) (transfer : option TransferTask)
    : option TransferTask :=
  if DynamicData_bool ext dd
  then (fun x => TransferTask_assign ext x dd) <$> transfer
  else transfer.

(** a task once its transfer tasks and command graphs have been updated *)
Definition refreshed (cr : CompileResult) (t : Task) : Task :=
  set_commandGraphs
    (raise_maxSlot cr <$> commandGraphs (assign_dynamic_data ext cr t))
    (assign_dynamic_data ext cr t).

(** a task once the pager [p] has been offered to it *)
Definition given_pager (p : nat) (t : Task) : Task :=
  match databasePager t with
  | None => set_databasePager (Some p) t
  | Some _ => t
  end.

End Update.
End UpdateTasks.
(** * ViewDescriptorSetLayout

    [ViewDescriptorSetLayout::compile] of [ViewDependentState.cpp].  A
    descriptor set layout is an object behind a pointer: it is known here by
    its identity, of type [DescriptorSetLayout].  [DescriptorSetLayout::compile]
    belongs to another class; its calls are listed, with the layout and the
    context they are made on. *)

Module ViewDescriptorSetLayout.

Section Layout.
Context {DescriptorSetLayout ContextState : Type}.

(** what [compile] reads of [context.viewDependentState] *)
Record ViewDependentStateRef : Type := mkViewDependentStateRef {
  descriptorSetLayout : option DescriptorSetLayout
}.

Record Context : Type := mkContext {
  viewDependentState : option ViewDependentStateRef;
  context_state : ContextState
}.

Record ViewDescriptorSetLayout : Type := mkViewDescriptorSetLayout {
  _viewDescriptorSetLayout : option DescriptorSetLayout
}.

(** a call [layout->compile(context)] *)
Definition LayoutCompile : Type := DescriptorSetLayout * Context.

(** [compile(context)]: the object afterwards, and the calls made. *)
Definition compile (this : ViewDescriptorSetLayout) (context : Context)
    : ViewDescriptorSetLayout * list LayoutCompile :=
  match _viewDescriptorSetLayout this, viewDependentState context with
  | None, Some vds =>
      match descriptorSetLayout vds with
      | Some layout =>
          (mkViewDescriptorSetLayout (Some layout), [(layout, context)])
      | None => (this, [])
      end
  | _, _ => (this, [])
  end.

(** [compile] called with one context after the other *)
Definition compiles (this : ViewDescriptorSetLayout) (contexts : list Context)
    : ViewDescriptorSetLayout * list LayoutCompile :=
  foldl (fun acc context =>
           let r := compile acc.1 context in (r.1, acc.2 ++ r.2))
    (this, []) contexts.

(** the layout a context has to offer, with the context *)
Definition offer (context : Context) : option LayoutCompile :=
  vds ← viewDependentState context;
  layout ← descriptorSetLayout vds;
  Some (layout, context).

End Layout.
End ViewDescriptorSetLayout.


(** * More concrete collaborators and states *)

Module Demo2.
Import RecordAndSubmitTask.

Definition VK_TIMEOUT : VkResult := 2.

(** As [Demo.ext], except that a wait on a fence reports [wait_status], a
    transfer reports [transfer_status] and produces a completion semaphore,
    and every command graph records one primary and one secondary command
    buffer. *)
Definition collaborators (wait_status transfer_status : VkResult)
    : @External Z unit unit unit (list Z) unit bool :=
  mkExternal
    (Fence_create (Demo.ext VK_SUCCESS))
    (Semaphore_create (Demo.ext VK_SUCCESS))
    (TransferTask_create (Demo.ext VK_SUCCESS))
    (TransferTask_advance (Demo.ext VK_SUCCESS))
    (fun x d =>
       (transfer_status,
        mkTransferTask (Some (mkSemaphore d 8)) (tt_waitSemaphores x) (tt_state x),
        d + 1))
    (hasDependencies (Demo.ext VK_SUCCESS))
    (fun _ _ d => (wait_status, d))
    (resetFenceAndDependencies (Demo.ext VK_SUCCESS))
    (fun cg recorded _ _ d =>
       (cg,
        recorded ++ [mkCommandBuffer d VK_COMMAND_BUFFER_LEVEL_PRIMARY;
                     mkCommandBuffer (d + 1) VK_COMMAND_BUFFER_LEVEL_SECONDARY],
        d + 2))
    (Queue_submit (Demo.ext VK_SUCCESS))
    (DynamicData_bool (Demo.ext VK_SUCCESS))
    (TransferTask_assign (Demo.ext VK_SUCCESS))
    (DatabasePager_create (Demo.ext VK_SUCCESS))
    (DatabasePager_start (Demo.ext VK_SUCCESS)).

Definition healthy := collaborators VK_SUCCESS VK_SUCCESS.

(** one frame in, with a queue, two command graphs, a window that holds
    image 0, a window that holds none, a wait and a signal semaphore *)
Definition ready : @Machine Z unit unit :=
  let t := task (Demo.advanced 1) in
  mkMachine
    (mkTask (_currentFrameIndex t) (_indices t) (_fences t)
       (earlyTransferTask t) (lateTransferTask t)
       (earlyTransferTaskConsumerCompletedSemaphore t)
       (lateTransferTaskConsumerCompletedSemaphore t)
       [mkCommandGraph 0 tt; mkCommandGraph 0 tt]
       [mkWindow 0 [mkFrame (mkSemaphore 50 1024)];
        mkWindow 1 [mkFrame (mkSemaphore 51 1024)]]
       [mkSemaphore 60 1] [mkSemaphore 70 0] None (Some 9))
    100 [].

(** the buffers one command graph records on [ready] *)
Definition two_buffers : list CommandBuffer :=
  [mkCommandBuffer 100 VK_COMMAND_BUFFER_LEVEL_PRIMARY;
   mkCommandBuffer 101 VK_COMMAND_BUFFER_LEVEL_SECONDARY].

(** [ready] with a command buffer of an earlier submission still attached
    to the current fence *)
Definition ready_busy : @Machine Z unit unit :=
  with_task
    (fun t =>
       set_fences
         (<[0%nat := mkFence 0 [mkCommandBuffer 7 VK_COMMAND_BUFFER_LEVEL_PRIMARY] []]>
            (_fences t)) t)
    ready.

Definition after (c : @M Z unit unit VkResult) (m : @Machine Z unit unit)
    : @Machine Z unit unit :=
  match c m with
  | inr (_, m') => m'
  | inl _ => m
  end.

(** a compile result with early data, paged content and five slots, that
    lists three bins for the view at address 1 *)
Definition paged : @CompileResult (list Z) :=
  mkCompileResult [11] [] 5 true [(1%nat, mkBinDetails [-1; 0; 2])].

(** [Demo.scene] with one database pager, not started *)
Definition paged_scene : @Scene unit bool :=
  mkScene (view_heap Demo.scene) [mkDatabasePager None false].

Import ViewDependentState.

(** twelve slots of light data and one light of each kind *)
Definition lights : @State Z Z unit nat :=
  mkState (replicate 12 (mkvec4 0 0 0 1)) false [mkvec4 0 0 0 1]
    [(0%nat, mkAmbientLight (mkvec3 1 0 0) 2)]
    [(tt, mkDirectionalLight (mkvec3 0 1 0) 3 (mkdvec3 0 0 1))]
    [(tt, mkPointLight (mkvec3 1 1 0) 5 (mkdvec3 4 5 6))]
    [(tt, mkSpotLight (mkvec3 0 0 1) 7 (mkdvec3 3 0 3) (mkdvec3 0 3 0) 40 50)].

(** Integers in the place of [float] and [double]; a transform is a uniform
    scaling, given by its factor; the inverse of the factor [k] is taken to
    be [-k], the cosine of [a] to be [a + 1], and [normalize] swaps the
    first two components. *)
Definition scaling : @Numerics Z Z Z Z :=
  mkNumerics (fun n => n) (fun v => v) 0 (mkvec4 0 0 0 1)
    (fun a => a + 1)
    (fun v => mkdvec3 (y v) (x v) (z v))
    (fun k => - k)
    (fun v k => mkdvec3 (x v * k) (y v * k) (z v * k))
    (fun k v => mkdvec3 (k * x v) (k * y v) (k * z v)).

(** twenty slots of light data; four ambient, two directional and three
    point lights and one spot light, each with a transform of its own *)
Definition many : @State Z Z Z nat :=
  mkState (replicate 20 (mkvec4 0 0 0 1)) false [mkvec4 0 0 0 1]
    [(0%nat, mkAmbientLight (mkvec3 1 0 0) 2);
     (1%nat, mkAmbientLight (mkvec3 0 1 0) 3);
     (2%nat, mkAmbientLight (mkvec3 0 0 1) 4);
     (3%nat, mkAmbientLight (mkvec3 1 1 1) 5)]
    [(2, mkDirectionalLight (mkvec3 0 1 0) 3 (mkdvec3 0 0 1));
     (5, mkDirectionalLight (mkvec3 1 1 0) 6 (mkdvec3 1 2 3))]
    [(2, mkPointLight (mkvec3 1 1 0) 5 (mkdvec3 4 5 6));
     (3, mkPointLight (mkvec3 0 1 1) 7 (mkdvec3 1 0 1));
     (4, mkPointLight (mkvec3 1 0 1) 8 (mkdvec3 0 2 0))]
    [(3, mkSpotLight (mkvec3 0 0 1) 7 (mkdvec3 3 0 3) (mkdvec3 0 3 0) 40 50)].

(** the same lights and transforms over an array of other contents and
    another length, marked dirty, with other viewport data *)
Definition many' : @State Z Z Z nat :=
  mkState (replicate 24 (mkvec4 9 9 9 9)) true []
    (ambientLights many) (directionalLights many) (pointLights many)
    (spotLights many).

End Demo2.

Module RecordAndSubmitTaskSpec.
Import RecordAndSubmitTask.

Section Ring.
Context {Device TransferState GraphState FrameStamp : Type}.
Context {DynamicData CompileManager PagerState : Type}.

#[local] Abbreviation Task := (@Task TransferState GraphState).
#[local] Abbreviation Machine := (@Machine Device TransferState GraphState).
#[local] Abbreviation CompileResult := (@CompileResult DynamicData).
#[local] Abbreviation Scene := (@Scene CompileManager PagerState).
#[local] Abbreviation External :=
  (@External Device TransferState GraphState FrameStamp DynamicData
     CompileManager PagerState).

Variable ext : External.

(** *** Running the monad *)

Lemma bind_run {A B} (c : M A) (k : A -> M B) (m m' : Machine) (a : A) :
  c m = inr (a, m') -> (c ≫= k) m = k a m'.
Proof. intros H. unfold mbind, M_bind. by rewrite H. Qed.

Lemma bind_fault {A B} (c : M A) (k : A -> M B) (m : Machine) (e : Fault) :
  c m = inl e -> (c ≫= k) m = inl e.
Proof. intros H. unfold mbind, M_bind. by rewrite H. Qed.

Lemma vec_read_lookup {A} (v : list A) (i : nat) (x : A) :
  v !! i = Some x -> vec_read v (Z.of_nat i) = inr x.
Proof.
  intros H. unfold vec_read, vsize.
  pose proof (lookup_lt_Some _ _ _ H).
  rewrite bool_decide_eq_true_2 by lia. by rewrite Nat2Z.id, H.
Qed.

Lemma vec_write_insert {A} (v : list A) (i : nat) (x : A) :
  (i < length v)%nat -> vec_write v (Z.of_nat i) x = inr (<[i := x]> v).
Proof.
  intros H. unfold vec_write, vsize.
  rewrite bool_decide_eq_true_2 by lia. by rewrite Nat2Z.id.
Qed.

(** *** The shift of the ring *)

Lemma shift_indices_run (i : nat) (m : Machine) :
  (i < length (_indices (task m)))%nat ->
  exists m',
    shift_indices i m = inr (tt, m')
    /\ task m'
       = set_indices (take 1 (_indices (task m)) ++ take i (_indices (task m))
                      ++ drop (S i) (_indices (task m))) (task m)
    /\ device m' = device m /\ trace m' = trace m.
Proof.
  revert m. induction i as [|j IH]; intros m Hlt.
  - exists m. split; [done|]. split; [|done].
    destruct m as [t d tr]; simpl in *. destruct t; simpl in *.
    unfold set_indices; simpl. f_equal.
    symmetry. apply (take_drop 1).
  - destruct (lookup_lt_is_Some_2 (_indices (task m)) j) as [x Hx]; [lia|].
    set (v1 := <[S j := x]> (_indices (task m))).
    destruct (IH (with_task (set_indices v1) m)) as (m' & Hrun & Ht & Hd & Htr).
    { simpl. subst v1. rewrite length_insert. lia. }
    exists m'. split; [|split; [|done]].
    + cbn [shift_indices]. unfold mbind, M_bind, this, lift; simpl.
      replace (Z.of_nat (S j) - 1) with (Z.of_nat j) by lia.
      rewrite (vec_read_lookup _ _ _ Hx).
      rewrite vec_write_insert by lia. exact Hrun.
    + rewrite Ht. simpl. unfold set_indices; simpl. f_equal. subst v1.
      destruct (lookup_lt_is_Some_2 (_indices (task m)) (S j)) as [y Hy]; [lia|].
      rewrite take_insert_ge by lia. rewrite take_insert_ge by lia.
      rewrite drop_insert_ge by lia. rewrite Nat.sub_diag.
      rewrite (drop_S _ y (S j) Hy). simpl.
      by rewrite (take_S_r _ _ x Hx), <- app_assoc.
Qed.

(** *** One call of advance *)

Lemma advance_transfer_run (early : bool) (x : option TransferTask)
    (set : option TransferTask -> Task -> Task) (m : Machine) :
  (forall y t, same_ring t (set y t)) ->
  exists m', advance_transfer ext early x set m = inr (tt, m')
             /\ same_ring (task m) (task m').
Proof.
  intros Hset. destruct x as [x|]; simpl.
  - unfold mbind, M_bind, call, update.
    destruct (TransferTask_advance ext x (device m)) as [x' d'].
    eexists. split; [done|]. apply Hset.
  - exists m. by split.
Qed.

Ltac run_transfer :=
  match goal with
  | |- context [advance_transfer _ ?b ?x ?set ?mm] =>
      let m' := fresh "m" in
      destruct (advance_transfer_run b x set mm) as (m' & -> & ? & ? & ?);
        [done|]
  end.

Lemma advance_run (m : Machine) :
  let t := task m in
  let size := vsize (_indices t) in
  let cur := _currentFrameIndex t in
  let cur' :=
    if bool_decide (size <= cur) then 0
    else if bool_decide (size - 1 < cur + 1) then 0 else cur + 1 in
  0 < size < 2 ^ 64 -> 0 <= cur ->
  exists m',
    advance ext m = inr (tt, m')
    /\ _currentFrameIndex (task m') = cur'
    /\ _indices (task m')
       = (if bool_decide (size <= cur) then <[0%nat := 0]> (_indices t)
          else cur' :: take (length (_indices t) - 1) (_indices t))
    /\ _fences (task m') = _fences t.
Proof.
  intros t0 size cur cur' Hsize Hcur. subst cur'.
  destruct m as [t d tr]. cbn [task] in *. subst t0.
  assert (Hlen : (0 < length (_indices t))%nat) by (unfold size, vsize in *; lia).
  unfold advance, mbind, M_bind, this, update, mret, M_ret, lift.
  cbn [task device trace]. fold size. fold cur.
  case_bool_decide as Hfirst.
  - cbn [task device trace set_currentFrameIndex _indices _currentFrameIndex].
    pose proof (vec_write_insert (_indices t) 0%nat 0 Hlen) as Hw.
    change (Z.of_nat 0) with 0 in Hw. rewrite Hw.
    run_transfer. run_transfer.
    eexists. split; [done|]. simpl in *.
    repeat split; congruence.
  - assert (Hw1 : wrap64 (cur + 1) = cur + 1)
      by (unfold wrap64; apply Z.mod_small; lia).
    assert (Hw2 : wrap64 (size - 1) = size - 1)
      by (unfold wrap64; apply Z.mod_small; lia).
    cbn [task device trace set_currentFrameIndex _indices _currentFrameIndex].
    fold size. fold cur. rewrite Hw1, Hw2.
    assert (Hshift : (Z.to_nat (size - 1) < length (_indices t))%nat)
      by (unfold size, vsize; lia).
    assert (Hpred : Z.to_nat (size - 1) = (length (_indices t) - 1)%nat)
      by (unfold size, vsize; lia).
    case_bool_decide as Hwrap.
    all: match goal with
         | |- context [shift_indices ?n ?mm] =>
             destruct (shift_indices_run n mm) as (m2 & -> & Ht2 & Hd2 & Htr2);
               [exact Hshift|]
         end.
    all: cbn [task set_currentFrameIndex _indices] in Ht2.
    all: rewrite Ht2.
    all: cbn [task set_indices set_currentFrameIndex _indices _currentFrameIndex].
    all: match goal with
         | |- context [vec_write ?v 0 ?c] =>
             let Hw := fresh "Hw" in
             assert (Hw : vec_write v 0 c = inr (<[0%nat := c]> v));
               [apply (vec_write_insert v 0%nat c);
                rewrite !length_app, length_take; lia|rewrite Hw]
         end.
    all: run_transfer; run_transfer.
    all: eexists; (split; [done|]).
    all: rewrite Ht2 in *; simpl in *; rewrite Hpred in *.
    all: destruct (_indices t) as [|a l] eqn:Hv; [simpl in Hlen; lia|].
    all: repeat split; try congruence.
    all: do 2 (etrans; [eassumption|]).
    all: simpl; rewrite drop_ge by (simpl; lia); by rewrite app_nil_r.
Qed.

(** *** The ring after [k] calls *)

Lemma length_ring_history (N : Z) (k : nat) :
  1 <= N -> length (ring_history N k) = Z.to_nat N.
Proof.
  intros HN. induction k as [|k IH]; simpl.
  - by rewrite length_replicate.
  - rewrite length_take, IH. lia.
Qed.

Lemma lookup_ring_history (N : Z) (k j : nat) :
  1 <= N -> (j < Z.to_nat N)%nat ->
  ring_history N k !! j
  = Some (if bool_decide (j < k)%nat then Z.of_nat (k - 1 - j) mod N else N).
Proof.
  intros HN. revert j. induction k as [|k IH]; intros j Hj.
  - rewrite bool_decide_eq_false_2 by lia.
    cbn [ring_history]. by rewrite lookup_replicate_2.
  - cbn [ring_history]. destruct j as [|j].
    + rewrite bool_decide_eq_true_2 by lia. simpl. do 3 f_equal. lia.
    + rewrite lookup_cons_ne_0 by done. simpl.
      rewrite lookup_take_lt by lia. rewrite IH by lia.
      repeat case_bool_decide; try lia; try done.
      all: do 3 f_equal; lia.
Qed.

Lemma length_create_fences (n : nat) (d : Device) :
  length (create_fences ext n d).1 = n.
Proof.
  revert d. induction n as [|n IH]; intros d; simpl; [done|].
  destruct (Fence_create ext d) as [f d1]. specialize (IH d1).
  destruct (create_fences ext n d1) as [fs d2]. simpl in *. by rewrite IH.
Qed.

Lemma constructor_ring_state (N : Z) (d : Device) :
  ring_state N 0 (task (initial ext N d)).
Proof.
  unfold initial, constructor. simpl.
  pose proof (length_create_fences (Z.to_nat N) d) as Hlen.
  destruct (create_fences ext (Z.to_nat N) d) as [fs d1].
  destruct (TransferTask_create ext N d1) as [early d2].
  destruct (Semaphore_create ext d2) as [es d3].
  destruct (TransferTask_create ext N d3) as [late d4].
  destruct (Semaphore_create ext d4) as [ls d5]. by repeat split.
Qed.

Lemma advance_ring_state (N : Z) (k : nat) (m : Machine) :
  1 <= N <= UINT32_MAX -> ring_state N k (task m) ->
  exists m', advance ext m = inr (tt, m') /\ ring_state N (S k) (task m').
Proof.
  intros HN (Hc & Hi & Hf). unfold UINT32_MAX in HN.
  assert (Hsize : vsize (_indices (task m)) = N)
    by (unfold vsize; rewrite Hi, length_ring_history; lia).
  destruct (advance_run m) as (m' & Hrun & Hc' & Hi' & Hf').
  { rewrite Hsize. lia. }
  { rewrite Hc. destruct k; [lia|]. apply Z.mod_pos_bound. lia. }
  exists m'. split; [done|]. rewrite Hsize, Hc in *.
  assert (Hcur : (if bool_decide
                       (N <= match k with O => N | S k' => Z.of_nat k' mod N end)
                  then 0
                  else if bool_decide
                            (N - 1 < match k with
                                     | O => N
                                     | S k' => Z.of_nat k' mod N
                                     end + 1)
                       then 0
                       else match k with O => N | S k' => Z.of_nat k' mod N end + 1)
                 = Z.of_nat k mod N).
  { destruct k as [|k].
    - rewrite bool_decide_eq_true_2 by lia. by rewrite Z.mod_0_l by lia.
    - pose proof (Z.mod_pos_bound (Z.of_nat k) N ltac:(lia)).
      replace (Z.of_nat (S k)) with (Z.of_nat k + 1) by lia.
      repeat case_bool_decide; try lia.
      + apply (Z.mod_unique_pos _ _ (Z.of_nat k / N + 1)); [lia|].
        pose proof (Z.div_mod (Z.of_nat k) N ltac:(lia)). lia.
      + apply (Z.mod_unique_pos _ _ (Z.of_nat k / N)); [lia|].
        pose proof (Z.div_mod (Z.of_nat k) N ltac:(lia)). lia. }
  rewrite Hcur in *. split; [done|]. split; [|congruence].
  rewrite Hi', Hi. destruct k as [|k].
  - rewrite bool_decide_eq_true_2 by lia. simpl.
    rewrite Z.mod_0_l by lia. rewrite take_replicate.
    destruct (Z.to_nat N) as [|n] eqn:E; [lia|]. simpl.
    do 2 f_equal. lia.
  - pose proof (Z.mod_pos_bound (Z.of_nat k) N ltac:(lia)).
    rewrite bool_decide_eq_false_2 by lia.
    rewrite length_ring_history by lia. done.
Qed.

Lemma advances_ring_state (N : Z) (k j : nat) (m : Machine) :
  1 <= N <= UINT32_MAX -> ring_state N j (task m) ->
  exists m', advances ext k m = inr (tt, m') /\ ring_state N (k + j) (task m').
Proof.
  intros HN. revert j m. induction k as [|k IH]; intros j m Hring.
  - by exists m.
  - destruct (advance_ring_state N j m HN Hring) as (m1 & Hrun1 & Hring1).
    destruct (IH (S j) m1 Hring1) as (m' & Hrun & Hring').
    exists m'. split.
    + cbn [advances]. by rewrite (bind_run _ _ _ _ _ Hrun1).
    + by replace (S k + j)%nat with (k + S j)%nat by lia.
Qed.

Lemma index_ring_state (N : Z) (k : nat) (t : Task) (j : Z) :
  1 <= N -> ring_state N k t -> 0 <= j ->
  index t j
  = if bool_decide (j < N /\ j < Z.of_nat k) then (Z.of_nat k - 1 - j) mod N
    else N.
Proof.
  intros HN (Hc & Hi & Hf) Hj. unfold index.
  assert (Hsize : vsize (_indices t) = N)
    by (unfold vsize; rewrite Hi, length_ring_history; lia).
  rewrite Hsize, Hi. case_bool_decide as Hlt.
  - rewrite lookup_ring_history by lia. simpl.
    repeat case_bool_decide; try lia. f_equal. lia.
  - by rewrite bool_decide_eq_false_2 by lia.
Qed.

(** *** start and finish, step by step *)

#[local] Arguments vec_read : simpl never.
#[local] Arguments vec_write : simpl never.
#[local] Arguments fence : simpl never.
#[local] Arguments UINT64_MAX : simpl never.

Lemma new_events_app (m m' : Machine) (l : list Event) :
  trace m' = trace m ++ l -> new_events m m' = l.
Proof. intros H. unfold new_events. by rewrite H, drop_app_length. Qed.

Lemma start_null (m : Machine) :
  fence (task m) 0 = None -> start ext m = inl NullDereference.
Proof.
  intros Hf. unfold start, mbind, M_bind, update, this. cbn [task].
  change (fence (set_lateTransferTask _ (set_earlyTransferTask _ (task m))) 0)
    with (fence (task m) 0).
  by rewrite Hf.
Qed.

Lemma start_spec (m : Machine) (i : Z) (f : Fence) :
  fence (task m) 0 = Some i ->
  vec_read (_fences (task m)) i = inr f ->
  start ext m
  = inr
      (if hasDependencies ext f (device m) then
         let '(r, d1) := Fence_wait ext f UINT64_MAX (device m) in
         if bool_decide (r ≠ VK_SUCCESS) then
           (r, mkMachine (cleared (task m)) d1
                 (trace m ++ [EvFenceHasDependencies i; EvFenceWait i UINT64_MAX]))
         else
           let '(f', d2) := resetFenceAndDependencies ext f d1 in
           (VK_SUCCESS,
            mkMachine
              (set_fences (<[Z.to_nat i := f']> (_fences (task m)))
                 (cleared (task m)))
              d2
              (trace m ++ [EvFenceHasDependencies i; EvFenceWait i UINT64_MAX;
                           EvFenceReset i]))
       else
         (VK_SUCCESS,
          mkMachine (cleared (task m)) (device m)
            (trace m ++ [EvFenceHasDependencies i]))).
Proof.
  destruct m as [t d tr]. cbn [task device trace]. intros Hf Hread.
  assert (Hwrite : forall f', vec_write (_fences t) i f'
                              = inr (<[Z.to_nat i := f']> (_fences t))).
  { intros f'. unfold vec_read in Hread. unfold vec_write.
    by case_bool_decide. }
  unfold start, deref_fence, store_fence, mbind, M_bind, update, this, call,
    lift, mret, M_ret.
  cbn. fold (cleared t).
  change (fence (cleared t) 0) with (fence t 0). rewrite Hf. cbn.
  change (_fences (cleared t)) with (_fences t). rewrite Hread. cbn.
  destruct (hasDependencies ext f d); cbn; [|done].
  destruct (Fence_wait ext f UINT64_MAX d) as [r d1].
  cbn. rewrite <- app_assoc.
  case_bool_decide; cbn; [done|].
  destruct (resetFenceAndDependencies ext f d1) as [f' d2].
  cbn. change (_fences (cleared t)) with (_fences t).
  rewrite Hwrite. cbn. rewrite <- app_assoc. done.
Qed.

Lemma start_read_fault (m : Machine) (i : Z) (e : Fault) :
  fence (task m) 0 = Some i ->
  vec_read (_fences (task m)) i = inl e ->
  start ext m = inl e.
Proof.
  destruct m as [t d tr]. cbn [task device trace]. intros Hf Hread.
  unfold start, deref_fence, mbind, M_bind, update, this, lift.
  cbn. fold (cleared t).
  change (fence (cleared t) 0) with (fence t 0). rewrite Hf. cbn.
  change (_fences (cleared t)) with (_fences t). by rewrite Hread.
Qed.

(** A run of [start] that returns has asked the current fence for its
    dependencies and then done one of three things. *)
Lemma start_trace_shape (m m' : Machine) (r : VkResult) :
  start ext m = inr (r, m') ->
  exists i,
    new_events m m' = [EvFenceHasDependencies i]
    \/ new_events m m' = [EvFenceHasDependencies i; EvFenceWait i UINT64_MAX]
    \/ new_events m m' = [EvFenceHasDependencies i; EvFenceWait i UINT64_MAX;
                          EvFenceReset i].
Proof.
  intros Hrun. destruct (fence (task m) 0) as [i|] eqn:Hf;
    [|by rewrite start_null in Hrun].
  destruct (vec_read (_fences (task m)) i) as [e|f] eqn:Hread.
  { by rewrite (start_read_fault m i e Hf Hread) in Hrun. }
  rewrite (start_spec m i f Hf Hread) in Hrun. exists i.
  destruct (hasDependencies ext f (device m)).
  - destruct (Fence_wait ext f UINT64_MAX (device m)) as [r1 d1].
    case_bool_decide.
    + injection Hrun as _ <-. right. left. by apply new_events_app.
    + destruct (resetFenceAndDependencies ext f d1) as [f' d2].
      injection Hrun as _ <-. right. right. by apply new_events_app.
  - injection Hrun as _ <-. left. by apply new_events_app.
Qed.

Lemma finish_empty (m : Machine) :
  finish ext [] m
  = inr
      match lateTransferTask (task m) with
      | Some x =>
          let '(r, x', d') := transferDynamicData ext x (device m) in
          if bool_decide (r ≠ VK_SUCCESS) then
            (r, mkMachine (set_lateTransferTask (Some x') (task m)) d'
                  (trace m ++ [EvTransferDynamicData false]))
          else
            (VK_SUCCESS,
             mkMachine (set_lateTransferTask (Some x') (task m)) d'
               (trace m ++ [EvTransferDynamicData false; EvSleep 16]))
      | None =>
          (VK_SUCCESS, mkMachine (task m) (device m) (trace m ++ [EvSleep 16]))
      end.
Proof.
  destruct m as [t d tr]. cbn [task device trace].
  unfold finish, mbind, M_bind, update, this, call, mret, M_ret. cbn.
  destruct (lateTransferTask t) as [x|]; cbn.
  - destruct (transferDynamicData ext x d) as [[r x'] d']. cbn.
    case_bool_decide; cbn; [done|]. by rewrite <- app_assoc.
  - by rewrite bool_decide_eq_false_2 by (intros H; by apply H).
Qed.

Lemma fence_ring_state (N : Z) (k : nat) (t : Task) :
  1 <= N -> ring_state N (S k) t ->
  fence t 0 = Some (Z.of_nat k mod N)
  /\ exists f, vec_read (_fences t) (Z.of_nat k mod N) = inr f.
Proof.
  intros HN Hring. pose proof Hring as (Hc & Hi & Hf).
  pose proof (Z.mod_pos_bound (Z.of_nat k) N ltac:(lia)) as Hmod.
  assert (Hindex : index t 0 = Z.of_nat k mod N).
  { rewrite (index_ring_state N (S k) t 0) by (done || lia).
    rewrite bool_decide_eq_true_2 by lia. f_equal. lia. }
  assert (Hsize : vsize (_fences t) = N) by (unfold vsize; lia).
  split.
  - unfold fence. rewrite Hindex, Hsize. by rewrite bool_decide_eq_true_2 by lia.
  - destruct (lookup_lt_is_Some_2 (_fences t) (Z.to_nat (Z.of_nat k mod N)))
      as [f Hlookup]; [lia|].
    exists f. unfold vec_read. rewrite Hsize, Hlookup.
    by rewrite bool_decide_eq_true_2 by lia.
Qed.

(** C1. On a ring of [N >= 1] slots, [k >= 1] calls of [advance] return, and
    after them [index(0)] is [(k - 1) mod N] and [index(j)] is the sentinel
    [N] for every [j >= N]; for [N = 3] and [k = 5] the ring reads
    [index(0) = 1], [index(1) = 0], [index(2) = 2]. *)
Theorem advance_index (N : Z) (k : nat) (d : Device) :
  1 <= N <= UINT32_MAX -> (1 <= k)%nat ->
  exists m',
    advances ext k (initial ext N d) = inr (tt, m')
    /\ index (task m') 0 = (Z.of_nat k - 1) mod N
    /\ (forall j, N <= j -> index (task m') j = N)
    /\ (N = 3 -> k = 5%nat ->
        index (task m') 0 = 1 /\ index (task m') 1 = 0 /\ index (task m') 2 = 2).
Proof.
  intros HN Hk.
  destruct (advances_ring_state N k 0 (initial ext N d) HN
              (constructor_ring_state N d)) as (m' & Hrun & Hring).
  rewrite Nat.add_0_r in Hring.
  exists m'. split; [done|].
  pose proof (fun j => index_ring_state N k (task m') j ltac:(lia) Hring) as Hidx.
  split; [|split].
  - rewrite Hidx by lia. rewrite bool_decide_eq_true_2 by lia. f_equal. lia.
  - intros j Hj. rewrite Hidx by lia. by rewrite bool_decide_eq_false_2 by lia.
  - intros -> ->. rewrite !Hidx by lia. done.
Qed.

(** C10. A task that has not been advanced holds the sentinel [N] in every
    slot of its ring, so [fence(j)] is null for every [j], and [start()] and
    [submit()] dereference a null pointer.  After one call of [advance()] or
    more (on a ring of at least one slot), [fence(0)] is a fence of the task
    and [start()] returns. *)
Theorem start_requires_advance (N : Z) (d : Device) (frameStamp : FrameStamp) :
  0 <= N <= UINT32_MAX ->
  let m0 := initial ext N d in
  (forall j, 0 <= j < N -> _indices (task m0) !! Z.to_nat j = Some N)
  /\ (forall j, 0 <= j -> index (task m0) j = N)
  /\ (forall j, 0 <= j -> fence (task m0) j = None)
  /\ start ext m0 = inl NullDereference
  /\ submit ext frameStamp m0 = inl NullDereference
  /\ (1 <= N -> forall k, (1 <= k)%nat ->
      exists m',
        advances ext k m0 = inr (tt, m')
        /\ (exists i, fence (task m') 0 = Some i)
        /\ exists r m'', start ext m' = inr (r, m'')).
Proof.
  intros HN m0.
  pose proof (constructor_ring_state N d) as (Hc & Hi & Hf). fold m0 in Hc, Hi, Hf.
  cbn [ring_history] in Hi.
  assert (Hslot : forall j, 0 <= j < N ->
                            _indices (task m0) !! Z.to_nat j = Some N)
    by (intros j Hj; rewrite Hi; apply lookup_replicate_2; lia).
  assert (Hsize : vsize (_indices (task m0)) = N)
    by (unfold vsize; rewrite Hi, length_replicate; lia).
  assert (Hindex : forall j, 0 <= j -> index (task m0) j = N).
  { intros j Hj. unfold index. rewrite Hsize. case_bool_decide; [|done].
    by rewrite Hslot by lia. }
  assert (Hfence : forall j, 0 <= j -> fence (task m0) j = None).
  { intros j Hj. unfold fence. rewrite Hindex by done.
    rewrite bool_decide_eq_false_2; [done|]. unfold vsize. lia. }
  assert (Hstart : start ext m0 = inl NullDereference)
    by (apply start_null, Hfence; lia).
  split; [done|]. split; [done|]. split; [done|]. split; [done|].
  split; [unfold submit; by rewrite (bind_fault _ _ _ _ Hstart)|].
  intros HN1 k Hk. destruct k as [|k]; [lia|].
  destruct (advances_ring_state N (S k) 0 m0 ltac:(lia)
              (constructor_ring_state N d)) as (m' & Hrun & Hring).
  rewrite Nat.add_0_r in Hring.
  destruct (fence_ring_state N k (task m') HN1 Hring) as (Hf' & f & Hread).
  exists m'. split; [done|]. split; [by eexists|].
  rewrite (start_spec m' _ f Hf' Hread).
  match goal with |- context [inr ?p] => destruct p as [r m''] end.
  by exists r, m''.
Qed.

(** C4. When the current fence reports no dependencies, [start()] returns
    [VK_SUCCESS] having asked the fence nothing else: it makes no call of
    [wait] and none of [resetFenceAndDependencies], and leaves the fences and
    the device as they were. *)
Theorem start_without_dependencies (m : Machine) (i : Z) (f : Fence) :
  fence (task m) 0 = Some i ->
  vec_read (_fences (task m)) i = inr f ->
  hasDependencies ext f (device m) = false ->
  exists m',
    start ext m = inr (VK_SUCCESS, m')
    /\ new_events m m' = [EvFenceHasDependencies i]
    /\ filter is_wait_or_reset (new_events m m') = []
    /\ _fences (task m') = _fences (task m)
    /\ device m' = device m.
Proof.
  intros Hf Hread Hdeps. rewrite (start_spec m i f Hf Hread), Hdeps.
  eexists. split; [done|].
  rewrite (new_events_app m _ [EvFenceHasDependencies i]) by done.
  by repeat split.
Qed.

(** C6 (as the code has it). [start()] takes no timeout: every wait on a
    fence it makes is made with the largest value of [uint64_t],
    18446744073709551615. *)
Theorem start_wait_unbounded (m m' : Machine) (r : VkResult) (i timeout : Z) :
  start ext m = inr (r, m') ->
  EvFenceWait i timeout ∈ new_events m m' ->
  timeout = UINT64_MAX /\ timeout = 18446744073709551615.
Proof.
  intros Hrun Hin.
  destruct (start_trace_shape m m' r Hrun) as (i' & [H|[H|H]]);
    rewrite H in Hin;
    repeat (apply elem_of_cons in Hin as [Hin|Hin]; [try discriminate Hin|]);
    try (by apply elem_of_nil in Hin).
  all: by injection Hin as _ ->.
Qed.

(** C3 (as the code has it). With no recorded command buffer, [finish]
    returns the status of the late transfer ([VK_SUCCESS] when there is no
    late transfer task) and never submits to the queue; it sleeps for 16
    milliseconds when that status is [VK_SUCCESS], and not at all when it is
    a failure, which it returns. *)
Theorem finish_empty_idle (m : Machine) :
  exists m',
    finish ext [] m = inr (late_transfer_result ext m, m')
    /\ filter is_submit (new_events m m') = []
    /\ filter is_sleep (new_events m m')
       = (if bool_decide (late_transfer_result ext m = VK_SUCCESS)
          then [EvSleep 16] else []).
Proof.
  rewrite finish_empty. unfold late_transfer_result.
  destruct (lateTransferTask (task m)) as [x|].
  - destruct (transferDynamicData ext x (device m)) as [[r x'] d']. cbn.
    case_bool_decide as Hr.
    + eexists. split; [done|].
      rewrite (new_events_app m _ [EvTransferDynamicData false]) by done.
      by rewrite bool_decide_eq_false_2.
    + subst r. eexists. split; [done|].
      by rewrite (new_events_app m _ [EvTransferDynamicData false; EvSleep 16]).
  - eexists. split; [done|].
    by rewrite (new_events_app m _ [EvSleep 16]).
Qed.

(** *** The bins of updateTasks *)

Lemma binNumberMatched_true (bs : list Bin) (n : Z) :
  binNumberMatched bs n = true <-> n ∈ binNumber <$> bs.
Proof.
  unfold binNumberMatched.
  assert (H : forall acc,
    foldl (fun matched b => if bool_decide (binNumber b = n) then true else matched)
      acc bs = true <-> acc = true \/ n ∈ binNumber <$> bs).
  { induction bs as [|b bs IH]; intros acc; simpl.
    - rewrite elem_of_nil. tauto.
    - rewrite IH, elem_of_cons. case_bool_decide; intuition congruence. }
  rewrite H. split; [intros [?|?]; [done|auto]|auto].
Qed.

Lemma extends_refl (P : Z -> Prop) (bs : list Bin) : extends P bs bs.
Proof.
  exists []. rewrite app_nil_r. split; [done|]. split; [constructor|].
  simpl. constructor.
Qed.

Lemma extends_numbers (P : Z -> Prop) (bs bs' : list Bin) (n : Z) :
  extends P bs bs' -> n ∈ binNumber <$> bs -> n ∈ binNumber <$> bs'.
Proof.
  intros (added & -> & _) Hn. rewrite fmap_app, elem_of_app. by left.
Qed.

Lemma extends_trans (P Q R : Z -> Prop) (bs bs1 bs2 : list Bin) :
  (forall n, P n -> R n) -> (forall n, Q n -> R n) ->
  extends P bs bs1 -> extends Q bs1 bs2 -> extends R bs bs2.
Proof.
  intros HP HQ (a1 & -> & Hall1 & Hnd1) (a2 & -> & Hall2 & Hnd2).
  exists (a1 ++ a2). split; [by rewrite app_assoc|]. split.
  - apply Forall_app. split.
    + eapply Forall_impl; [exact Hall1|]. intros b (? & ? & ?). auto.
    + eapply Forall_impl; [exact Hall2|]. intros b (? & ? & Hnot).
      split; [done|]. split; [auto|].
      intros Hin. apply Hnot. rewrite fmap_app, elem_of_app. by left.
  - rewrite fmap_app. apply NoDup_app. split; [done|]. split; [|done].
    intros n Hn1 Hn2. apply list_elem_of_fmap in Hn2 as (b & -> & Hb).
    rewrite Forall_forall in Hall2. destruct (Hall2 b Hb) as (_ & _ & Hnot).
    apply Hnot. rewrite fmap_app, elem_of_app. by right.
Qed.

Lemma ensure_bin_extends (bs : list Bin) (n : Z) :
  extends (fun n' => n' = n) bs (ensure_bin bs n)
  /\ n ∈ binNumber <$> ensure_bin bs n.
Proof.
  unfold ensure_bin. destruct (binNumberMatched bs n) eqn:Hm.
  - split; [apply extends_refl|by apply binNumberMatched_true].
  - split.
    + exists [Bin_create n (sortOrder_of n)]. split; [done|]. split.
      * constructor; [|constructor]. simpl. split; [done|]. split; [done|].
        intros Hin. apply binNumberMatched_true in Hin. congruence.
      * simpl. apply NoDup_singleton.
    + rewrite fmap_app, elem_of_app. right. simpl. apply list_elem_of_singleton.
      done.
Qed.

Lemma foldl_ensure_bin (ns : list Z) (bs : list Bin) :
  extends (fun n => n ∈ ns) bs (foldl ensure_bin bs ns)
  /\ forall n, n ∈ ns -> n ∈ binNumber <$> foldl ensure_bin bs ns.
Proof.
  revert bs. induction ns as [|n ns IH]; intros bs; simpl.
  - split; [apply extends_refl|]. intros n Hn. by apply elem_of_nil in Hn.
  - destruct (ensure_bin_extends bs n) as [Hext1 Hin1].
    destruct (IH (ensure_bin bs n)) as [Hext2 Hin2].
    split.
    + eapply extends_trans; [| |exact Hext1|exact Hext2].
      * intros n' ->. apply elem_of_cons. by left.
      * intros n' Hn'. apply elem_of_cons. by right.
    + intros n' Hn'. apply elem_of_cons in Hn' as [->|Hn']; [|by apply Hin2].
      eapply extends_numbers; eauto.
Qed.

Lemma foldl_update_view (vs : list (nat * BinDetails)) (h : gmap nat View) :
  (forall e, e ∈ vs -> is_Some (h !! e.1)) ->
  exists h',
    foldl update_view (inr h) vs = inr h'
    /\ forall v,
         match h !! v with
         | Some view =>
             exists view',
               h' !! v = Some view'
               /\ extends (listed vs v) (bins view) (bins view')
               /\ forall n, listed vs v n -> n ∈ binNumber <$> bins view'
         | None => h' !! v = None
         end.
Proof.
  revert h. induction vs as [|e vs IH]; intros h Hvalid.
  - exists h. split; [done|]. intros v. destruct (h !! v) as [view|]; [|done].
    exists view. split; [done|]. split; [apply extends_refl|].
    intros n (details & Hin & _). by apply elem_of_nil in Hin.
  - destruct (Hvalid e) as [view0 Hview0]; [apply elem_of_cons; by left|].
    set (view1 := mkView (foldl ensure_bin (bins view0) (indices e.2))).
    destruct (IH (<[e.1 := view1]> h)) as (h' & Hrun & Hh').
    { intros e' He'. destruct (decide (e.1 = e'.1)) as [Heq|Hne].
      - rewrite Heq, lookup_insert_eq. by eexists.
      - rewrite lookup_insert_ne by done. apply Hvalid, elem_of_cons. by right. }
    exists h'. split; [simpl; by rewrite Hview0|].
    intros v. specialize (Hh' v).
    destruct (foldl_ensure_bin (indices e.2) (bins view0)) as [Hext1 Hin1].
    destruct (decide (e.1 = v)) as [<-|Hne].
    + rewrite lookup_insert_eq in Hh'. rewrite Hview0.
      destruct Hh' as (view' & Hlook & Hext & Hcover).
      exists view'. split; [done|]. split.
      * eapply extends_trans; [| |exact Hext1|exact Hext].
        -- intros n Hn. exists e.2. split; [|done].
           apply elem_of_cons. left. by destruct e.
        -- intros n (details & Hin & Hn). exists details. split; [|done].
           apply elem_of_cons. by right.
      * intros n (details & Hin & Hn).
        apply elem_of_cons in Hin as [Heq|Hin].
        -- eapply extends_numbers; [exact Hext|]. apply Hin1.
           destruct e; simpl in *. by injection Heq as ->.
        -- apply Hcover. by exists details.
    + rewrite lookup_insert_ne in Hh' by done.
      destruct (h !! v) as [view|]; [|done].
      destruct Hh' as (view' & Hlook & Hext & Hcover).
      exists view'. split; [done|]. split.
      * eapply extends_trans; [| |apply extends_refl|exact Hext].
        -- intros n Hn. exact Hn.
        -- intros n (details & Hin & Hn). exists details. split; [|done].
           apply elem_of_cons. by right.
      * intros n (details & Hin & Hn).
        apply elem_of_cons in Hin as [Heq|Hin].
        -- destruct e; simpl in *. injection Heq as -> _. done.
        -- apply Hcover. by exists details.
Qed.

Lemma sortOrder_of_sign (n : Z) :
  (n < 0 -> sortOrder_of n = ASCENDING)
  /\ (n = 0 -> sortOrder_of n = NO_SORT)
  /\ (0 < n -> sortOrder_of n = DESCENDING).
Proof. unfold sortOrder_of. repeat case_bool_decide; repeat split; lia || done. Qed.

(** C7. When every view a compile result names is alive, [updateTasks]
    returns, and each view keeps the bins it had, in front, followed by the
    bins made for it.  Every bin number the compile result lists for the view
    is then the number of one of its bins.  A bin is made only for a listed
    number that no bin of the view had, and no two bins are made for one
    number; it is ASCENDING for a negative number, NO_SORT for zero and
    DESCENDING for a positive one. *)
Theorem updateTasks_bins (tasks : list Task) (cm : CompileManager)
    (cr : CompileResult) (sc : Scene) :
  (forall e, e ∈ views cr -> is_Some (view_heap sc !! e.1)) ->
  exists tasks' sc',
    updateTasks ext tasks cm cr sc = inr (tasks', sc')
    /\ forall v view,
         view_heap sc !! v = Some view ->
         exists added,
           view_heap sc' !! v = Some (mkView (bins view ++ added))
           /\ (forall details n,
                 (v, details) ∈ views cr -> n ∈ indices details ->
                 exists b, b ∈ bins view ++ added /\ binNumber b = n)
           /\ (forall b, b ∈ added ->
                 (binNumber b ∉ (binNumber <$> bins view))
                 /\ (exists details,
                       (v, details) ∈ views cr /\ binNumber b ∈ indices details)
                 /\ (binNumber b < 0 -> sortOrder b = ASCENDING)
                 /\ (binNumber b = 0 -> sortOrder b = NO_SORT)
                 /\ (0 < binNumber b -> sortOrder b = DESCENDING))
           /\ NoDup (binNumber <$> added).
Proof.
  intros Hvalid.
  destruct (foldl_update_view (views cr) (view_heap sc) Hvalid) as (h' & Hrun & Hh').
  unfold updateTasks. rewrite Hrun.
  match goal with
  | |- context [let '(_, _) := ?p in _] => destruct p as [tasks3 pagers3]
  end.
  eexists _, _. split; [done|]. cbn [view_heap].
  intros v view Hview. specialize (Hh' v). rewrite Hview in Hh'.
  destruct Hh' as ([bs'] & Hlook & (added & Hbs & Hall & Hnd) & Hcover).
  simpl in *. subst bs'. exists added. split; [done|]. split; [|split; [|done]].
  - intros details n Hin Hn.
    destruct (proj1 (list_elem_of_fmap _ _ _) (Hcover n (ex_intro _ details (conj Hin Hn))))
      as (b & -> & Hb).
    by exists b.
  - intros b Hb. rewrite Forall_forall in Hall.
    destruct (Hall b Hb) as (Hsort & Hlisted & Hnew).
    split; [done|]. split; [done|]. rewrite Hsort. apply sortOrder_of_sign.
Qed.

End Ring.

(** *** The properties at concrete tasks *)

Lemma advance_index_witness :
  1 <= 3 <= UINT32_MAX /\ (1 <= 5)%nat
  /\ exists m',
       advances (Demo.ext VK_SUCCESS) 5 Demo.fresh = inr (tt, m')
       /\ index (task m') 0 = 1 /\ index (task m') 1 = 0
       /\ index (task m') 2 = 2.
Proof.
  assert (H1 : 1 <= 3 <= UINT32_MAX) by (unfold UINT32_MAX; lia).
  assert (H2 : (1 <= 5)%nat) by lia.
  split; [exact H1|]. split; [exact H2|].
  destruct (advance_index (Demo.ext VK_SUCCESS) 3 5 0 H1 H2)
    as (m' & Hrun & _ & _ & Hring).
  exists m'. split; [exact Hrun|]. by apply Hring.
Defined.

Lemma start_requires_advance_witness :
  0 <= 3 <= UINT32_MAX
  /\ start (Demo.ext VK_SUCCESS) Demo.fresh = inl NullDereference
  /\ submit (Demo.ext VK_SUCCESS) tt Demo.fresh = inl NullDereference.
Proof.
  assert (H1 : 0 <= 3 <= UINT32_MAX) by (unfold UINT32_MAX; lia).
  split; [exact H1|].
  destruct (start_requires_advance (Demo.ext VK_SUCCESS) 3 0 tt H1)
    as (_ & _ & _ & Hstart & Hsubmit & _).
  by split.
Defined.

Lemma start_without_dependencies_witness :
  fence (task (Demo.advanced 1)) 0 = Some 0
  /\ vec_read (_fences (task (Demo.advanced 1))) 0 = inr (mkFence 0 [] [])
  /\ hasDependencies (Demo.ext VK_SUCCESS) (mkFence 0 [] [])
       (device (Demo.advanced 1)) = false
  /\ exists m',
       start (Demo.ext VK_SUCCESS) (Demo.advanced 1) = inr (VK_SUCCESS, m')
       /\ filter is_wait_or_reset (new_events (Demo.advanced 1) m') = [].
Proof.
  assert (H1 : fence (task (Demo.advanced 1)) 0 = Some 0)
    by (vm_compute; reflexivity).
  assert (H2 : vec_read (_fences (task (Demo.advanced 1))) 0
               = inr (mkFence 0 [] [])) by (vm_compute; reflexivity).
  assert (H3 : hasDependencies (Demo.ext VK_SUCCESS) (mkFence 0 [] [])
                 (device (Demo.advanced 1)) = false) by reflexivity.
  split; [exact H1|]. split; [exact H2|]. split; [exact H3|].
  destruct (start_without_dependencies (Demo.ext VK_SUCCESS) (Demo.advanced 1)
              0 (mkFence 0 [] []) H1 H2 H3) as (m' & Hrun & _ & Hnone & _).
  by exists m'.
Defined.

Lemma start_wait_unbounded_witness :
  start (Demo.ext VK_SUCCESS) Demo.busy = inr (VK_SUCCESS, Demo.busy_started)
  /\ EvFenceWait 0 UINT64_MAX ∈ new_events Demo.busy Demo.busy_started
  /\ UINT64_MAX = 18446744073709551615.
Proof.
  assert (H1 : start (Demo.ext VK_SUCCESS) Demo.busy
               = inr (VK_SUCCESS, Demo.busy_started))
    by (vm_compute; reflexivity).
  assert (H2 : EvFenceWait 0 UINT64_MAX
               ∈ new_events Demo.busy Demo.busy_started).
  { assert (Hev : new_events Demo.busy Demo.busy_started
                  = [EvFenceHasDependencies 0; EvFenceWait 0 UINT64_MAX;
                     EvFenceReset 0]) by (vm_compute; reflexivity).
    rewrite Hev. apply list_elem_of_further, list_elem_of_here. }
  split; [exact H1|]. split; [exact H2|].
  destruct (start_wait_unbounded (Demo.ext VK_SUCCESS) Demo.busy
              Demo.busy_started VK_SUCCESS 0 UINT64_MAX H1 H2) as [_ Hmax].
  exact Hmax.
Defined.

(** C6, as the specification words it, fails: [start] has no argument a
    caller could pass a timeout in, and where it waits, here on a fence with
    a command buffer attached, it waits with the largest [uint64_t]; no wait
    with a smaller timeout is made. *)
Lemma start_timeout_not_chosen :
  start (Demo.ext VK_SUCCESS) Demo.busy = inr (VK_SUCCESS, Demo.busy_started)
  /\ new_events Demo.busy Demo.busy_started
     = [EvFenceHasDependencies 0; EvFenceWait 0 18446744073709551615;
        EvFenceReset 0]
  /\ ~ (exists i timeout,
          timeout < UINT64_MAX
          /\ EvFenceWait i timeout ∈ new_events Demo.busy Demo.busy_started).
Proof.
  assert (Hev : new_events Demo.busy Demo.busy_started
                = [EvFenceHasDependencies 0; EvFenceWait 0 UINT64_MAX;
                   EvFenceReset 0]) by (vm_compute; reflexivity).
  split; [vm_compute; reflexivity|]. split; [vm_compute; reflexivity|].
  intros (i & timeout & Hlt & Hin). rewrite Hev in Hin.
  repeat (apply elem_of_cons in Hin as [Hin|Hin]; [try discriminate Hin|]).
  - injection Hin as _ ->. lia.
  - by apply elem_of_nil in Hin.
Qed.

(** C3, as the specification words it, fails: with no recorded command
    buffer but a late transfer that reports a lost device, [finish] returns
    that failure, and it does not sleep. *)
Lemma finish_empty_propagates_failure :
  exists m',
    finish (Demo.ext Demo.VK_ERROR_DEVICE_LOST) [] Demo.failing
    = inr (Demo.VK_ERROR_DEVICE_LOST, m')
    /\ Demo.VK_ERROR_DEVICE_LOST <> VK_SUCCESS
    /\ filter is_sleep (new_events Demo.failing m') = []
    /\ filter is_submit (new_events Demo.failing m') = [].
Proof.
  eexists. split; [vm_compute; reflexivity|].
  split; [discriminate|]. split; vm_compute; reflexivity.
Qed.

Lemma updateTasks_bins_witness :
  (forall e, e ∈ views Demo.compiled
             -> is_Some (view_heap Demo.scene !! e.1))
  /\ exists tasks' sc',
       updateTasks (Demo.ext VK_SUCCESS) [] tt Demo.compiled Demo.scene
       = inr (tasks', sc')
       /\ view_heap sc' !! 1%nat
          = Some (mkView [Bin_create 0 NO_SORT; Bin_create (-1) ASCENDING;
                          Bin_create 2 DESCENDING]).
Proof.
  assert (H1 : forall e, e ∈ views Demo.compiled
                         -> is_Some (view_heap Demo.scene !! e.1)).
  { intros e He. apply list_elem_of_singleton in He. subst e. by eexists. }
  split; [exact H1|].
  destruct (updateTasks_bins (Demo.ext VK_SUCCESS) [] tt Demo.compiled
              Demo.scene H1) as (tasks' & sc' & Hrun & _).
  exists tasks', sc'. split; [exact Hrun|].
  assert (Hsc : updateTasks (Demo.ext VK_SUCCESS) [] tt Demo.compiled Demo.scene
                = inr ([], mkScene
                             {[ 1%nat := mkView [Bin_create 0 NO_SORT;
                                                  Bin_create (-1) ASCENDING;
                                                  Bin_create 2 DESCENDING] ]} []))
    by (vm_compute; reflexivity).
  rewrite Hsc in Hrun. injection Hrun as _ <-. reflexivity.
Defined.

End RecordAndSubmitTaskSpec.

Module ViewDependentStateSpec.
Import ViewDependentState.

Section Pack.
Context {float double dmat4 dmat3 LightKey : Type}.
Variable num : @Numerics float double dmat4 dmat3.

#[local] Abbreviation State := (@State float double dmat4 LightKey).
#[local] Abbreviation Cursor := (@Cursor float).
#[local] Abbreviation vec4 := (@vec4 float).

#[local] Open Scope nat_scope.

Lemma store_light_itr (c : Cursor) v : light_itr (store c v) = S (light_itr c).
Proof. reflexivity. Qed.

Lemma foldl_store_light_itr (rs : list vec4) (c : Cursor) :
  light_itr (foldl store c rs) = light_itr c + length rs.
Proof.
  revert c. induction rs as [|v rs IH]; intros c; simpl; [lia|].
  rewrite IH. simpl. lia.
Qed.

Lemma foldl_store_length (rs : list vec4) (c : Cursor) :
  length (array (foldl store c rs)) = length (array c).
Proof.
  revert c. induction rs as [|v rs IH]; intros c; simpl; [done|].
  rewrite IH. simpl. by rewrite length_insert.
Qed.

Lemma foldl_store_written (rs : list vec4) (c : Cursor) :
  written (foldl store c rs)
  = written c ++ zip (seq (light_itr c) (length rs)) rs.
Proof.
  revert c. induction rs as [|v rs IH]; intros c; simpl.
  - by rewrite app_nil_r.
  - rewrite IH. simpl. by rewrite <- app_assoc.
Qed.

Lemma foldl_store_overrun (rs : list vec4) (c : Cursor) :
  overrun (foldl store c rs) = false
  <-> overrun c = false /\ (rs = [] \/ light_itr c + length rs <= length (array c)).
Proof.
  revert c. induction rs as [|v rs IH]; intros c; simpl.
  - split; [intros ->; auto|by intros [-> _]].
  - rewrite IH. simpl. rewrite length_insert, orb_false_iff, bool_decide_eq_false.
    split.
    + intros [[Ho Hlt] [->|Hle]]; (split; [done|right]); simpl in *; lia.
    + intros [Ho [?|Hle]]; [done|]. split; [split; [done|lia]|].
      right. lia.
Qed.

Lemma foldl_store_array (rs : list vec4) (c : Cursor) :
  light_itr c + length rs <= length (array c) ->
  array (foldl store c rs)
  = take (light_itr c) (array c) ++ rs ++ drop (light_itr c + length rs) (array c).
Proof.
  revert c. induction rs as [|v rs IH]; intros c Hle; simpl in *.
  - by rewrite Nat.add_0_r, take_drop.
  - rewrite IH; simpl; [|rewrite length_insert; lia].
    rewrite drop_insert_lt by lia.
    assert (Hx : <[light_itr c:=v]> (array c) !! light_itr c = Some v).
    { apply list_lookup_insert_eq. lia. }
    rewrite (take_S_r _ _ v Hx). rewrite take_insert_ge by lia.
    replace (light_itr c + S (length rs)) with (S (light_itr c + length rs)) by lia.
    by rewrite <- app_assoc.
Qed.

Lemma foldl_store_bind {E} (f : E -> list vec4) (step : Cursor -> E -> Cursor)
    (l : list E) (c : Cursor) :
  (forall c e, step c e = foldl store c (f e)) ->
  foldl step c l = foldl store c (l ≫= f).
Proof.
  intros Hstep. revert c. induction l as [|e l IH]; intros c; simpl; [done|].
  by rewrite foldl_app, <- Hstep, IH.
Qed.

Lemma length_bind_const {E} (f : E -> list vec4) (k : nat) (l : list E) :
  (forall e, length (f e) = k) -> length (l ≫= f) = k * length l.
Proof.
  intros Hk. induction l as [|e l IH]; [simpl; lia|].
  rewrite bind_cons, length_app, Hk, IH. simpl. lia.
Qed.

Lemma pack_cursor_records (s : State) :
  pack_cursor num s = foldl store (begin (lightData s)) (pack_records num s).
Proof.
  unfold pack_cursor, pack_records. simpl. rewrite !foldl_app.
  rewrite <- (foldl_store_bind (spot_records num) (pack_spot num))
    by (by intros c [mv light]).
  rewrite <- (foldl_store_bind (point_records num) (pack_point num))
    by (by intros c [mv light]).
  rewrite <- (foldl_store_bind (directional_records num) (pack_directional num))
    by (by intros c [mv light]).
  rewrite <- (foldl_store_bind ambient_records pack_ambient)
    by (by intros c [k light]).
  done.
Qed.

Lemma length_pack_records (s : State) :
  length (pack_records num s) = record_count s.
Proof.
  unfold pack_records, record_count. simpl. rewrite !length_app.
  rewrite (length_bind_const ambient_records 1) by done.
  rewrite (length_bind_const (directional_records num) 2) by done.
  rewrite (length_bind_const (point_records num) 2) by done.
  rewrite (length_bind_const (spot_records num) 3) by done.
  lia.
Qed.

Lemma written_pack_cursor (s : State) :
  written (pack_cursor num s) = zip (seq 0 (record_count s)) (pack_records num s).
Proof.
  by rewrite pack_cursor_records, foldl_store_written, length_pack_records.
Qed.

Lemma overrun_pack_cursor (s : State) :
  overrun (pack_cursor num s) = false <-> record_count s <= length (lightData s).
Proof.
  rewrite pack_cursor_records, foldl_store_overrun, length_pack_records.
  unfold pack_records. simpl.
  split; [by intros [_ [?|?]]|by intros ?; split; [|right]].
Qed.

Lemma array_pack_cursor (s : State) :
  record_count s <= length (lightData s) ->
  array (pack_cursor num s)
  = pack_records num s ++ drop (record_count s) (lightData s).
Proof.
  intros Hle.
  rewrite pack_cursor_records, foldl_store_array; rewrite length_pack_records;
    [done|simpl; lia].
Qed.

Lemma pack_in_bounds (s : State) :
  record_count s <= length (lightData s) ->
  pack num s
  = inr (mkState (pack_records num s ++ drop (record_count s) (lightData s)) true
           (viewportData s) (ambientLights s) (directionalLights s)
           (pointLights s) (spotLights s)).
Proof.
  intros Hle. unfold pack.
  rewrite (proj2 (overrun_pack_cursor s) Hle). by rewrite array_pack_cursor.
Qed.

Lemma pack_overrun (s : State) :
  length (lightData s) < record_count s -> pack num s = inl OutOfRange.
Proof.
  intros Hlt. unfold pack.
  destruct (overrun (pack_cursor num s)) eqn:Ho; [done|].
  apply overrun_pack_cursor in Ho. lia.
Qed.

(** C2. For [a] ambient, [d] directional, [p] point and [sp] spot lights,
    [pack] makes exactly [1 + a + 2d + 2p + 3sp] stores through the iterator,
    into the slots [0, 1, 2, ...] of the light data array in this order, and
    the first of them puts the four category counts into slot 0: the record
    whose components are [a], [d], [p] and [sp], in this order, each cast to
    [float].  When the array has that many slots, [pack] returns with these
    records at the front of the array, the counts in slot 0, and the slots
    behind them as they were. *)
Theorem pack_record_count (s : State) :
  let a := length (ambientLights s) in
  let d := length (directionalLights s) in
  let p := length (pointLights s) in
  let sp := length (spotLights s) in
  let total := 1 + a + 2 * d + 2 * p + 3 * sp in
  let counts :=
    mkvec4 (float_of_size num (Z.of_nat a)) (float_of_size num (Z.of_nat d))
      (float_of_size num (Z.of_nat p)) (float_of_size num (Z.of_nat sp)) in
  let c := pack_cursor num s in
  length (written c) = total
  /\ (written c).*1 = seq 0 total
  /\ written c !! 0 = Some (0, counts)
  /\ (total <= length (lightData s) ->
      exists s', pack num s = inr s'
        /\ length (lightData s') = length (lightData s)
        /\ take total (lightData s') = (written c).*2
        /\ drop total (lightData s') = drop total (lightData s)
        /\ lightData s' !! 0 = Some counts).
Proof.
  intros a d p sp total counts c.
  assert (Htotal : record_count s = total) by reflexivity.
  assert (Hlen : length (pack_records num s) = total)
    by (by rewrite length_pack_records).
  assert (Hhead : pack_records num s !! 0 = Some counts) by reflexivity.
  subst c. rewrite written_pack_cursor, Htotal.
  split; [by rewrite length_zip, length_seq, Hlen, Nat.min_id|].
  split; [apply fst_zip; rewrite length_seq; lia|].
  split; [reflexivity|].
  intros Hfit. eexists. split; [apply pack_in_bounds; lia|].
  cbn [lightData]. rewrite Htotal.
  rewrite snd_zip by (rewrite length_seq; lia).
  split; [rewrite length_app, length_drop; lia|].
  split; [by rewrite take_app_length'|].
  split; [by rewrite drop_app_length'|].
  rewrite lookup_app_l by lia. exact Hhead.
Qed.

(** C5. After [clear()], [pack()] makes one store only: the all-zero counts
    record, into slot 0.  The array it leaves is the one it found with slot 0
    replaced, every other slot being unchanged; when the array has a slot 0
    at all, [pack] returns with that array. *)
Theorem clear_pack_single_record (s : State) :
  let zero := counts_record num 0 0 0 0 in
  let c := pack_cursor num (clear s) in
  written c = [(0, zero)]
  /\ array c = <[0 := zero]> (lightData s)
  /\ (forall i, i <> 0 -> array c !! i = lightData s !! i)
  /\ (0 < length (lightData s) ->
      pack num (clear s)
      = inr (mkState (<[0 := zero]> (lightData s)) true (viewportData s)
               [] [] [] [])).
Proof.
  intros zero c. split; [done|]. split; [done|].
  split; [intros i Hi; by apply list_lookup_insert_ne|].
  intros Hpos. unfold pack. simpl.
  rewrite bool_decide_eq_false_2 by lia. done.
Qed.

(** C8. [pack] is a function of the four containers.  Its stores are the
    records [image] below, written out from the lights and their transforms
    alone, into the slots [0, 1, 2, ...]: the counts, then one record for each
    ambient light, two for each directional and each point light and three
    for each spot light, in the order of the containers.  So two runs over
    the same lights and transforms make the same stores, slot by slot and
    value by value, whatever the array, its dirty mark and the viewport data
    were before; where both arrays have room, both runs return with [image]
    at the front of the array, and from equal arrays they leave equal arrays;
    and a second run right after a first one leaves the array as the first
    left it.  The arithmetic of [float] and [double] is that of [num], the
    same in both runs. *)
Theorem pack_deterministic (s1 s2 : State) :
  ambientLights s1 = ambientLights s2 ->
  directionalLights s1 = directionalLights s2 ->
  pointLights s1 = pointLights s2 ->
  spotLights s1 = spotLights s2 ->
  let fd := float_of_double num in
  let eye_direction (mv : dmat4) (v : dvec3) :=
    normalize num (dvec3_mul_dmat3 num v (inverse_3x3 num mv)) in
  let eye_position (mv : dmat4) (v : dvec3) := dmat4_mul_dvec3 num mv v in
  let image : list vec4 :=
    mkvec4 (float_of_size num (Z.of_nat (length (ambientLights s1))))
      (float_of_size num (Z.of_nat (length (directionalLights s1))))
      (float_of_size num (Z.of_nat (length (pointLights s1))))
      (float_of_size num (Z.of_nat (length (spotLights s1))))
    :: (ambientLights s1 ≫= fun e =>
          [mkvec4 (r (a_color e.2)) (g (a_color e.2)) (b (a_color e.2))
             (a_intensity e.2)])
    ++ (directionalLights s1 ≫= fun e =>
          [mkvec4 (r (d_color e.2)) (g (d_color e.2)) (b (d_color e.2))
             (d_intensity e.2);
           mkvec4 (fd (x (eye_direction e.1 (d_direction e.2))))
             (fd (y (eye_direction e.1 (d_direction e.2))))
             (fd (z (eye_direction e.1 (d_direction e.2))))
             (float_zero num)])
    ++ (pointLights s1 ≫= fun e =>
          [mkvec4 (r (p_color e.2)) (g (p_color e.2)) (b (p_color e.2))
             (p_intensity e.2);
           mkvec4 (fd (x (eye_position e.1 (p_position e.2))))
             (fd (y (eye_position e.1 (p_position e.2))))
             (fd (z (eye_position e.1 (p_position e.2))))
             (float_zero num)])
    ++ (spotLights s1 ≫= fun e =>
          [mkvec4 (r (s_color e.2)) (g (s_color e.2)) (b (s_color e.2))
             (s_intensity e.2);
           mkvec4 (fd (x (eye_position e.1 (s_position e.2))))
             (fd (y (eye_position e.1 (s_position e.2))))
             (fd (z (eye_position e.1 (s_position e.2))))
             (fd (cos num (innerAngle e.2)));
           mkvec4 (fd (x (eye_direction e.1 (s_direction e.2))))
             (fd (y (eye_direction e.1 (s_direction e.2))))
             (fd (z (eye_direction e.1 (s_direction e.2))))
             (fd (cos num (outerAngle e.2)))]) in
  written (pack_cursor num s1) = zip (seq 0 (length image)) image
  /\ written (pack_cursor num s2) = written (pack_cursor num s1)
  /\ (length image <= length (lightData s1) ->
      length image <= length (lightData s2) ->
      exists s1' s2',
        pack num s1 = inr s1' /\ pack num s2 = inr s2'
        /\ take (length image) (lightData s1') = image
        /\ take (length image) (lightData s2') = image
        /\ (lightData s1 = lightData s2 -> lightData s1' = lightData s2')
        /\ exists s1'', pack num s1' = inr s1''
                        /\ lightData s1'' = lightData s1').
Proof.
  intros Ha Hd Hp Hs fd eye_direction eye_position image.
  assert (Himage : image = pack_records num s1) by reflexivity.
  assert (Hrec : pack_records num s2 = pack_records num s1)
    by (unfold pack_records; by rewrite Ha, Hd, Hp, Hs).
  assert (Hcount : record_count s2 = record_count s1)
    by (unfold record_count; by rewrite Ha, Hd, Hp, Hs).
  assert (Hlen : length image = record_count s1)
    by (rewrite Himage; apply length_pack_records).
  clearbody image. subst image.
  split; [by rewrite written_pack_cursor, Hlen|].
  split; [by rewrite !written_pack_cursor, Hrec, Hcount|].
  intros Hfit1 Hfit2.
  assert (Hrun1 := pack_in_bounds s1 ltac:(lia)).
  assert (Hrun2 := pack_in_bounds s2 ltac:(lia)).
  rewrite Hrec, Hcount in Hrun2.
  eexists _, _. split; [exact Hrun1|]. split; [exact Hrun2|].
  cbn [lightData]. rewrite Hlen.
  split; [apply take_app_length'; symmetry; apply length_pack_records|].
  split; [apply take_app_length'; symmetry; apply length_pack_records|].
  split; [by intros ->|].
  set (s' := mkState _ _ _ _ _ _ _).
  assert (Hrec' : pack_records num s' = pack_records num s1) by reflexivity.
  assert (Hcount' : record_count s' = record_count s1) by reflexivity.
  assert (Hdata' : lightData s'
                   = pack_records num s1
                     ++ drop (record_count s1) (lightData s1)) by reflexivity.
  eexists. split.
  - apply pack_in_bounds.
    rewrite Hcount', Hdata', length_app, length_drop, length_pack_records.
    lia.
  - cbn [lightData]. rewrite Hrec', Hcount', Hdata'.
    by rewrite drop_app_length' by (symmetry; apply length_pack_records).
Qed.

(** C9. The light data array made by [init] has [maxNumberLights] slots.
    [pack] makes its [1 + a + 2d + 2p + 3sp] stores whatever that number is:
    nothing compares the iterator with the end of the array.  All of the
    stores fall inside of the array exactly when
    [1 + a + 2d + 2p + 3sp <= maxNumberLights]; otherwise [pack] runs past
    the end of the array. *)
Theorem pack_in_bounds_iff (maxNumberLights maxViewports : nat) (s : State) :
  let s0 :=
    with_lightData
      (lightData
         (init num (Z.of_nat maxNumberLights) (Z.of_nat maxViewports) : State)) s in
  let total :=
    1 + length (ambientLights s) + 2 * length (directionalLights s)
    + 2 * length (pointLights s) + 3 * length (spotLights s) in
  let c := pack_cursor num s0 in
  length (lightData s0) = maxNumberLights
  /\ length (written c) = total
  /\ (Forall (fun w => w.1 < maxNumberLights) (written c)
      <-> total <= maxNumberLights)
  /\ (overrun c = false <-> total <= maxNumberLights)
  /\ ((exists s', pack num s0 = inr s') <-> total <= maxNumberLights)
  /\ (pack num s0 = inl OutOfRange <-> maxNumberLights < total).
Proof.
  intros s0 total c.
  assert (Hcap : length (lightData s0) = maxNumberLights)
    by (simpl; by rewrite length_replicate, Nat2Z.id).
  assert (Htotal : record_count s0 = total) by reflexivity.
  assert (Hlen : length (pack_records num s0) = total)
    by (by rewrite length_pack_records).
  assert (Hfst : (written c).*1 = seq 0 total).
  { subst c. rewrite written_pack_cursor, Htotal.
    apply fst_zip. rewrite length_seq. lia. }
  split; [done|].
  split; [by rewrite <- (length_fmap fst), Hfst, length_seq|].
  split.
  { rewrite <- (Forall_fmap fst (fun i => i < maxNumberLights)), Hfst, Forall_seq.
    split; [intros H|intros H j Hj; lia].
    destruct total as [|t] eqn:E; [lia|]. specialize (H t). lia. }
  split; [subst c; rewrite overrun_pack_cursor; lia|].
  split.
  - split.
    + intros [s' Hs'].
      destruct (decide (total <= maxNumberLights)) as [|Hgt]; [done|].
      rewrite pack_overrun in Hs' by lia. done.
    + intros Hle. eexists. apply pack_in_bounds. lia.
  - split.
    + intros Hs'.
      destruct (decide (total <= maxNumberLights)) as [Hle|Hgt]; [|lia].
      rewrite pack_in_bounds in Hs' by lia. done.
    + intros Hlt. apply pack_overrun. lia.
Qed.

End Pack.

(** *** The properties at a concrete set of lights *)

Lemma pack_record_count_witness :
  (18 <= length (lightData Demo2.many))%nat
  /\ length (written (pack_cursor Demo2.scaling Demo2.many)) = 18%nat
  /\ exists s',
       pack Demo2.scaling Demo2.many = inr s'
       /\ lightData s' !! 0%nat = Some (mkvec4 4 2 3 1).
Proof.
  assert (H1 : (18 <= length (lightData Demo2.many))%nat) by (simpl; lia).
  split; [exact H1|].
  destruct (pack_record_count Demo2.scaling Demo2.many)
    as (Hcount & _ & _ & Hfit).
  split; [exact Hcount|].
  destruct (Hfit H1) as (s' & Hpack & _ & _ & _ & Hcounts).
  by exists s'.
Defined.

Lemma clear_pack_single_record_witness :
  (0 < length (lightData Demo.lit))%nat
  /\ pack Demo.num (clear Demo.lit)
     = inr (mkState (mkvec4 0 0 0 0 :: replicate 3 (mkvec4 0 0 0 1)) true
              [mkvec4 0 0 0 1] [] [] [] []).
Proof.
  assert (H1 : (0 < length (lightData Demo.lit))%nat) by (simpl; lia).
  split; [exact H1|].
  destruct (clear_pack_single_record Demo.num Demo.lit) as (_ & _ & _ & Hpack).
  exact (Hpack H1).
Defined.

Lemma pack_deterministic_witness :
  ambientLights Demo2.many = ambientLights Demo2.many'
  /\ directionalLights Demo2.many = directionalLights Demo2.many'
  /\ pointLights Demo2.many = pointLights Demo2.many'
  /\ spotLights Demo2.many = spotLights Demo2.many'
  /\ lightData Demo2.many <> lightData Demo2.many'
  /\ written (pack_cursor Demo2.scaling Demo2.many')
     = written (pack_cursor Demo2.scaling Demo2.many)
  /\ exists s1' s2',
       pack Demo2.scaling Demo2.many = inr s1'
       /\ pack Demo2.scaling Demo2.many' = inr s2'
       /\ take 18 (lightData s1') = take 18 (lightData s2')
       /\ lightData s1' !! 17%nat = Some (mkvec4 (-9) 0 0 51).
Proof.
  repeat (split; [reflexivity|]).
  split; [discriminate|].
  destruct (pack_deterministic Demo2.scaling Demo2.many Demo2.many'
              eq_refl eq_refl eq_refl eq_refl) as (_ & Hsame & Hfit).
  split; [exact Hsame|].
  destruct Hfit as (s1' & s2' & H1 & H2 & Himage1 & Himage2 & _);
    [simpl; lia|simpl; lia|].
  exists s1', s2'. split; [exact H1|]. split; [exact H2|].
  split; [exact (eq_trans Himage1 (eq_sym Himage2))|].
  rewrite <- (lookup_take_lt (lightData s1') 18 17) by lia.
  rewrite (Himage1 : take 18 (lightData s1') = _). vm_compute. reflexivity.
Defined.

End ViewDependentStateSpec.

(** * Further properties of the frame ring *)

Module FrameRingSpec.
Import RecordAndSubmitTask RecordAndSubmitTaskSpec.

Section Window.
Context {Device TransferState GraphState FrameStamp : Type}.
Context {DynamicData CompileManager PagerState : Type}.

#[local] Abbreviation Task := (@Task TransferState GraphState).
#[local] Abbreviation Machine := (@Machine Device TransferState GraphState).
#[local] Abbreviation External :=
  (@External Device TransferState GraphState FrameStamp DynamicData
     CompileManager PagerState).

Variable ext : External.

Lemma mod_window_inj (N a b : Z) :
  1 <= N -> 0 <= a < N -> 0 <= b < N -> forall c,
  (c - a) mod N = (c - b) mod N -> a = b.
Proof.
  intros HN Ha Hb c Heq.
  pose proof (Z.div_mod (c - a) N ltac:(lia)) as H1.
  pose proof (Z.div_mod (c - b) N ltac:(lia)) as H2.
  rewrite Heq in H1.
  assert (Hd : b - a = N * ((c - a) / N - (c - b) / N)) by lia.
  destruct (Z.eq_dec ((c - a) / N - (c - b) / N) 0) as [H0|H0]; [lia|].
  exfalso. nia.
Qed.

(** X1. The ring is a window on the last frames: after [k] calls of
    [advance] on a ring of [N] slots, [index(j)] is the slot of the frame
    [j] frames ago, [(k - 1 - j) mod N], for [j] below both [N] and [k]; it
    is the sentinel [N] for every other [j]: a slot never assigned, or a [j]
    beyond the ring. *)
Theorem index_window (N : Z) (k : nat) (d : Device) (j : Z) :
  1 <= N <= UINT32_MAX -> 0 <= j ->
  exists m',
    advances ext k (initial ext N d) = inr (tt, m')
    /\ index (task m') j
       = if bool_decide (j < N /\ j < Z.of_nat k)
         then (Z.of_nat k - 1 - j) mod N else N.
Proof.
  intros HN Hj.
  destruct (advances_ring_state ext N k 0 (initial ext N d) HN
              (constructor_ring_state ext N d)) as (m' & Hrun & Hring).
  rewrite Nat.add_0_r in Hring. exists m'. split; [done|].
  apply (index_ring_state N k); [lia|done|done].
Qed.

(** X2. The fences follow the window: after [k] calls of [advance],
    [fence(j)] is the fence of slot [(k - 1 - j) mod N] for [j] below both [N]
    and [k] and null for every other [j], and two different frames of the
    window never have the same fence. *)
Theorem fence_window (N : Z) (k : nat) (d : Device) :
  1 <= N <= UINT32_MAX ->
  exists m',
    advances ext k (initial ext N d) = inr (tt, m')
    /\ (forall j, 0 <= j ->
          fence (task m') j
          = if bool_decide (j < N /\ j < Z.of_nat k)
            then Some ((Z.of_nat k - 1 - j) mod N) else None)
    /\ (forall j1 j2 i,
          0 <= j1 -> 0 <= j2 ->
          fence (task m') j1 = Some i -> fence (task m') j2 = Some i ->
          j1 = j2).
Proof.
  intros HN.
  destruct (advances_ring_state ext N k 0 (initial ext N d) HN
              (constructor_ring_state ext N d)) as (m' & Hrun & Hring).
  rewrite Nat.add_0_r in Hring. exists m'. split; [done|].
  assert (Hfence : forall j, 0 <= j ->
            fence (task m') j
            = if bool_decide (j < N /\ j < Z.of_nat k)
              then Some ((Z.of_nat k - 1 - j) mod N) else None).
  { intros j Hj. unfold fence.
    rewrite (index_ring_state N k (task m') j) by (done || lia).
    destruct Hring as (_ & _ & Hlen).
    assert (Hsize : vsize (_fences (task m')) = N) by (unfold vsize; lia).
    rewrite Hsize.
    destruct (decide (j < N /\ j < Z.of_nat k)) as [Hin|Hout].
    - pose proof (Z.mod_pos_bound (Z.of_nat k - 1 - j) N ltac:(lia)).
      rewrite !(bool_decide_eq_true_2 (j < N /\ j < Z.of_nat k)) by done.
      by rewrite bool_decide_eq_true_2 by lia.
    - rewrite !(bool_decide_eq_false_2 (j < N /\ j < Z.of_nat k)) by done.
      by rewrite bool_decide_eq_false_2 by lia. }
  split; [done|].
  intros j1 j2 i Hj1 Hj2 H1 H2.
  rewrite Hfence in H1, H2 by done.
  case_bool_decide; [|done]. case_bool_decide; [|done].
  injection H1 as H1. injection H2 as H2.
  apply (mod_window_inj N j1 j2 ltac:(lia) ltac:(lia) ltac:(lia)
           (Z.of_nat k - 1)).
  congruence.
Qed.

Lemma ring_history_periodic (N : Z) (k : nat) :
  1 <= N -> (Z.to_nat N <= k)%nat ->
  ring_history N (Z.to_nat N + k) = ring_history N k.
Proof.
  intros HN Hk. apply list_eq. intros j.
  destruct (decide (j < Z.to_nat N)%nat) as [Hj|Hj].
  - rewrite !lookup_ring_history by done.
    rewrite !bool_decide_eq_true_2 by lia. f_equal.
    replace (Z.of_nat (Z.to_nat N + k - 1 - j))
      with (Z.of_nat (k - 1 - j) + 1 * N) by lia.
    apply Z_mod_plus_full.
  - rewrite !lookup_ge_None_2; [done| |];
      rewrite length_ring_history by done; lia.
Qed.

(** X3. Once every slot has been assigned, the ring is periodic: [N] more
    calls of [advance] bring the ring, and the current frame index, back to
    what they were. *)
Theorem ring_periodic (N : Z) (k : nat) (d : Device) :
  1 <= N <= UINT32_MAX -> (Z.to_nat N <= k)%nat ->
  exists m1 m2,
    advances ext k (initial ext N d) = inr (tt, m1)
    /\ advances ext (Z.to_nat N) m1 = inr (tt, m2)
    /\ _indices (task m2) = _indices (task m1)
    /\ _currentFrameIndex (task m2) = _currentFrameIndex (task m1)
    /\ forall j, index (task m2) j = index (task m1) j.
Proof.
  intros HN Hk.
  destruct (advances_ring_state ext N k 0 (initial ext N d) HN
              (constructor_ring_state ext N d)) as (m1 & Hrun1 & Hring1).
  rewrite Nat.add_0_r in Hring1.
  destruct (advances_ring_state ext N (Z.to_nat N) k m1 HN Hring1)
    as (m2 & Hrun2 & Hring2).
  exists m1, m2. split; [done|]. split; [done|].
  destruct Hring1 as (Hc1 & Hi1 & _). destruct Hring2 as (Hc2 & Hi2 & _).
  assert (Hi : _indices (task m2) = _indices (task m1))
    by (rewrite Hi1, Hi2; apply ring_history_periodic; lia).
  split; [done|]. split.
  - rewrite Hc1, Hc2. destruct k as [|k]; [lia|].
    destruct (Z.to_nat N + S k)%nat as [|n] eqn:E; [lia|].
    replace (Z.of_nat n) with (Z.of_nat k + 1 * N) by lia.
    apply Z_mod_plus_full.
  - intros j. unfold index. by rewrite Hi.
Qed.

(** X4. A ring without slots cannot be advanced: [advance] stores the
    current frame index into [_indices[0]], which is out of range. *)
Theorem advance_empty_ring (m : Machine) :
  _indices (task m) = [] -> 0 <= _currentFrameIndex (task m) ->
  advance ext m = inl OutOfRange.
Proof.
  destruct m as [t d tr]. cbn [task]. intros Hi Hc.
  unfold advance, mbind, M_bind, this, update, lift. cbn [task device trace].
  rewrite Hi. rewrite bool_decide_eq_true_2 by (unfold vsize; simpl; lia).
  cbn. rewrite Hi. reflexivity.
Qed.

End Window.

Lemma index_window_witness :
  1 <= 3 <= UINT32_MAX /\ 0 <= 1
  /\ exists m',
       advances (Demo.ext VK_SUCCESS) 2 Demo.fresh = inr (tt, m')
       /\ index (task m') 1 = 0.
Proof.
  assert (H1 : 1 <= 3 <= UINT32_MAX) by (unfold UINT32_MAX; lia).
  assert (H2 : 0 <= 1) by lia.
  split; [exact H1|]. split; [exact H2|].
  destruct (index_window (Demo.ext VK_SUCCESS) 3 2 0 1 H1 H2)
    as (m' & Hrun & Hindex).
  exists m'. split; [exact Hrun|]. exact Hindex.
Defined.

Lemma fence_window_witness :
  1 <= 3 <= UINT32_MAX
  /\ exists m',
       advances (Demo.ext VK_SUCCESS) 2 Demo.fresh = inr (tt, m')
       /\ fence (task m') 0 = Some 1 /\ fence (task m') 1 = Some 0
       /\ fence (task m') 2 = None.
Proof.
  assert (H1 : 1 <= 3 <= UINT32_MAX) by (unfold UINT32_MAX; lia).
  split; [exact H1|].
  destruct (fence_window (Demo.ext VK_SUCCESS) 3 2 0 H1)
    as (m' & Hrun & Hfence & _).
  exists m'. split; [exact Hrun|].
  split; [exact (Hfence 0 ltac:(lia))|].
  split; [exact (Hfence 1 ltac:(lia))|exact (Hfence 2 ltac:(lia))].
Defined.

Lemma ring_periodic_witness :
  1 <= 3 <= UINT32_MAX /\ (Z.to_nat 3 <= 4)%nat
  /\ exists m1 m2,
       advances (Demo.ext VK_SUCCESS) 4 Demo.fresh = inr (tt, m1)
       /\ advances (Demo.ext VK_SUCCESS) 3 m1 = inr (tt, m2)
       /\ _indices (task m2) = _indices (task m1).
Proof.
  assert (H1 : 1 <= 3 <= UINT32_MAX) by (unfold UINT32_MAX; lia).
  assert (H2 : (Z.to_nat 3 <= 4)%nat) by (simpl; lia).
  split; [exact H1|]. split; [exact H2|].
  destruct (ring_periodic (Demo.ext VK_SUCCESS) 3 4 0 H1 H2)
    as (m1 & m2 & Hrun1 & Hrun2 & Hi & _).
  exists m1, m2. split; [exact Hrun1|]. split; [exact Hrun2|exact Hi].
Defined.

Lemma advance_empty_ring_witness :
  _indices (task (initial (Demo.ext VK_SUCCESS) 0 0)) = []
  /\ 0 <= _currentFrameIndex (task (initial (Demo.ext VK_SUCCESS) 0 0))
  /\ advance (Demo.ext VK_SUCCESS) (initial (Demo.ext VK_SUCCESS) 0 0)
     = inl OutOfRange.
Proof.
  assert (H1 : _indices (task (initial (Demo.ext VK_SUCCESS) 0 0)) = [])
    by reflexivity.
  assert (H2 : 0 <= _currentFrameIndex (task (initial (Demo.ext VK_SUCCESS) 0 0)))
    by (vm_compute; discriminate).
  split; [exact H1|]. split; [exact H2|].
  exact (advance_empty_ring (Demo.ext VK_SUCCESS) _ H1 H2).
Defined.

End FrameRingSpec.

(** * Further properties of the submission protocol *)

Module FrameProtocolSpec.
Import RecordAndSubmitTask RecordAndSubmitTaskSpec FrameProtocol.

Section Protocol.
Context {Device TransferState GraphState FrameStamp : Type}.
Context {DynamicData CompileManager PagerState : Type}.

#[local] Abbreviation Task := (@Task TransferState GraphState).
#[local] Abbreviation TransferTask := (@TransferTask TransferState).
#[local] Abbreviation CommandGraph := (@CommandGraph GraphState).
#[local] Abbreviation Machine := (@Machine Device TransferState GraphState).
#[local] Abbreviation External :=
  (@External Device TransferState GraphState FrameStamp DynamicData
     CompileManager PagerState).

Variable ext : External.

#[local] Arguments vec_read : simpl never.
#[local] Arguments vec_write : simpl never.
#[local] Arguments fence : simpl never.
#[local] Arguments UINT64_MAX : simpl never.

(** ** start *)

(** What a run of [start] that returns has done. *)
Lemma start_cases (m m' : Machine) (r : VkResult) :
  start ext m = inr (r, m') ->
  exists i f l,
    fence (task m) 0 = Some i
    /\ vec_read (_fences (task m)) i = inr f
    /\ trace m' = trace m ++ l
    /\ ((l = [EvFenceHasDependencies i] /\ task m' = cleared (task m))
        \/ (l = [EvFenceHasDependencies i; EvFenceWait i UINT64_MAX]
            /\ task m' = cleared (task m))
        \/ (l = [EvFenceHasDependencies i; EvFenceWait i UINT64_MAX;
                 EvFenceReset i]
            /\ exists f',
                 task m'
                 = set_fences (<[Z.to_nat i := f']> (_fences (task m)))
                     (cleared (task m)))).
Proof.
  intros Hrun. destruct (fence (task m) 0) as [i|] eqn:Hf;
    [|by rewrite start_null in Hrun].
  destruct (vec_read (_fences (task m)) i) as [e|f] eqn:Hread;
    [by rewrite (start_read_fault ext m i e Hf Hread) in Hrun|].
  rewrite (start_spec ext m i f Hf Hread) in Hrun. exists i, f.
  destruct (hasDependencies ext f (device m)).
  - destruct (Fence_wait ext f UINT64_MAX (device m)) as [r1 d1].
    case_bool_decide.
    + injection Hrun as _ <-. eexists. repeat split; [done|]. right. left. done.
    + destruct (resetFenceAndDependencies ext f d1) as [f' d2].
      injection Hrun as _ <-. eexists. repeat split; [done|]. right. right.
      split; [done|]. by exists f'.
  - injection Hrun as _ <-. eexists. repeat split; [done|]. by left.
Qed.

(** X5. When the current fence has dependencies, [start] waits on it and
    returns what the wait returns.  After a wait that failed it makes no
    reset and leaves every fence as it was; after a wait that succeeded it
    resets that fence, once, and stores the result in the slot of the fence,
    the other slots being unchanged. *)
Theorem start_with_dependencies (m : Machine) (i : Z) (f : Fence)
    (r : VkResult) (d1 : Device) :
  fence (task m) 0 = Some i ->
  vec_read (_fences (task m)) i = inr f ->
  hasDependencies ext f (device m) = true ->
  Fence_wait ext f UINT64_MAX (device m) = (r, d1) ->
  exists m',
    start ext m = inr (r, m')
    /\ (r <> VK_SUCCESS ->
        new_events m m' = [EvFenceHasDependencies i; EvFenceWait i UINT64_MAX]
        /\ _fences (task m') = _fences (task m)
        /\ device m' = d1)
    /\ (r = VK_SUCCESS ->
        new_events m m' = [EvFenceHasDependencies i; EvFenceWait i UINT64_MAX;
                           EvFenceReset i]
        /\ _fences (task m')
           = <[Z.to_nat i := (resetFenceAndDependencies ext f d1).1]>
               (_fences (task m))
        /\ device m' = (resetFenceAndDependencies ext f d1).2).
Proof.
  intros Hf Hread Hdeps Hwait.
  rewrite (start_spec ext m i f Hf Hread), Hdeps, Hwait.
  case_bool_decide as Hr.
  - eexists. split; [done|]. split; [|done]. intros _.
    split; [by apply new_events_app|done].
  - destruct (resetFenceAndDependencies ext f d1) as [f' d2].
    eexists. split; [by rewrite Hr|]. split; [done|]. intros _.
    split; [by apply new_events_app|done].
Qed.

(** X6. Every run of [start] that returns has cleared the completion
    semaphore of both transfer tasks, and has left the ring, the number of
    fences, the command graphs, the windows and the queue as they were. *)
Theorem start_clears_transfer_signals (m m' : Machine) (r : VkResult) :
  start ext m = inr (r, m') ->
  earlyTransferTask (task m') = clear_completed <$> earlyTransferTask (task m)
  /\ lateTransferTask (task m') = clear_completed <$> lateTransferTask (task m)
  /\ (forall x, earlyTransferTask (task m') = Some x \/
                lateTransferTask (task m') = Some x ->
                currentTransferCompletedSemaphore x = None)
  /\ _indices (task m') = _indices (task m)
  /\ _currentFrameIndex (task m') = _currentFrameIndex (task m)
  /\ length (_fences (task m')) = length (_fences (task m))
  /\ commandGraphs (task m') = commandGraphs (task m)
  /\ windows (task m') = windows (task m)
  /\ queue (task m') = queue (task m).
Proof.
  intros Hrun.
  destruct (start_cases m m' r Hrun) as (i & f & l & _ & _ & _ & Hcase).
  assert (Hclear : forall x,
            clear_completed <$> earlyTransferTask (task m) = Some x \/
            clear_completed <$> lateTransferTask (task m) = Some x ->
            currentTransferCompletedSemaphore x = None).
  { intros x [H|H]; apply fmap_Some in H as (y & _ & ->); done. }
  destruct Hcase as [[_ ->]|[[_ ->]|[_ [f' ->]]]]; cbn;
    repeat split; try done; by rewrite ?length_insert.
Qed.

(** ** record *)

Lemma record_graphs_run (cgs : list CommandGraph) (n : nat)
    (recorded : list CommandBuffer) (frameStamp : FrameStamp) (m : Machine) :
  exists cgs' recorded' d',
    record_graphs ext n cgs recorded frameStamp m
    = inr ((cgs', recorded'),
           mkMachine (task m) d' (trace m ++ (EvRecord <$> seq n (length cgs))))
    /\ length cgs' = length cgs.
Proof.
  revert n recorded m. induction cgs as [|cg cgs IH]; intros n recorded m.
  - exists [], recorded, (device m). split; [|done].
    destruct m as [t d tr]. cbn. by rewrite app_nil_r.
  - cbn [record_graphs]. unfold mbind at 1, M_bind at 1, this at 1.
    unfold mbind at 1, M_bind at 1, call at 1.
    destruct (CommandGraph_record ext cg recorded frameStamp
                (databasePager (task m)) (device m)) as [[cg' rec1] d1].
    destruct (IH (S n) rec1
                (mkMachine (task m) d1 (trace m ++ [EvRecord n])))
      as (cgs' & rec2 & d2 & Hrun & Hlen).
    exists (cg' :: cgs'), rec2, d2. split; [|simpl; by rewrite Hlen].
    unfold mbind, M_bind. rewrite Hrun. cbn.
    by rewrite <- app_assoc.
Qed.

Lemma record_run (recorded : list CommandBuffer) (frameStamp : FrameStamp)
    (m : Machine) :
  exists cgs' recorded' d',
    record ext recorded frameStamp m
    = inr ((VK_SUCCESS, recorded'),
           mkMachine (set_commandGraphs cgs' (task m)) d'
             (trace m ++ (EvRecord <$> seq 0 (length (commandGraphs (task m))))))
    /\ length cgs' = length (commandGraphs (task m)).
Proof.
  destruct (record_graphs_run (commandGraphs (task m)) 0 recorded frameStamp m)
    as (cgs' & rec' & d' & Hrun & Hlen).
  exists cgs', rec', d'. split; [|done].
  unfold record, mbind, M_bind, this. cbn. by rewrite Hrun.
Qed.

(** X7. [record] cannot fail: it returns [VK_SUCCESS] whatever the command
    graphs do.  It calls [record] on every command graph once, in the order
    of [commandGraphs], and keeps the number of command graphs, the ring, the
    fences, the transfer tasks and the queue. *)
Theorem record_all_graphs (recorded : list CommandBuffer)
    (frameStamp : FrameStamp) (m : Machine) :
  exists recorded' m',
    record ext recorded frameStamp m = inr ((VK_SUCCESS, recorded'), m')
    /\ new_events m m' = EvRecord <$> seq 0 (length (commandGraphs (task m)))
    /\ length (commandGraphs (task m')) = length (commandGraphs (task m))
    /\ _indices (task m') = _indices (task m)
    /\ _fences (task m') = _fences (task m)
    /\ earlyTransferTask (task m') = earlyTransferTask (task m)
    /\ lateTransferTask (task m') = lateTransferTask (task m)
    /\ queue (task m') = queue (task m).
Proof.
  destruct (record_run recorded frameStamp m) as (cgs' & rec' & d' & Hrun & Hlen).
  eexists _, _. split; [exact Hrun|].
  split; [by apply new_events_app|]. by repeat split.
Qed.

(** ** finish *)


Lemma window_semaphores_acquired (ws : list Window) :
  (forall w, w ∈ ws -> 0 <= imageIndex w) ->
  window_semaphores ws = inr (acquired ws).
Proof.
  induction ws as [|w ws IH]; intros Hpos; [done|].
  cbn [window_semaphores acquired omap list_omap].
  assert (Hw : 0 <= imageIndex w) by (apply Hpos, elem_of_cons; by left).
  rewrite IH by (intros w' Hw'; apply Hpos, elem_of_cons; by right).
  case_bool_decide as Hskip; [done|].
  unfold numFrames, vsize in Hskip.
  destruct (lookup_lt_is_Some_2 (frames w) (Z.to_nat (imageIndex w)))
    as [fr Hfr]; [lia|].
  unfold vec_read. rewrite bool_decide_eq_true_2 by (unfold vsize; lia).
  by rewrite Hfr.
Qed.

Lemma transfer_semaphores_spec (transfer : option TransferTask)
    (sem : Semaphore) :
  transfer_semaphores transfer sem
  = (completion transfer, consumer transfer sem, consumed transfer sem).
Proof.
  unfold transfer_semaphores, consumer, consumed, completion.
  destruct transfer as [[[s|] ws st]|]; cbn; [done| |done].
  by rewrite app_nil_r.
Qed.

Lemma after_late_transfer_ring (m m1 : Machine) (r : VkResult) :
  after_late_transfer ext m = (r, m1) ->
  _fences (task m1) = _fences (task m)
  /\ _indices (task m1) = _indices (task m)
  /\ windows (task m1) = windows (task m)
  /\ queue (task m1) = queue (task m)
  /\ signalSemaphores (task m1) = signalSemaphores (task m)
  /\ waitSemaphores (task m1) = waitSemaphores (task m)
  /\ earlyTransferTask (task m1) = earlyTransferTask (task m)
  /\ exists l, trace m1 = trace m ++ l
               /\ (l = [] \/ l = [EvTransferDynamicData false]).
Proof.
  unfold after_late_transfer, after_transfer.
  destruct (lateTransferTask (task m)) as [x|].
  - destruct (transferDynamicData ext x (device m)) as [[r0 x'] d'].
    intros [= <- <-]. cbn. repeat split. eexists. split; [done|]. by right.
  - intros [= <- <-]. repeat split. exists []. split; [by rewrite app_nil_r|].
    by left.
Qed.

#[local] Arguments transfer_semaphores : simpl never.
#[local] Arguments completion : simpl never.
#[local] Arguments consumer : simpl never.
#[local] Arguments consumed : simpl never.
#[local] Arguments acquired : simpl never.

Lemma vec_read_write {A} (v : list A) (i : Z) (x y : A) :
  vec_read v i = inr x -> vec_write v i y = inr (<[Z.to_nat i := y]> v).
Proof. unfold vec_read, vec_write. by case_bool_decide. Qed.

(** the steps of [finish] up to the test on the recorded buffers *)
Ltac finish_late_step Hlate :=
  unfold after_late_transfer, after_transfer in Hlate;
  cbn [task device trace] in *;
  unfold finish, deref_fence, store_fence, mbind, M_bind, this, call, update,
    lift, mret, M_ret, raise;
  cbn;
  match goal with
  | |- context [lateTransferTask ?t] =>
      destruct (lateTransferTask t) as [?x|]; cbn
  end;
  [match goal with
   | |- context [transferDynamicData ?e ?x ?d] =>
       destruct (transferDynamicData e x d) as [[?r ?x'] ?d']; cbn
   end|];
  injection Hlate; intros; subst.

Lemma finish_nonempty (recorded : list CommandBuffer) (m m1 : Machine)
    (i : Z) (f : Fence) (q : Z) :
  recorded <> [] ->
  after_late_transfer ext m = (VK_SUCCESS, m1) ->
  fence (task m1) 0 = Some i ->
  vec_read (_fences (task m1)) i = inr f ->
  window_semaphores (windows (task m1)) = inr (acquired (windows (task m1))) ->
  queue (task m1) = Some q ->
  finish ext recorded m
  = inr
      (let info := submission (task m1) recorded in
       let f1 := attached (task m1) f recorded in
       let '(r, d') := Queue_submit ext q info f1 (device m1) in
       (r,
        mkMachine
          (set_lateTransferTask
             (consumed (lateTransferTask (task m1))
                (lateTransferTaskConsumerCompletedSemaphore (task m1)))
             (set_earlyTransferTask
                (consumed (earlyTransferTask (task m1))
                   (earlyTransferTaskConsumerCompletedSemaphore (task m1)))
                (set_fences (<[Z.to_nat i := f1]> (_fences (task m1)))
                   (task m1))))
          d' (trace m1 ++ [EvQueueSubmit q info i]))).
Proof.
  intros Hne Hlate Hf Hread Hws Hq.
  pose proof (fun y => vec_read_write _ _ _ y Hread) as Hwrite.
  destruct m as [t d tr]. destruct m1 as [t1 d1 tr1].
  finish_late_step Hlate.
  all: rewrite (bool_decide_eq_false_2 (VK_SUCCESS ≠ VK_SUCCESS))
         by (intros H'; by apply H').
  all: rewrite (bool_decide_eq_false_2 (recorded = [])) by done.
  all: cbn; rewrite Hf; cbn.
  all: try match goal with
           | |- context [set_lateTransferTask (Some ?x') ?t] =>
               change (_fences (set_lateTransferTask (Some x') t))
                 with (_fences t) in *
           end.
  all: rewrite Hread; cbn.
  all: unfold with_dependencies; rewrite Hwrite; cbn.
  all: rewrite !transfer_semaphores_spec; cbn.
  all: cbn in Hws, Hq; rewrite Hws; cbn; rewrite Hq; cbn.
  all: unfold submission, attached, wait_list, signal_list; cbn.
  all: by destruct (Queue_submit ext q _ _ _).
Qed.

Lemma finish_null_fence (recorded : list CommandBuffer) (m m1 : Machine) :
  recorded <> [] ->
  after_late_transfer ext m = (VK_SUCCESS, m1) ->
  fence (task m1) 0 = None ->
  finish ext recorded m = inl NullDereference.
Proof.
  intros Hne Hlate Hf.
  destruct m as [t d tr]. destruct m1 as [t1 d1 tr1].
  finish_late_step Hlate.
  all: rewrite (bool_decide_eq_false_2 (VK_SUCCESS ≠ VK_SUCCESS))
         by (intros H'; by apply H').
  all: rewrite (bool_decide_eq_false_2 (recorded = [])) by done.
  all: cbn; by rewrite Hf.
Qed.

Lemma finish_null_queue (recorded : list CommandBuffer) (m m1 : Machine)
    (i : Z) (f : Fence) :
  recorded <> [] ->
  after_late_transfer ext m = (VK_SUCCESS, m1) ->
  fence (task m1) 0 = Some i ->
  vec_read (_fences (task m1)) i = inr f ->
  window_semaphores (windows (task m1)) = inr (acquired (windows (task m1))) ->
  queue (task m1) = None ->
  finish ext recorded m = inl NullDereference.
Proof.
  intros Hne Hlate Hf Hread Hws Hq.
  pose proof (fun y => vec_read_write _ _ _ y Hread) as Hwrite.
  destruct m as [t d tr]. destruct m1 as [t1 d1 tr1].
  finish_late_step Hlate.
  all: rewrite (bool_decide_eq_false_2 (VK_SUCCESS ≠ VK_SUCCESS))
         by (intros H'; by apply H').
  all: rewrite (bool_decide_eq_false_2 (recorded = [])) by done.
  all: cbn; rewrite Hf; cbn.
  all: try match goal with
           | |- context [set_lateTransferTask (Some ?x') ?t] =>
               change (_fences (set_lateTransferTask (Some x') t))
                 with (_fences t) in *
           end.
  all: rewrite Hread; cbn.
  all: unfold with_dependencies; rewrite Hwrite; cbn.
  all: rewrite !transfer_semaphores_spec; cbn.
  all: cbn in Hws, Hq; rewrite Hws; cbn; by rewrite Hq.
Qed.

Lemma finish_late_failed (recorded : list CommandBuffer) (m m1 : Machine)
    (r : VkResult) :
  after_late_transfer ext m = (r, m1) -> r <> VK_SUCCESS ->
  finish ext recorded m = inr (r, m1).
Proof.
  intros Hlate Hr.
  destruct m as [t d tr]. destruct m1 as [t1 d1 tr1].
  finish_late_step Hlate.
  - by rewrite bool_decide_eq_true_2.
  - done.
Qed.

Lemma finish_read_fault (recorded : list CommandBuffer) (m m1 : Machine)
    (i : Z) (e : Fault) :
  recorded <> [] ->
  after_late_transfer ext m = (VK_SUCCESS, m1) ->
  fence (task m1) 0 = Some i ->
  vec_read (_fences (task m1)) i = inl e ->
  finish ext recorded m = inl e.
Proof.
  intros Hne Hlate Hf Hread.
  destruct m as [t d tr]. destruct m1 as [t1 d1 tr1].
  finish_late_step Hlate.
  all: rewrite (bool_decide_eq_false_2 (VK_SUCCESS ≠ VK_SUCCESS))
         by (intros H'; by apply H').
  all: rewrite (bool_decide_eq_false_2 (recorded = [])) by done.
  all: cbn; rewrite Hf; cbn.
  all: try match goal with
           | |- context [set_lateTransferTask (Some ?x') ?t] =>
               change (_fences (set_lateTransferTask (Some x') t))
                 with (_fences t) in *
           end.
  all: by rewrite Hread.
Qed.

Lemma finish_window_fault (recorded : list CommandBuffer) (m m1 : Machine)
    (i : Z) (f : Fence) (e : Fault) :
  recorded <> [] ->
  after_late_transfer ext m = (VK_SUCCESS, m1) ->
  fence (task m1) 0 = Some i ->
  vec_read (_fences (task m1)) i = inr f ->
  window_semaphores (windows (task m1)) = inl e ->
  finish ext recorded m = inl e.
Proof.
  intros Hne Hlate Hf Hread Hws.
  pose proof (fun y => vec_read_write _ _ _ y Hread) as Hwrite.
  destruct m as [t d tr]. destruct m1 as [t1 d1 tr1].
  finish_late_step Hlate.
  all: rewrite (bool_decide_eq_false_2 (VK_SUCCESS ≠ VK_SUCCESS))
         by (intros H'; by apply H').
  all: rewrite (bool_decide_eq_false_2 (recorded = [])) by done.
  all: cbn; rewrite Hf; cbn.
  all: try match goal with
           | |- context [set_lateTransferTask (Some ?x') ?t] =>
               change (_fences (set_lateTransferTask (Some x') t))
                 with (_fences t) in *
           end.
  all: rewrite Hread; cbn.
  all: unfold with_dependencies; rewrite Hwrite; cbn.
  all: rewrite !transfer_semaphores_spec; cbn.
  all: cbn in Hws; by rewrite Hws.
Qed.

Lemma finish_empty_after_late (m m1 : Machine) :
  after_late_transfer ext m = (VK_SUCCESS, m1) ->
  finish ext [] m
  = inr (VK_SUCCESS, mkMachine (task m1) (device m1) (trace m1 ++ [EvSleep 16])).
Proof.
  intros Hlate.
  destruct m as [t d tr]. destruct m1 as [t1 d1 tr1].
  finish_late_step Hlate.
  all: rewrite (bool_decide_eq_false_2 (VK_SUCCESS ≠ VK_SUCCESS))
         by (intros H'; by apply H').
  all: done.
Qed.

Lemma window_semaphores_result (ws : list Window) (l : list Semaphore) :
  window_semaphores ws = inr l -> l = acquired ws.
Proof.
  revert l. induction ws as [|w ws IH]; intros l; [by intros [= <-]|].
  cbn [window_semaphores]. unfold acquired. cbn [omap list_omap].
  fold (acquired ws). case_bool_decide as Hskip; [apply IH|].
  unfold vec_read. case_bool_decide; [|done].
  destruct (frames w !! Z.to_nat (imageIndex w)) as [fr|]; [|done].
  destruct (window_semaphores ws) as [e|l']; [done|].
  intros [= <-]. cbn. by rewrite (IH l').
Qed.

(** What a run of [finish] that returns has done. *)
Lemma finish_cases (recorded : list CommandBuffer) (m m' : Machine)
    (r : VkResult) :
  finish ext recorded m = inr (r, m') ->
  exists l3 l4,
    trace m' = trace m ++ l3 ++ l4
    /\ (l3 = [] \/ l3 = [EvTransferDynamicData false])
    /\ (l4 = [] \/ l4 = [EvSleep 16]
        \/ exists q info i, l4 = [EvQueueSubmit q info i]).
Proof.
  intros Hrun.
  destruct (after_late_transfer ext m) as [r0 m1] eqn:Hlate.
  destruct (after_late_transfer_ring m m1 r0 Hlate)
    as (_ & _ & _ & _ & _ & _ & _ & l3 & Htr & Hl3).
  exists l3.
  destruct (decide (r0 = VK_SUCCESS)) as [->|Hr0].
  2: { rewrite (finish_late_failed recorded m m1 r0 Hlate Hr0) in Hrun.
       injection Hrun as _ <-. exists []. rewrite app_nil_r. auto. }
  destruct (decide (recorded = [])) as [->|Hne].
  { rewrite (finish_empty_after_late m m1 Hlate) in Hrun.
    injection Hrun as _ <-. exists [EvSleep 16]. cbn.
    rewrite Htr, <- app_assoc. auto. }
  destruct (fence (task m1) 0) as [i|] eqn:Hf.
  2: { by rewrite (finish_null_fence recorded m m1 Hne Hlate Hf) in Hrun. }
  destruct (vec_read (_fences (task m1)) i) as [e|f] eqn:Hread.
  { by rewrite (finish_read_fault recorded m m1 i e Hne Hlate Hf Hread) in Hrun. }
  destruct (window_semaphores (windows (task m1))) as [e|ws] eqn:Hws.
  { by rewrite (finish_window_fault recorded m m1 i f e Hne Hlate Hf Hread Hws)
      in Hrun. }
  rewrite (window_semaphores_result _ _ Hws) in Hws.
  destruct (queue (task m1)) as [q|] eqn:Hq.
  2: { by rewrite (finish_null_queue recorded m m1 i f Hne Hlate Hf Hread Hws Hq)
         in Hrun. }
  rewrite (finish_nonempty recorded m m1 i f q Hne Hlate Hf Hread Hws Hq) in Hrun.
  cbv zeta in Hrun.
  destruct (Queue_submit ext q _ _ _) as [r' d'].
  injection Hrun as _ <-. eexists. cbn. rewrite Htr, <- app_assoc.
  split; [done|]. split; [done|]. right. right. by eexists _, _, _.
Qed.

Lemma fence_ext (t t' : Task) (j : Z) :
  _indices t' = _indices t -> _fences t' = _fences t -> fence t' j = fence t j.
Proof. intros Hi Hf. unfold fence, index. by rewrite Hi, Hf. Qed.

(** X8. A late transfer that fails ends [finish] at once, whatever was
    recorded: [finish] returns the status of the transfer, having submitted
    nothing, slept not at all and attached nothing to any fence. *)
Theorem finish_aborts_on_late_transfer (recorded : list CommandBuffer)
    (m : Machine) (x x' : TransferTask) (r : VkResult) (d' : Device) :
  lateTransferTask (task m) = Some x ->
  transferDynamicData ext x (device m) = (r, x', d') ->
  r <> VK_SUCCESS ->
  exists m',
    finish ext recorded m = inr (r, m')
    /\ new_events m m' = [EvTransferDynamicData false]
    /\ _fences (task m') = _fences (task m)
    /\ earlyTransferTask (task m') = earlyTransferTask (task m)
    /\ lateTransferTask (task m') = Some x'
    /\ device m' = d'.
Proof.
  intros Hl Htr Hr.
  assert (Hlate : after_late_transfer ext m
                  = (r, mkMachine (set_lateTransferTask (Some x') (task m)) d'
                          (trace m ++ [EvTransferDynamicData false]))).
  { unfold after_late_transfer, after_transfer. by rewrite Hl, Htr. }
  eexists. split; [by apply (finish_late_failed recorded m _ r Hlate)|].
  split; [by apply new_events_app|]. by repeat split.
Qed.

Section Submission.

Variables (recorded : list CommandBuffer) (m : Machine).
Variables (i : Z) (f : Fence) (q : Z).

Hypothesis Hrecorded : recorded <> [].
Hypothesis Hlate : (after_late_transfer ext m).1 = VK_SUCCESS.
Hypothesis Hfence : fence (task m) 0 = Some i.
Hypothesis Hread : vec_read (_fences (task m)) i = inr f.
Hypothesis Hwindows : forall w, w ∈ windows (task m) -> 0 <= imageIndex w.
Hypothesis Hqueue : queue (task m) = Some q.

Lemma finish_submits :
  let m1 := (after_late_transfer ext m).2 in
  finish ext recorded m
  = inr
      (let info := submission (task m1) recorded in
       let f1 := attached (task m1) f recorded in
       let '(r, d') := Queue_submit ext q info f1 (device m1) in
       (r,
        mkMachine
          (set_lateTransferTask
             (consumed (lateTransferTask (task m1))
                (lateTransferTaskConsumerCompletedSemaphore (task m1)))
             (set_earlyTransferTask
                (consumed (earlyTransferTask (task m1))
                   (earlyTransferTaskConsumerCompletedSemaphore (task m1)))
                (set_fences (<[Z.to_nat i := f1]> (_fences (task m1)))
                   (task m1))))
          d' (trace m1 ++ [EvQueueSubmit q info i])))
  /\ _fences (task m1) = _fences (task m)
  /\ _indices (task m1) = _indices (task m)
  /\ windows (task m1) = windows (task m)
  /\ signalSemaphores (task m1) = signalSemaphores (task m)
  /\ waitSemaphores (task m1) = waitSemaphores (task m)
  /\ earlyTransferTask (task m1) = earlyTransferTask (task m).
Proof.
  intros m1.
  destruct (after_late_transfer ext m) as [r0 m1'] eqn:Hm1.
  cbn in Hlate. subst r0. subst m1. cbn [snd].
  destruct (after_late_transfer_ring m m1' _ Hm1)
    as (Hf & Hi & Hw & Hq & Hs & Hws & He & _).
  split; [|done].
  apply finish_nonempty; [done..| | | |].
  - by rewrite (fence_ext (task m) (task m1')).
  - by rewrite Hf.
  - apply window_semaphores_acquired. by rewrite Hw.
  - by rewrite Hq.
Qed.

(** X9. With recorded buffers, a late transfer that succeeded, a current
    fence and a queue, [finish] makes one queue submission and returns what
    the queue returns.  The command buffers it submits are the primary ones,
    in the order recorded; every recorded buffer, primary or not, is appended
    to the dependencies of the current fence, whose semaphore list becomes
    the signal semaphores of the task; the other fences and the ring are
    unchanged. *)
Theorem finish_submission :
  let m1 := (after_late_transfer ext m).2 in
  let f1 := mkFence (fence_vk f) (dependentCommandBuffers f ++ recorded)
              (signalSemaphores (task m)) in
  exists info r m',
    finish ext recorded m = inr (r, m')
    /\ new_events m1 m' = [EvQueueSubmit q info i]
    /\ pCommandBuffers info = cb_vk <$> filter is_primary recorded
    /\ (r, device m') = Queue_submit ext q info f1 (device m1)
    /\ _fences (task m') = <[Z.to_nat i := f1]> (_fences (task m))
    /\ _indices (task m') = _indices (task m).
Proof.
  intros m1 f1.
  destruct finish_submits as (Hrun & Hf & Hi & _ & Hs & _). fold m1 in Hrun, Hf, Hi, Hs.
  rewrite Hrun. cbv zeta. unfold attached. rewrite Hs. fold f1.
  destruct (Queue_submit ext q (submission (task m1) recorded) f1 (device m1))
    as [r d'] eqn:Hq.
  exists (submission (task m1) recorded), r. eexists. split; [done|].
  split; [by apply new_events_app|]. split; [done|]. split; [done|].
  cbn. by rewrite Hf, Hi.
Qed.

(** X10. The wait list of that submission is: the completion semaphore of
    the early transfer and that of the late transfer, where the task has
    produced one, the "image available" semaphore of every window that holds
    an image, and the wait semaphores of the task, in this order, each with
    its stage mask at the same position.  The signal list is the
    consumer-completed semaphore of each transfer task whose completion is
    waited on, then the signal semaphores of the task; each such transfer
    task gets its consumer-completed semaphore appended to its wait list. *)
Theorem finish_semaphore_lists :
  let m1 := (after_late_transfer ext m).2 in
  let early := earlyTransferTask (task m) in
  let late := lateTransferTask (task m1) in
  let waits :=
    completion early ++ completion late ++ acquired (windows (task m))
    ++ waitSemaphores (task m) in
  exists info r m',
    finish ext recorded m = inr (r, m')
    /\ new_events m1 m' = [EvQueueSubmit q info i]
    /\ pWaitSemaphores info = sem_vk <$> waits
    /\ pWaitDstStageMask info = pipelineStageFlags <$> waits
    /\ length (pWaitSemaphores info) = length (pWaitDstStageMask info)
    /\ pSignalSemaphores info
       = sem_vk <$>
           (consumer early (earlyTransferTaskConsumerCompletedSemaphore (task m))
            ++ consumer late (lateTransferTaskConsumerCompletedSemaphore (task m))
            ++ signalSemaphores (task m))
    /\ earlyTransferTask (task m')
       = consumed early (earlyTransferTaskConsumerCompletedSemaphore (task m))
    /\ lateTransferTask (task m')
       = consumed late (lateTransferTaskConsumerCompletedSemaphore (task m)).
Proof.
  intros m1 early late waits.
  destruct finish_submits as (Hrun & Hf & Hi & Hw & Hs & Hws & He).
  fold m1 in Hrun, Hf, Hi, Hw, Hs, Hws, He.
  assert (Hce : earlyTransferTaskConsumerCompletedSemaphore (task m1)
                = earlyTransferTaskConsumerCompletedSemaphore (task m)
                /\ lateTransferTaskConsumerCompletedSemaphore (task m1)
                   = lateTransferTaskConsumerCompletedSemaphore (task m)).
  { subst m1. unfold after_late_transfer, after_transfer.
    destruct (lateTransferTask (task m)) as [x|]; [|done].
    by destruct (transferDynamicData ext x (device m)) as [[r0 x'] d']. }
  destruct Hce as [Hce Hcl].
  rewrite Hrun. cbv zeta.
  destruct (Queue_submit ext q _ _ _) as [r d'].
  exists (submission (task m1) recorded), r. eexists. split; [done|].
  split; [by apply new_events_app|].
  unfold submission, wait_list, signal_list. cbn.
  rewrite Hw, Hs, Hws, He, Hce, Hcl. fold early late waits.
  repeat split; try done. by rewrite !length_fmap.
Qed.

End Submission.

(** X11. [finish] with recorded buffers needs a current fence and a queue:
    once the late transfer has succeeded, on a task that has not been
    advanced, or has no queue, it dereferences a null pointer. *)
Theorem finish_null_faults (recorded : list CommandBuffer) (m : Machine) :
  recorded <> [] ->
  (after_late_transfer ext m).1 = VK_SUCCESS ->
  (fence (task m) 0 = None -> finish ext recorded m = inl NullDereference)
  /\ (forall i f,
        fence (task m) 0 = Some i ->
        vec_read (_fences (task m)) i = inr f ->
        (forall w, w ∈ windows (task m) -> 0 <= imageIndex w) ->
        queue (task m) = None ->
        finish ext recorded m = inl NullDereference).
Proof.
  intros Hne Hlate.
  destruct (after_late_transfer ext m) as [r0 m1] eqn:Hm1.
  cbn in Hlate. subst r0.
  destruct (after_late_transfer_ring m m1 _ Hm1)
    as (Hf & Hi & Hw & Hq & _).
  split.
  - intros Hnull. apply (finish_null_fence recorded m m1 Hne Hm1).
    by rewrite (fence_ext (task m) (task m1)).
  - intros i f Hfence Hread Hwin Hqueue.
    apply (finish_null_queue recorded m m1 i f Hne Hm1).
    + by rewrite (fence_ext (task m) (task m1)).
    + by rewrite Hf.
    + apply window_semaphores_acquired. by rewrite Hw.
    + by rewrite Hq.
Qed.

(** ** submit *)

Lemma submit_unfold (frameStamp : FrameStamp) (m : Machine) :
  submit ext frameStamp m
  = match start ext m with
    | inl e => inl e
    | inr (r, m1) =>
        if bool_decide (r ≠ VK_SUCCESS) then inr (r, m1)
        else
          let '(r1, m2) := after_early_transfer ext m1 in
          if bool_decide (r1 ≠ VK_SUCCESS) then inr (r1, m2)
          else
            match record ext [] frameStamp m2 with
            | inl e => inl e
            | inr (r2, recorded, m3) =>
                if bool_decide (r2 ≠ VK_SUCCESS) then inr (r2, m3)
                else finish ext recorded m3
            end
    end.
Proof.
  unfold submit. unfold mbind at 1, M_bind at 1.
  destruct (start ext m) as [e|[r m1]]; [done|].
  case_bool_decide; [done|].
  unfold after_early_transfer, after_transfer.
  destruct m1 as [t1 d1 tr1].
  unfold mbind at 1, M_bind at 1, this at 1. cbn [task device trace].
  destruct (earlyTransferTask t1) as [x|].
  - unfold mbind at 1, M_bind at 1. unfold mbind at 1, M_bind at 1, call at 1.
    cbn [task device trace].
    destruct (transferDynamicData ext x d1) as [[r1 x'] d2].
    unfold mbind at 1, M_bind at 1, update at 1. cbn [task device trace].
    unfold mret at 1, M_ret at 1.
    case_bool_decide; [done|].
    unfold mbind at 1, M_bind at 1.
    destruct (record ext [] frameStamp _) as [e|[[r2 rec] m3]]; [done|].
    by case_bool_decide.
  - unfold mbind at 1, M_bind at 1, mret at 1, M_ret at 1.
    rewrite (bool_decide_eq_false_2 (VK_SUCCESS ≠ VK_SUCCESS))
      by (intros H'; by apply H').
    unfold mbind at 1, M_bind at 1.
    destruct (record ext [] frameStamp _) as [e|[[r2 rec] m3]]; [done|].
    by case_bool_decide.
Qed.

(** X12. A wait on the current fence that fails ends [submit]: it returns
    the status of the wait, and apart from asking the fence for its
    dependencies and waiting on it, it has called nothing: no transfer, no
    command graph, no queue. *)
Theorem submit_wait_failure (frameStamp : FrameStamp) (m : Machine) (i : Z)
    (f : Fence) (r : VkResult) (d1 : Device) :
  fence (task m) 0 = Some i ->
  vec_read (_fences (task m)) i = inr f ->
  hasDependencies ext f (device m) = true ->
  Fence_wait ext f UINT64_MAX (device m) = (r, d1) ->
  r <> VK_SUCCESS ->
  exists m',
    submit ext frameStamp m = inr (r, m')
    /\ new_events m m' = [EvFenceHasDependencies i; EvFenceWait i UINT64_MAX]
    /\ _fences (task m') = _fences (task m).
Proof.
  intros Hf Hread Hdeps Hwait Hr.
  rewrite submit_unfold, (start_spec ext m i f Hf Hread), Hdeps, Hwait.
  rewrite !(bool_decide_eq_true_2 (r ≠ VK_SUCCESS)) by done.
  eexists. split; [done|]. split; [by apply new_events_app|done].
Qed.

(** X13. An early transfer that fails ends [submit] after [start]: it
    returns the status of the transfer, and no command graph has recorded, no
    late transfer has run and nothing has been submitted. *)
Theorem submit_early_transfer_failure (frameStamp : FrameStamp)
    (m m1 : Machine) (x x' : TransferTask) (r : VkResult) (d' : Device) :
  start ext m = inr (VK_SUCCESS, m1) ->
  earlyTransferTask (task m1) = Some x ->
  transferDynamicData ext x (device m1) = (r, x', d') ->
  r <> VK_SUCCESS ->
  exists m',
    submit ext frameStamp m = inr (r, m')
    /\ new_events m1 m' = [EvTransferDynamicData true]
    /\ _fences (task m') = _fences (task m1)
    /\ earlyTransferTask (task m') = Some x'.
Proof.
  intros Hstart He Htr Hr.
  rewrite submit_unfold, Hstart.
  rewrite (bool_decide_eq_false_2 (VK_SUCCESS ≠ VK_SUCCESS))
    by (intros H'; by apply H').
  unfold after_early_transfer, after_transfer. rewrite He, Htr.
  rewrite bool_decide_eq_true_2 by done.
  eexists. split; [done|]. split; [by apply new_events_app|done].
Qed.

(** X14. The calls of a [submit] that returns come in the order of the
    protocol: calls on the current fence, then at most one early transfer,
    then the command graphs, each once and in order, then at most one late
    transfer, then either a sleep or one queue submission.  A late transfer,
    a sleep or a submission is only made after every command graph has
    recorded; there is never more than one queue submission. *)
Theorem submit_protocol_order (frameStamp : FrameStamp) (m m' : Machine)
    (r : VkResult) :
  submit ext frameStamp m = inr (r, m') ->
  exists l0 l1 l2 l3 l4,
    new_events m m' = l0 ++ l1 ++ l2 ++ l3 ++ l4
    /\ Forall (fun e => is_fence_event e = true) l0
    /\ (l1 = [] \/ l1 = [EvTransferDynamicData true])
    /\ (l2 = []
        \/ l2 = EvRecord <$> seq 0 (length (commandGraphs (task m))))
    /\ (l3 = [] \/ l3 = [EvTransferDynamicData false])
    /\ (l4 = [] \/ l4 = [EvSleep 16]
        \/ exists q info i, l4 = [EvQueueSubmit q info i])
    /\ (l3 ++ l4 <> [] ->
        l2 = EvRecord <$> seq 0 (length (commandGraphs (task m)))).
Proof.
  intros Hrun. rewrite submit_unfold in Hrun.
  destruct (start ext m) as [e|[r0 m1]] eqn:Hstart; [done|].
  destruct (start_cases m m1 r0 Hstart) as (i & f & l0 & _ & _ & Htr0 & Hcase).
  assert (Hl0 : Forall (fun e => is_fence_event e = true) l0).
  { destruct Hcase as [[-> _]|[[-> _]|[-> _]]]; repeat constructor. }
  assert (Hcg1 : commandGraphs (task m1) = commandGraphs (task m)).
  { destruct Hcase as [[_ ->]|[[_ ->]|[_ [f' ->]]]]; done. }
  exists l0.
  case_bool_decide as Hr0.
  { injection Hrun as _ <-. exists [], [], [], [].
    rewrite !app_nil_r. split; [by apply new_events_app|].
    repeat split; auto. done. }
  destruct (after_early_transfer ext m1) as [r1 m2] eqn:Hearly.
  assert (Hm2 : exists l1, trace m2 = trace m1 ++ l1
                           /\ (l1 = [] \/ l1 = [EvTransferDynamicData true])
                           /\ commandGraphs (task m2) = commandGraphs (task m1)).
  { unfold after_early_transfer, after_transfer in Hearly.
    destruct (earlyTransferTask (task m1)) as [x|].
    - destruct (transferDynamicData ext x (device m1)) as [[r' x'] d'].
      injection Hearly as _ <-. eexists. split; [done|]. split; [by right|done].
    - injection Hearly as _ <-. exists []. rewrite app_nil_r. auto. }
  destruct Hm2 as (l1 & Htr1 & Hl1 & Hcg2). exists l1.
  case_bool_decide as Hr1.
  { injection Hrun as _ <-. exists [], [], [].
    rewrite !app_nil_r. split; [apply new_events_app; by rewrite Htr1, Htr0, <- app_assoc|].
    repeat split; auto. done. }
  destruct (record_run [] frameStamp m2) as (cgs' & rec' & d' & Hrec & Hlen).
  rewrite Hrec in Hrun.
  rewrite (bool_decide_eq_false_2 (VK_SUCCESS ≠ VK_SUCCESS)) in Hrun
    by (intros H'; by apply H').
  destruct (finish_cases _ _ _ _ Hrun) as (l3 & l4 & Htr3 & Hl3 & Hl4).
  cbn [trace] in Htr3. rewrite Hcg2, Hcg1 in Htr3.
  exists (EvRecord <$> seq 0 (length (commandGraphs (task m)))), l3, l4.
  split.
  { apply new_events_app. rewrite Htr3, Htr1, Htr0.
    by rewrite <- !app_assoc. }
  repeat split; auto.
Qed.

End Protocol.

(** *** The properties at concrete tasks *)

Lemma start_with_dependencies_witness :
  fence (task Demo.busy) 0 = Some 0
  /\ hasDependencies (Demo.ext VK_SUCCESS)
       (mkFence 0 [mkCommandBuffer 7 VK_COMMAND_BUFFER_LEVEL_PRIMARY] [])
       (device Demo.busy) = true
  /\ exists m',
       start (Demo.ext VK_SUCCESS) Demo.busy = inr (VK_SUCCESS, m')
       /\ _fences (task m')
          = [mkFence 0 [] []; mkFence 1 [] []; mkFence 2 [] []].
Proof.
  set (f := mkFence 0 [mkCommandBuffer 7 VK_COMMAND_BUFFER_LEVEL_PRIMARY] []).
  assert (H1 : fence (task Demo.busy) 0 = Some 0) by (vm_compute; reflexivity).
  assert (H2 : vec_read (_fences (task Demo.busy)) 0 = inr f)
    by (vm_compute; reflexivity).
  assert (H3 : hasDependencies (Demo.ext VK_SUCCESS) f (device Demo.busy) = true)
    by reflexivity.
  assert (H4 : Fence_wait (Demo.ext VK_SUCCESS) f UINT64_MAX (device Demo.busy)
               = (VK_SUCCESS, device Demo.busy)) by reflexivity.
  split; [exact H1|]. split; [exact H3|].
  destruct (start_with_dependencies (Demo.ext VK_SUCCESS) Demo.busy 0 f
              VK_SUCCESS (device Demo.busy) H1 H2 H3 H4)
    as (m' & Hrun & _ & Hok).
  exists m'. split; [exact Hrun|].
  destruct (Hok eq_refl) as (_ & Hfences & _). rewrite Hfences.
  vm_compute. reflexivity.
Defined.

Lemma start_clears_transfer_signals_witness :
  start (Demo.ext VK_SUCCESS) Demo.busy = inr (VK_SUCCESS, Demo.busy_started)
  /\ _indices (task Demo.busy_started) = _indices (task Demo.busy).
Proof.
  assert (H1 : start (Demo.ext VK_SUCCESS) Demo.busy
               = inr (VK_SUCCESS, Demo.busy_started))
    by (vm_compute; reflexivity).
  split; [exact H1|].
  exact (proj1 (proj2 (proj2 (proj2
    (start_clears_transfer_signals (Demo.ext VK_SUCCESS) Demo.busy
       Demo.busy_started VK_SUCCESS H1))))).
Defined.

Lemma finish_aborts_on_late_transfer_witness :
  lateTransferTask (task Demo.failing) = Some (mkTransferTask None [] tt)
  /\ Demo.VK_ERROR_DEVICE_LOST <> VK_SUCCESS
  /\ exists m',
       finish (Demo.ext Demo.VK_ERROR_DEVICE_LOST) Demo2.two_buffers Demo.failing
       = inr (Demo.VK_ERROR_DEVICE_LOST, m')
       /\ _fences (task m') = _fences (task Demo.failing).
Proof.
  assert (H1 : lateTransferTask (task Demo.failing)
               = Some (mkTransferTask None [] tt)) by reflexivity.
  assert (H2 : transferDynamicData (Demo.ext Demo.VK_ERROR_DEVICE_LOST)
                 (mkTransferTask None [] tt) (device Demo.failing)
               = (Demo.VK_ERROR_DEVICE_LOST, mkTransferTask None [] tt,
                  device Demo.failing)) by reflexivity.
  assert (H3 : Demo.VK_ERROR_DEVICE_LOST <> VK_SUCCESS) by discriminate.
  split; [exact H1|]. split; [exact H3|].
  destruct (finish_aborts_on_late_transfer (Demo.ext Demo.VK_ERROR_DEVICE_LOST)
              Demo2.two_buffers Demo.failing _ _ _ _ H1 H2 H3)
    as (m' & Hrun & _ & Hfences & _).
  by exists m'.
Defined.

Lemma ready_hypotheses :
  Demo2.two_buffers <> []
  /\ (FrameProtocol.after_late_transfer Demo2.healthy Demo2.ready).1 = VK_SUCCESS
  /\ fence (task Demo2.ready) 0 = Some 0
  /\ vec_read (_fences (task Demo2.ready)) 0 = inr (mkFence 0 [] [])
  /\ (forall w, w ∈ windows (task Demo2.ready) -> 0 <= imageIndex w)
  /\ queue (task Demo2.ready) = Some 9.
Proof.
  split; [discriminate|]. split; [vm_compute; reflexivity|].
  split; [vm_compute; reflexivity|]. split; [vm_compute; reflexivity|].
  split; [|reflexivity].
  intros w Hw. cbn in Hw.
  repeat (apply elem_of_cons in Hw as [->|Hw]; [cbn; lia|]).
  by apply elem_of_nil in Hw.
Defined.

Lemma finish_submission_witness :
  Demo2.two_buffers <> []
  /\ queue (task Demo2.ready) = Some 9
  /\ exists info r m',
       finish Demo2.healthy Demo2.two_buffers Demo2.ready = inr (r, m')
       /\ pCommandBuffers info = [100]
       /\ _fences (task m')
          = [mkFence 0 Demo2.two_buffers [mkSemaphore 70 0];
             mkFence 1 [] []; mkFence 2 [] []].
Proof.
  destruct ready_hypotheses as (H1 & H2 & H3 & H4 & H5 & H6).
  split; [exact H1|]. split; [exact H6|].
  destruct (finish_submission Demo2.healthy Demo2.two_buffers Demo2.ready
              0 (mkFence 0 [] []) 9 H1 H2 H3 H4 H5 H6)
    as (info & r & m' & Hrun & _ & Hcb & _ & Hfences & _).
  exists info, r, m'. split; [exact Hrun|].
  split; [rewrite Hcb; vm_compute; reflexivity|].
  rewrite Hfences. vm_compute. reflexivity.
Defined.

Lemma finish_semaphore_lists_witness :
  queue (task Demo2.ready) = Some 9
  /\ exists info r m',
       finish Demo2.healthy Demo2.two_buffers Demo2.ready = inr (r, m')
       /\ pWaitSemaphores info = [100; 50; 60]
       /\ pWaitDstStageMask info = [8; 1024; 1]
       /\ pSignalSemaphores info = [4; 70].
Proof.
  destruct ready_hypotheses as (H1 & H2 & H3 & H4 & H5 & H6).
  split; [exact H6|].
  destruct (finish_semaphore_lists Demo2.healthy Demo2.two_buffers Demo2.ready
              0 (mkFence 0 [] []) 9 H1 H2 H3 H4 H5 H6)
    as (info & r & m' & Hrun & _ & Hw & Hs & _ & Hsig & _).
  exists info, r, m'. split; [exact Hrun|].
  split; [rewrite Hw; vm_compute; reflexivity|].
  split; [rewrite Hs; vm_compute; reflexivity|].
  rewrite Hsig. vm_compute. reflexivity.
Defined.

Lemma finish_null_faults_witness :
  Demo2.two_buffers <> []
  /\ (FrameProtocol.after_late_transfer Demo2.healthy Demo.fresh).1 = VK_SUCCESS
  /\ fence (task Demo.fresh) 0 = None
  /\ finish Demo2.healthy Demo2.two_buffers Demo.fresh = inl NullDereference.
Proof.
  assert (H1 : Demo2.two_buffers <> []) by discriminate.
  assert (H2 : (FrameProtocol.after_late_transfer Demo2.healthy Demo.fresh).1
               = VK_SUCCESS) by (vm_compute; reflexivity).
  assert (H3 : fence (task Demo.fresh) 0 = None) by (vm_compute; reflexivity).
  split; [exact H1|]. split; [exact H2|]. split; [exact H3|].
  exact (proj1 (finish_null_faults Demo2.healthy Demo2.two_buffers Demo.fresh
                  H1 H2) H3).
Defined.

Lemma submit_wait_failure_witness :
  fence (task Demo2.ready_busy) 0 = Some 0
  /\ Demo2.VK_TIMEOUT <> VK_SUCCESS
  /\ exists m',
       submit (Demo2.collaborators Demo2.VK_TIMEOUT VK_SUCCESS) tt Demo2.ready_busy
       = inr (Demo2.VK_TIMEOUT, m')
       /\ new_events Demo2.ready_busy m'
          = [EvFenceHasDependencies 0; EvFenceWait 0 UINT64_MAX].
Proof.
  set (f := mkFence 0 [mkCommandBuffer 7 VK_COMMAND_BUFFER_LEVEL_PRIMARY] []).
  assert (H1 : fence (task Demo2.ready_busy) 0 = Some 0)
    by (vm_compute; reflexivity).
  assert (H2 : vec_read (_fences (task Demo2.ready_busy)) 0 = inr f)
    by (vm_compute; reflexivity).
  assert (H3 : hasDependencies (Demo2.collaborators Demo2.VK_TIMEOUT VK_SUCCESS) f
                 (device Demo2.ready_busy) = true) by reflexivity.
  assert (H4 : Fence_wait (Demo2.collaborators Demo2.VK_TIMEOUT VK_SUCCESS) f UINT64_MAX
                 (device Demo2.ready_busy)
               = (Demo2.VK_TIMEOUT, device Demo2.ready_busy)) by reflexivity.
  assert (H5 : Demo2.VK_TIMEOUT <> VK_SUCCESS) by discriminate.
  split; [exact H1|]. split; [exact H5|].
  destruct (submit_wait_failure (Demo2.collaborators Demo2.VK_TIMEOUT VK_SUCCESS) tt
              Demo2.ready_busy 0 f _ _ H1 H2 H3 H4 H5)
    as (m' & Hrun & Hev & _).
  by exists m'.
Defined.

Lemma submit_early_transfer_failure_witness :
  start (Demo2.collaborators VK_SUCCESS Demo.VK_ERROR_DEVICE_LOST) Demo2.ready
  = inr (VK_SUCCESS,
         Demo2.after (start (Demo2.collaborators VK_SUCCESS Demo.VK_ERROR_DEVICE_LOST))
           Demo2.ready)
  /\ Demo.VK_ERROR_DEVICE_LOST <> VK_SUCCESS
  /\ exists m',
       submit (Demo2.collaborators VK_SUCCESS Demo.VK_ERROR_DEVICE_LOST) tt Demo2.ready
       = inr (Demo.VK_ERROR_DEVICE_LOST, m')
       /\ filter is_submit (trace m') = [].
Proof.
  set (e := Demo2.collaborators VK_SUCCESS Demo.VK_ERROR_DEVICE_LOST).
  set (m1 := Demo2.after (start e) Demo2.ready).
  assert (H1 : start e Demo2.ready = inr (VK_SUCCESS, m1))
    by (vm_compute; reflexivity).
  assert (H2 : earlyTransferTask (task m1) = Some (mkTransferTask None [] tt))
    by (vm_compute; reflexivity).
  assert (H3 : transferDynamicData e (mkTransferTask None [] tt) (device m1)
               = (Demo.VK_ERROR_DEVICE_LOST,
                  mkTransferTask (Some (mkSemaphore 100 8)) [] tt, 101))
    by (vm_compute; reflexivity).
  assert (H4 : Demo.VK_ERROR_DEVICE_LOST <> VK_SUCCESS) by discriminate.
  split; [exact H1|]. split; [exact H4|].
  destruct (submit_early_transfer_failure e tt Demo2.ready m1 _ _ _ _
              H1 H2 H3 H4) as (m' & Hrun & _).
  exists m'. split; [exact Hrun|].
  assert (Hm' : submit e tt Demo2.ready
                = inr (Demo.VK_ERROR_DEVICE_LOST, Demo2.after (submit e tt) Demo2.ready))
    by (vm_compute; reflexivity).
  rewrite Hm' in Hrun. injection Hrun as <-. vm_compute. reflexivity.
Defined.

Lemma submit_protocol_order_witness :
  submit Demo2.healthy tt Demo2.ready
  = inr (VK_SUCCESS, Demo2.after (submit Demo2.healthy tt) Demo2.ready)
  /\ exists l0 l1 l2 l3 l4,
       new_events Demo2.ready (Demo2.after (submit Demo2.healthy tt) Demo2.ready)
       = l0 ++ l1 ++ l2 ++ l3 ++ l4
       /\ (l2 = [] \/ l2 = [EvRecord 0; EvRecord 1]).
Proof.
  assert (H1 : submit Demo2.healthy tt Demo2.ready
               = inr (VK_SUCCESS,
                      Demo2.after (submit Demo2.healthy tt) Demo2.ready))
    by (vm_compute; reflexivity).
  split; [exact H1|].
  destruct (submit_protocol_order Demo2.healthy tt Demo2.ready _ _ H1)
    as (l0 & l1 & l2 & l3 & l4 & Hev & _ & _ & Hl2 & _).
  exists l0, l1, l2, l3, l4. split; [exact Hev|exact Hl2].
Defined.

End FrameProtocolSpec.

(** * Further properties of updateTasks *)

Module UpdateTasksSpec.
Import RecordAndSubmitTask RecordAndSubmitTaskSpec UpdateTasks.

Section Update.
Context {Device TransferState GraphState FrameStamp : Type}.
Context {DynamicData CompileManager PagerState : Type}.

#[local] Abbreviation Task := (@Task TransferState GraphState).
#[local] Abbreviation TransferTask := (@TransferTask TransferState).
#[local] Abbreviation CompileResult := (@CompileResult DynamicData).
#[local] Abbreviation DatabasePager := (@DatabasePager CompileManager PagerState).
#[local] Abbreviation Scene := (@Scene CompileManager PagerState).
#[local] Abbreviation External :=
  (@External Device TransferState GraphState FrameStamp DynamicData
     CompileManager PagerState).

Variable ext : External.

Lemma assign_dynamic_data_offered (cr : CompileResult) (t : Task) :
  earlyTransferTask (assign_dynamic_data ext cr t)
  = offered ext (earlyDynamicData cr) (earlyTransferTask t)
  /\ lateTransferTask (assign_dynamic_data ext cr t)
     = offered ext (lateDynamicData cr) (lateTransferTask t)
  /\ commandGraphs (assign_dynamic_data ext cr t) = commandGraphs t
  /\ databasePager (assign_dynamic_data ext cr t) = databasePager t
  /\ same_ring t (assign_dynamic_data ext cr t)
  /\ windows (assign_dynamic_data ext cr t) = windows t
  /\ queue (assign_dynamic_data ext cr t) = queue t.
Proof.
  unfold assign_dynamic_data, offered, same_ring.
  destruct (earlyTransferTask t) as [x|] eqn:He;
    destruct (DynamicData_bool ext (earlyDynamicData cr));
    cbn; destruct (lateTransferTask t) as [y|] eqn:Hl;
    destruct (DynamicData_bool ext (lateDynamicData cr));
    cbn; rewrite ?He, ?Hl; done.
Qed.

Lemma assign_dynamic_data_nothing (cr : CompileResult) (t : Task) :
  DynamicData_bool ext (earlyDynamicData cr) = false ->
  DynamicData_bool ext (lateDynamicData cr) = false ->
  assign_dynamic_data ext cr t = t.
Proof.
  intros He Hl. unfold assign_dynamic_data. rewrite He, Hl.
  destruct (earlyTransferTask t); by destruct (lateTransferTask t).
Qed.

Lemma first_pager_found (tasks : list Task) (found : nat) :
  foldl (fun found t =>
           match databasePager t, found with
           | Some p, None => Some p
           | _, _ => found
           end) (Some found) tasks = Some found.
Proof.
  induction tasks as [|t tasks IH]; [done|]. cbn.
  by destruct (databasePager t).
Qed.

Lemma first_pager_None (tasks : list Task) :
  first_pager tasks = None <-> Forall (fun t => databasePager t = None) tasks.
Proof.
  unfold first_pager. induction tasks as [|t tasks IH]; [by split|].
  cbn. destruct (databasePager t) as [p|] eqn:Hp.
  - rewrite first_pager_found. split; [done|].
    intros H. apply Forall_cons in H as [H _]. congruence.
  - rewrite IH. split; [by constructor|]. intros H.
    by apply Forall_cons in H as [_ H].
Qed.

Lemma foldl_assign_pager (cm : CompileManager) (p : nat) (tasks : list Task)
    (acc : list Task * list DatabasePager) :
  Forall (fun t => databasePager t = None) tasks ->
  foldl (assign_pager cm p) acc tasks
  = (acc.1 ++ (set_databasePager (Some p) <$> tasks),
     match tasks with
     | [] => acc.2
     | _ => alter (fun pg => mkDatabasePager (Some cm) (pager_state pg)) p acc.2
     end).
Proof.
  revert acc. induction tasks as [|t tasks IH]; intros acc Hall.
  - cbn. rewrite app_nil_r. by destruct acc.
  - apply Forall_cons in Hall as [Ht Hall]. cbn [foldl].
    rewrite IH by done. unfold assign_pager. rewrite Ht. cbn.
    rewrite <- app_assoc. f_equal.
    destruct tasks; [done|].
    rewrite list_alter_alter_eq. by apply list_alter_ext.
Qed.

Lemma update_pagers_fresh (cm : CompileManager) (tasks : list Task)
    (pgs : list DatabasePager) :
  Forall (fun t => databasePager t = None) tasks ->
  update_pagers ext cm tasks pgs
  = (set_databasePager (Some (length pgs)) <$> tasks,
     pgs ++ [DatabasePager_start ext
               match tasks with
               | [] => DatabasePager_create ext
               | _ => mkDatabasePager (Some cm)
                        (pager_state (DatabasePager_create ext))
               end]).
Proof.
  intros Hall. unfold update_pagers.
  rewrite (proj2 (first_pager_None tasks) Hall).
  rewrite foldl_assign_pager by done. cbn.
  f_equal. destruct tasks as [|t tasks].
  - by rewrite <- (Nat.add_0_r (length pgs)), alter_app_r.
  - rewrite <- (Nat.add_0_r (length pgs)), !alter_app_r. done.
Qed.

Lemma update_pagers_kept (cm : CompileManager) (tasks : list Task)
    (pgs : list DatabasePager) :
  Exists (fun t => is_Some (databasePager t)) tasks ->
  update_pagers ext cm tasks pgs = (tasks, pgs).
Proof.
  intros Hex. unfold update_pagers.
  destruct (first_pager tasks) as [p|] eqn:Hp; [done|].
  apply first_pager_None in Hp. apply Exists_exists in Hex as (t & Ht & [p Hp']).
  rewrite Forall_forall in Hp. rewrite (Hp t Ht) in Hp'. done.
Qed.

Lemma update_pagers_given (cm : CompileManager) (tasks : list Task)
    (pgs : list DatabasePager) :
  (update_pagers ext cm tasks pgs).1 = tasks
  \/ (update_pagers ext cm tasks pgs).1 = given_pager (length pgs) <$> tasks.
Proof.
  destruct (decide (Forall (fun t => databasePager t = None) tasks))
    as [Hall|Hex].
  - right. rewrite update_pagers_fresh by done. cbn.
    apply list_fmap_ext. intros j t Ht. unfold given_pager.
    rewrite Forall_forall in Hall.
    by rewrite (Hall t (list_elem_of_lookup_2 _ _ _ Ht)).
  - left. apply not_Forall_Exists in Hex; [|intros t; apply _].
    rewrite update_pagers_kept; [done|].
    eapply Exists_impl; [exact Hex|]. intros t Ht. cbn in Ht.
    by destruct (databasePager t); [eexists|].
Qed.

(** the tasks and the scene a run of [updateTasks] that returns leaves *)
Lemma updateTasks_run (tasks tasks' : list Task) (cm : CompileManager)
    (cr : CompileResult) (sc sc' : Scene) :
  updateTasks ext tasks cm cr sc = inr (tasks', sc') ->
  (tasks', pagers sc')
  = (if containsPagedLOD cr
     then update_pagers ext cm (refreshed ext cr <$> tasks) (pagers sc)
     else (refreshed ext cr <$> tasks, pagers sc))
  /\ foldl update_view (inr (view_heap sc)) (views cr) = inr (view_heap sc').
Proof.
  unfold updateTasks.
  assert (Htasks1 :
    (if DynamicData_bool ext (earlyDynamicData cr)
        || DynamicData_bool ext (lateDynamicData cr)
     then assign_dynamic_data ext cr <$> tasks else tasks)
    = assign_dynamic_data ext cr <$> tasks).
  { destruct (DynamicData_bool ext (earlyDynamicData cr)) eqn:He; [done|].
    destruct (DynamicData_bool ext (lateDynamicData cr)) eqn:Hl; [done|].
    cbn. rewrite <- (list_fmap_id tasks) at 1. apply list_fmap_ext.
    intros j t _. cbn. by rewrite assign_dynamic_data_nothing. }
  rewrite Htasks1, <- list_fmap_compose.
  change (fun t : Task => set_commandGraphs _ t) with
    (fun t : Task => set_commandGraphs (raise_maxSlot cr <$> commandGraphs t) t).
  fold (refreshed ext cr).
  destruct (if containsPagedLOD cr then _ else _) as [tasks3 pagers3].
  destruct (foldl update_view _ _) as [e|heap]; [done|].
  by intros [= <- <-].
Qed.

Lemma updateTasks_tasks (tasks tasks' : list Task) (cm : CompileManager)
    (cr : CompileResult) (sc sc' : Scene) :
  updateTasks ext tasks cm cr sc = inr (tasks', sc') ->
  tasks' = refreshed ext cr <$> tasks
  \/ tasks' = given_pager (length (pagers sc)) <$> (refreshed ext cr <$> tasks).
Proof.
  intros Hrun. destruct (updateTasks_run _ _ _ _ _ _ Hrun) as [Htasks _].
  destruct (containsPagedLOD cr).
  - assert (H1 : tasks'
                 = (update_pagers ext cm (refreshed ext cr <$> tasks) (pagers sc)).1)
      by (by rewrite <- Htasks).
    rewrite H1.
    destruct (update_pagers_given cm (refreshed ext cr <$> tasks) (pagers sc));
      auto.
  - left. congruence.
Qed.

(** a field of the tasks that neither step of [updateTasks] changes, or
    that the first step changes to [g] *)
Lemma updateTasks_field {A} (field : Task -> A) (g : Task -> A)
    (tasks tasks' : list Task) (cm : CompileManager) (cr : CompileResult)
    (sc sc' : Scene) :
  (forall t, field (refreshed ext cr t) = g t) ->
  (forall p t, field (given_pager p t) = field t) ->
  updateTasks ext tasks cm cr sc = inr (tasks', sc') ->
  field <$> tasks' = g <$> tasks.
Proof.
  intros Hg Hp Hrun.
  destruct (updateTasks_tasks _ _ _ _ _ _ Hrun) as [->| ->];
    rewrite <- !list_fmap_compose; apply list_fmap_ext; intros j t _; cbn;
    by rewrite ?Hp, Hg.
Qed.

Lemma given_pager_fields (p : nat) (t : Task) :
  commandGraphs (given_pager p t) = commandGraphs t
  /\ earlyTransferTask (given_pager p t) = earlyTransferTask t
  /\ lateTransferTask (given_pager p t) = lateTransferTask t
  /\ _indices (given_pager p t) = _indices t
  /\ _currentFrameIndex (given_pager p t) = _currentFrameIndex t
  /\ _fences (given_pager p t) = _fences t
  /\ windows (given_pager p t) = windows t
  /\ queue (given_pager p t) = queue t.
Proof. unfold given_pager. by destruct (databasePager t). Qed.

(** X15. [updateTasks] raises the slot count of every command graph of
    every task to that of the compile result and never lowers one: each
    [maxSlot] becomes the larger of the two; the command graphs are otherwise
    unchanged. *)
Theorem updateTasks_maxSlot (tasks tasks' : list Task) (cm : CompileManager)
    (cr : CompileResult) (sc sc' : Scene) :
  updateTasks ext tasks cm cr sc = inr (tasks', sc') ->
  (fun t => maxSlot <$> commandGraphs t) <$> tasks'
  = (fun t => (fun cg => Z.max (maxSlot cg) (cr_maxSlot cr)) <$> commandGraphs t)
      <$> tasks
  /\ (fun t => cg_state <$> commandGraphs t) <$> tasks'
     = (fun t => cg_state <$> commandGraphs t) <$> tasks.
Proof.
  intros Hrun.
  assert (Hcg : forall t, commandGraphs (refreshed ext cr t)
                          = raise_maxSlot cr <$> commandGraphs t).
  { intros t. unfold refreshed. cbn.
    by rewrite (proj1 (proj2 (proj2 (assign_dynamic_data_offered cr t)))). }
  split.
  - apply (updateTasks_field _ _ _ _ _ _ _ _) with (3 := Hrun).
    + intros t. rewrite Hcg, <- list_fmap_compose.
      apply list_fmap_ext. intros j cg _. cbn. unfold raise_maxSlot.
      case_bool_decide; cbn; lia.
    + intros p t. by rewrite (proj1 (given_pager_fields p t)).
  - apply (updateTasks_field _ _ _ _ _ _ _ _) with (3 := Hrun).
    + intros t. rewrite Hcg, <- list_fmap_compose.
      apply list_fmap_ext. intros j cg _. cbn. unfold raise_maxSlot.
      by case_bool_decide.
    + intros p t. by rewrite (proj1 (given_pager_fields p t)).
Qed.

(** X16. [updateTasks] routes the dynamic data by kind: the early data of
    the compile result is assigned to the early transfer task of every task
    that has one, and only when the data is not empty; the late data to the
    late transfer task, likewise.  Neither kind reaches the other transfer
    task. *)
Theorem updateTasks_routes_dynamic_data (tasks tasks' : list Task)
    (cm : CompileManager) (cr : CompileResult) (sc sc' : Scene) :
  updateTasks ext tasks cm cr sc = inr (tasks', sc') ->
  earlyTransferTask <$> tasks'
  = (fun t =>
       if DynamicData_bool ext (earlyDynamicData cr)
       then (fun x => TransferTask_assign ext x (earlyDynamicData cr))
              <$> earlyTransferTask t
       else earlyTransferTask t) <$> tasks
  /\ lateTransferTask <$> tasks'
     = (fun t =>
          if DynamicData_bool ext (lateDynamicData cr)
          then (fun x => TransferTask_assign ext x (lateDynamicData cr))
                 <$> lateTransferTask t
          else lateTransferTask t) <$> tasks.
Proof.
  intros Hrun. split.
  - apply (updateTasks_field _ _ _ _ _ _ _ _) with (3 := Hrun).
    + intros t. unfold refreshed. cbn.
      apply (assign_dynamic_data_offered cr t).
    + intros p t. apply (given_pager_fields p t).
  - apply (updateTasks_field _ _ _ _ _ _ _ _) with (3 := Hrun).
    + intros t. unfold refreshed. cbn.
      apply (assign_dynamic_data_offered cr t).
    + intros p t. apply (given_pager_fields p t).
Qed.

Lemma databasePager_refreshed (cr : CompileResult) (t : Task) :
  databasePager (refreshed ext cr t) = databasePager t.
Proof. unfold refreshed. cbn. apply (assign_dynamic_data_offered cr t). Qed.

(** X17. When the compile result contains paged content and no task has a
    database pager, [updateTasks] creates one pager, stores it behind the
    pagers there were, gives it to every task, sets its compile manager and
    then starts it. *)
Theorem updateTasks_pager_created (tasks tasks' : list Task)
    (cm : CompileManager) (cr : CompileResult) (sc sc' : Scene) :
  updateTasks ext tasks cm cr sc = inr (tasks', sc') ->
  containsPagedLOD cr = true ->
  Forall (fun t => databasePager t = None) tasks ->
  tasks <> [] ->
  databasePager <$> tasks' = (fun _ => Some (length (pagers sc))) <$> tasks
  /\ pagers sc'
     = pagers sc
       ++ [DatabasePager_start ext
             (mkDatabasePager (Some cm) (pager_state (DatabasePager_create ext)))].
Proof.
  intros Hrun Hpaged Hnone Hne.
  destruct (updateTasks_run _ _ _ _ _ _ Hrun) as [Htasks _].
  rewrite Hpaged, update_pagers_fresh in Htasks.
  2: { apply Forall_fmap. eapply Forall_impl; [exact Hnone|].
       intros t Ht. change (databasePager (refreshed ext cr t) = None).
       by rewrite databasePager_refreshed. }
  injection Htasks as -> ->. split.
  - rewrite <- !list_fmap_compose. by apply list_fmap_ext.
  - by destruct tasks.
Qed.

(** X18. When the compile result contains no paged content, or some task
    already has a database pager, [updateTasks] creates no pager and changes
    the pager of no task: in the second case the tasks without a pager stay
    without one. *)
Theorem updateTasks_pager_kept (tasks tasks' : list Task)
    (cm : CompileManager) (cr : CompileResult) (sc sc' : Scene) :
  updateTasks ext tasks cm cr sc = inr (tasks', sc') ->
  containsPagedLOD cr = false
  \/ Exists (fun t => is_Some (databasePager t)) tasks ->
  databasePager <$> tasks' = databasePager <$> tasks
  /\ pagers sc' = pagers sc.
Proof.
  intros Hrun Hcase.
  destruct (updateTasks_run _ _ _ _ _ _ Hrun) as [Htasks _].
  assert (Hkept : (tasks', pagers sc') = (refreshed ext cr <$> tasks, pagers sc)).
  { destruct (containsPagedLOD cr); [|done].
    destruct Hcase as [?|Hex]; [done|].
    rewrite update_pagers_kept in Htasks; [done|].
    apply Exists_fmap. eapply Exists_impl; [exact Hex|].
    intros t Ht. change (is_Some (databasePager (refreshed ext cr t))).
    by rewrite databasePager_refreshed. }
  injection Hkept as -> ->. split; [|done].
  rewrite <- list_fmap_compose. apply list_fmap_ext. intros j t _.
  apply databasePager_refreshed.
Qed.

Lemma foldl_update_view_fault (vs : list (nat * BinDetails)) (e : Fault) :
  foldl update_view (inl e) vs = inl e.
Proof. induction vs as [|v vs IH]; [done|]. exact IH. Qed.

Lemma foldl_update_view_valid (vs : list (nat * BinDetails))
    (h h' : gmap nat View) :
  foldl update_view (inr h) vs = inr h' ->
  forall e, e ∈ vs -> is_Some (h !! e.1).
Proof.
  revert h. induction vs as [|v vs IH]; intros h Hrun e He.
  - by apply elem_of_nil in He.
  - cbn in Hrun. destruct (h !! v.1) as [view|] eqn:Hv;
      [|by rewrite foldl_update_view_fault in Hrun].
    apply elem_of_cons in He as [->|He]; [by eexists|].
    specialize (IH _ Hrun e He).
    destruct (decide (v.1 = e.1)) as [Heq|Hne].
    + rewrite <- Heq. by eexists.
    + by rewrite lookup_insert_ne in IH.
Qed.

Lemma foldl_ensure_bin_covered (ns : list Z) (bs : list Bin) :
  (forall n, n ∈ ns -> n ∈ binNumber <$> bs) ->
  foldl ensure_bin bs ns = bs.
Proof.
  induction ns as [|n ns IH]; intros Hcover; [done|]. cbn.
  unfold ensure_bin at 2.
  rewrite (proj2 (binNumberMatched_true bs n))
    by (apply Hcover, elem_of_cons; by left).
  apply IH. intros n' Hn'. apply Hcover, elem_of_cons. by right.
Qed.

Lemma foldl_update_view_fixed (vs : list (nat * BinDetails)) (h : gmap nat View) :
  (forall e, e ∈ vs ->
     exists view, h !! e.1 = Some view
                  /\ forall n, n ∈ indices e.2 -> n ∈ binNumber <$> bins view) ->
  foldl update_view (inr h) vs = inr h.
Proof.
  induction vs as [|e vs IH]; intros Hcover; [done|]. cbn.
  destruct (Hcover e) as (view & Hview & Hnums); [apply elem_of_cons; by left|].
  rewrite Hview, foldl_ensure_bin_covered by done.
  replace (mkView (bins view)) with view by (by destruct view).
  rewrite insert_id by done.
  apply IH. intros e' He'. apply Hcover, elem_of_cons. by right.
Qed.

Lemma updateTasks_returns (tasks : list Task) (cm : CompileManager)
    (cr : CompileResult) (sc : Scene) (heap : gmap nat View) :
  foldl update_view (inr (view_heap sc)) (views cr) = inr heap ->
  exists tasks' pagers',
    updateTasks ext tasks cm cr sc = inr (tasks', mkScene heap pagers').
Proof.
  intros Hheap. unfold updateTasks. rewrite Hheap.
  destruct (if containsPagedLOD cr then _ else _) as [tasks3 pagers3].
  by exists tasks3, pagers3.
Qed.

(** X19. The bins [updateTasks] makes are made once: a second call with the
    same compile result, on the scene the first call left, returns and
    leaves every view as it is, whatever tasks it is given. *)
Theorem updateTasks_bins_idempotent (tasks tasks1 tasks2 : list Task)
    (cm cm2 : CompileManager) (cr : CompileResult) (sc sc1 : Scene) :
  updateTasks ext tasks cm cr sc = inr (tasks1, sc1) ->
  exists tasks3 sc2,
    updateTasks ext tasks2 cm2 cr sc1 = inr (tasks3, sc2)
    /\ view_heap sc2 = view_heap sc1.
Proof.
  intros Hrun.
  destruct (updateTasks_run _ _ _ _ _ _ Hrun) as [_ Hheap].
  pose proof (foldl_update_view_valid _ _ _ Hheap) as Hvalid.
  destruct (foldl_update_view (views cr) (view_heap sc) Hvalid)
    as (h' & Hrun' & Hh').
  rewrite Hheap in Hrun'. injection Hrun' as <-.
  assert (Hfixed : foldl update_view (inr (view_heap sc1)) (views cr)
                   = inr (view_heap sc1)).
  { apply foldl_update_view_fixed. intros e He.
    destruct (Hvalid e He) as [view Hview]. specialize (Hh' e.1).
    rewrite Hview in Hh'. destruct Hh' as (view' & Hlook & _ & Hcover).
    exists view'. split; [done|]. intros n Hn. apply Hcover.
    exists e.2. split; [by destruct e|done]. }
  destruct (updateTasks_returns tasks2 cm2 cr sc1 _ Hfixed)
    as (tasks3 & pagers3 & Hrun2).
  by eexists _, _.
Qed.

(** X20. [updateTasks] keeps the number of tasks and, of every task, the
    ring, the fences, the windows and the queue; and it leaves alone every
    view the compile result does not name. *)
Theorem updateTasks_frame (tasks tasks' : list Task) (cm : CompileManager)
    (cr : CompileResult) (sc sc' : Scene) :
  updateTasks ext tasks cm cr sc = inr (tasks', sc') ->
  length tasks' = length tasks
  /\ _indices <$> tasks' = _indices <$> tasks
  /\ _currentFrameIndex <$> tasks' = _currentFrameIndex <$> tasks
  /\ _fences <$> tasks' = _fences <$> tasks
  /\ windows <$> tasks' = windows <$> tasks
  /\ queue <$> tasks' = queue <$> tasks
  /\ forall v,
       (forall details, (v, details) ∉ views cr) ->
       view_heap sc' !! v = view_heap sc !! v.
Proof.
  intros Hrun.
  assert (Hring : forall t, same_ring t (refreshed ext cr t)
                            /\ windows (refreshed ext cr t) = windows t
                            /\ queue (refreshed ext cr t) = queue t).
  { intros t. unfold refreshed, same_ring. cbn.
    destruct (assign_dynamic_data_offered cr t)
      as (_ & _ & _ & _ & Hsame & Hw & Hq). by destruct Hsame as (? & ? & ?). }
  assert (Hfield : forall {A} (field : Task -> A),
            (forall t, field (refreshed ext cr t) = field t) ->
            (forall p t, field (given_pager p t) = field t) ->
            field <$> tasks' = field <$> tasks).
  { intros A field H1 H2. by apply (updateTasks_field field field) with (3 := Hrun). }
  split.
  { rewrite <- (length_fmap _indices tasks'), <- (length_fmap _indices tasks).
    f_equal. apply Hfield; [apply Hring|apply given_pager_fields]. }
  split; [apply Hfield; [apply Hring|apply given_pager_fields]|].
  split; [apply Hfield; [apply Hring|apply given_pager_fields]|].
  split; [apply Hfield; [apply Hring|apply given_pager_fields]|].
  split; [apply Hfield; [apply Hring|apply given_pager_fields]|].
  split; [apply Hfield; [apply Hring|apply given_pager_fields]|].
  intros v Hunnamed.
  destruct (updateTasks_run _ _ _ _ _ _ Hrun) as [_ Hheap].
  pose proof (foldl_update_view_valid _ _ _ Hheap) as Hvalid.
  destruct (foldl_update_view (views cr) (view_heap sc) Hvalid)
    as (h' & Hrun' & Hh').
  rewrite Hheap in Hrun'. injection Hrun' as <-.
  specialize (Hh' v). destruct (view_heap sc !! v) as [view|]; [|done].
  destruct Hh' as (view' & -> & (added & Hbins & Hall & _) & _).
  destruct added as [|b added].
  - rewrite app_nil_r in Hbins. destruct view, view'. cbn in Hbins. by subst.
  - apply Forall_cons in Hall as [(_ & (details & Hin & _) & _) _].
    by destruct (Hunnamed details).
Qed.

End Update.

(** *** The properties at a concrete scene *)

Lemma updateTasks_maxSlot_witness :
  exists tasks' sc',
    updateTasks Demo2.healthy [task Demo2.ready] tt Demo2.paged Demo.scene
    = inr (tasks', sc')
    /\ (fun t => maxSlot <$> commandGraphs t) <$> tasks' = [[5; 5]].
Proof.
  destruct (updateTasks Demo2.healthy [task Demo2.ready] tt Demo2.paged Demo.scene)
    as [e|[tasks' sc']] eqn:H1; [vm_compute in H1; discriminate|].
  exists tasks', sc'. split; [reflexivity|].
  rewrite (proj1 (updateTasks_maxSlot Demo2.healthy _ tasks' tt Demo2.paged
                    Demo.scene sc' H1)).
  vm_compute. reflexivity.
Defined.

Lemma updateTasks_routes_dynamic_data_witness :
  exists tasks' sc',
    updateTasks Demo2.healthy [task Demo2.ready] tt Demo2.paged Demo.scene
    = inr (tasks', sc')
    /\ lateTransferTask <$> tasks' = lateTransferTask <$> [task Demo2.ready].
Proof.
  destruct (updateTasks Demo2.healthy [task Demo2.ready] tt Demo2.paged Demo.scene)
    as [e|[tasks' sc']] eqn:H1; [vm_compute in H1; discriminate|].
  exists tasks', sc'. split; [reflexivity|].
  rewrite (proj2 (updateTasks_routes_dynamic_data Demo2.healthy _ tasks' tt
                    Demo2.paged Demo.scene sc' H1)).
  vm_compute. reflexivity.
Defined.

Lemma updateTasks_pager_created_witness :
  containsPagedLOD Demo2.paged = true
  /\ Forall (fun t => databasePager t = None) [task Demo2.ready]
  /\ exists tasks' sc',
       updateTasks Demo2.healthy [task Demo2.ready] tt Demo2.paged Demo.scene
       = inr (tasks', sc')
       /\ databasePager <$> tasks' = [Some 0%nat]
       /\ length (pagers sc') = 1%nat.
Proof.
  assert (H2 : containsPagedLOD Demo2.paged = true) by reflexivity.
  assert (H3 : Forall (fun t => databasePager t = None) [task Demo2.ready]).
  { apply Forall_cons. split; [reflexivity|apply Forall_nil_2]. }
  assert (H4 : [task Demo2.ready] <> []) by discriminate.
  split; [exact H2|]. split; [exact H3|].
  destruct (updateTasks Demo2.healthy [task Demo2.ready] tt Demo2.paged Demo.scene)
    as [e|[tasks' sc']] eqn:H1; [vm_compute in H1; discriminate|].
  exists tasks', sc'. split; [reflexivity|].
  destruct (updateTasks_pager_created Demo2.healthy _ tasks' tt Demo2.paged
              Demo.scene sc' H1 H2 H3 H4) as [Hp Hpagers].
  split; [exact Hp|]. rewrite Hpagers. reflexivity.
Defined.

Lemma updateTasks_pager_kept_witness :
  Exists (fun t => is_Some (databasePager t))
    [task Demo2.ready; given_pager 0 (task Demo2.ready)]
  /\ exists tasks' sc',
       updateTasks Demo2.healthy
         [task Demo2.ready; given_pager 0 (task Demo2.ready)] tt
         Demo2.paged Demo2.paged_scene
       = inr (tasks', sc')
       /\ databasePager <$> tasks' = [None; Some 0%nat]
       /\ pagers sc' = [mkDatabasePager None false].
Proof.
  assert (H2 : Exists (fun t => is_Some (databasePager t))
                 [task Demo2.ready; given_pager 0 (task Demo2.ready)]).
  { apply Exists_cons_tl, Exists_cons_hd. by eexists. }
  split; [exact H2|].
  destruct (updateTasks Demo2.healthy
              [task Demo2.ready; given_pager 0 (task Demo2.ready)] tt
              Demo2.paged Demo2.paged_scene)
    as [e|[tasks' sc']] eqn:H1; [vm_compute in H1; discriminate|].
  exists tasks', sc'. split; [reflexivity|].
  destruct (updateTasks_pager_kept Demo2.healthy _ tasks' tt Demo2.paged
              Demo2.paged_scene sc' H1 (or_intror H2)) as [Hp Hpagers].
  split; [exact Hp|exact Hpagers].
Defined.

Lemma updateTasks_bins_idempotent_witness :
  exists tasks1 sc1,
    updateTasks Demo2.healthy [task Demo2.ready] tt Demo2.paged Demo.scene
    = inr (tasks1, sc1)
    /\ exists tasks3 sc2,
         updateTasks Demo2.healthy [] tt Demo2.paged sc1 = inr (tasks3, sc2)
         /\ view_heap sc2 = view_heap sc1.
Proof.
  destruct (updateTasks Demo2.healthy [task Demo2.ready] tt Demo2.paged Demo.scene)
    as [e|[tasks1 sc1]] eqn:H1; [vm_compute in H1; discriminate|].
  exists tasks1, sc1. split; [reflexivity|].
  exact (updateTasks_bins_idempotent Demo2.healthy _ tasks1 [] tt tt
           Demo2.paged Demo.scene sc1 H1).
Defined.

Lemma updateTasks_frame_witness :
  exists tasks' sc',
    updateTasks Demo2.healthy [task Demo2.ready] tt Demo2.paged Demo.scene
    = inr (tasks', sc')
    /\ _indices <$> tasks' = [[0; 3; 3]]
    /\ view_heap sc' !! 2%nat = None.
Proof.
  destruct (updateTasks Demo2.healthy [task Demo2.ready] tt Demo2.paged Demo.scene)
    as [e|[tasks' sc']] eqn:H1; [vm_compute in H1; discriminate|].
  exists tasks', sc'. split; [reflexivity|].
  destruct (updateTasks_frame Demo2.healthy _ tasks' tt Demo2.paged Demo.scene
              sc' H1) as (_ & Hi & _ & _ & _ & _ & Hviews).
  split; [rewrite Hi; vm_compute; reflexivity|].
  rewrite Hviews; [reflexivity|].
  intros details Hin. apply list_elem_of_singleton in Hin. discriminate.
Defined.

End UpdateTasksSpec.

(** * Further properties of ViewDependentState::pack *)

Module PackLayoutSpec.
Import ViewDependentState ViewDependentStateSpec.

Section Layout.
Context {float double dmat4 dmat3 LightKey : Type}.
Variable num : @Numerics float double dmat4 dmat3.

#[local] Abbreviation State := (@State float double dmat4 LightKey).
#[local] Abbreviation vec4 := (@vec4 float).

#[local] Open Scope nat_scope.

Lemma lookup_bind_const {E} (f : E -> list vec4) (k : nat) (l : list E)
    (j i : nat) (e : E) :
  (forall e, length (f e) = k) -> l !! j = Some e -> i < k ->
  (l ≫= f) !! (k * j + i) = f e !! i.
Proof.
  intros Hk. revert j. induction l as [|e0 l IH]; intros j Hj Hi; [done|].
  rewrite bind_cons. destruct j as [|j].
  - injection Hj as ->. rewrite lookup_app_l by (rewrite Hk; lia).
    f_equal. lia.
  - rewrite lookup_app_r by (rewrite Hk; lia). rewrite Hk.
    replace (k * S j + i - k) with (k * j + i) by lia. by apply IH.
Qed.

Lemma slot {E} (pre : list vec4) (f : E -> list vec4) (k : nat) (l : list E)
    (j i : nat) (e : E) (tail : list vec4) (n : nat) :
  (forall e, length (f e) = k) -> l !! j = Some e ->
  i < k /\ n = length pre + k * j + i ->
  (pre ++ (l ≫= f) ++ tail) !! n = f e !! i.
Proof.
  intros Hk Hj [Hi ->].
  assert (Hlen := length_bind_const f k l Hk).
  apply lookup_lt_Some in Hj as Hlt.
  rewrite lookup_app_r by lia.
  replace (length pre + k * j + i - length pre) with (k * j + i) by lia.
  rewrite lookup_app_l by nia. by apply lookup_bind_const.
Qed.

Lemma records_assoc (c : vec4) (A D P S3 rest : list vec4) :
  let L := (c :: A ++ D ++ P ++ S3) ++ rest in
  L = [c] ++ A ++ (D ++ P ++ S3 ++ rest)
  /\ L = (c :: A) ++ D ++ (P ++ S3 ++ rest)
  /\ L = (c :: A ++ D) ++ P ++ (S3 ++ rest)
  /\ L = (c :: A ++ D ++ P) ++ S3 ++ rest.
Proof. cbn. by rewrite <- !(assoc_L (++)). Qed.

Lemma pack_returns (s s' : State) :
  pack num s = inr s' ->
  lightData s' = pack_records num s ++ drop (record_count s) (lightData s).
Proof.
  intros Hpack.
  destruct (decide (record_count s <= length (lightData s))) as [Hle|Hgt].
  - rewrite (pack_in_bounds num s Hle) in Hpack. by injection Hpack as <-.
  - rewrite (pack_overrun num s) in Hpack by lia. discriminate.
Qed.

(** X21. Where [pack] puts each light.  When [pack] returns, with [a]
    ambient, [d] directional and [p] point lights: ambient light [i] is in
    slot [1 + i]; directional light [i] in the slots [1 + a + 2i] (colour and
    intensity) and the next (eye-space direction, 0); point light [i] in
    [1 + a + 2d + 2i] and the next (eye-space position, 0); spot light [i]
    in [1 + a + 2d + 2p + 3i] and the next two (position with the cosine of
    the inner angle, direction with the cosine of the outer angle). *)
Theorem pack_layout (s s' : State) :
  pack num s = inr s' ->
  let a := length (ambientLights s) in
  let d := length (directionalLights s) in
  let p := length (pointLights s) in
  (forall i key light,
     ambientLights s !! i = Some (key, light) ->
     lightData s' !! (1 + i)
     = Some (colour_record (a_color light) (a_intensity light)))
  /\ (forall i mv light,
        directionalLights s !! i = Some (mv, light) ->
        lightData s' !! (1 + a + 2 * i)
        = Some (colour_record (d_color light) (d_intensity light))
        /\ lightData s' !! (1 + a + 2 * i + 1)
           = Some (geometry_record num
                     (normalize num
                        (dvec3_mul_dmat3 num (d_direction light)
                           (inverse_3x3 num mv)))
                     (float_zero num)))
  /\ (forall i mv light,
        pointLights s !! i = Some (mv, light) ->
        lightData s' !! (1 + a + 2 * d + 2 * i)
        = Some (colour_record (p_color light) (p_intensity light))
        /\ lightData s' !! (1 + a + 2 * d + 2 * i + 1)
           = Some (geometry_record num
                     (dmat4_mul_dvec3 num mv (p_position light))
                     (float_zero num)))
  /\ (forall i mv light,
        spotLights s !! i = Some (mv, light) ->
        lightData s' !! (1 + a + 2 * d + 2 * p + 3 * i)
        = Some (colour_record (s_color light) (s_intensity light))
        /\ lightData s' !! (1 + a + 2 * d + 2 * p + 3 * i + 1)
           = Some (geometry_record num
                     (dmat4_mul_dvec3 num mv (s_position light))
                     (float_of_double num (cos num (innerAngle light))))
        /\ lightData s' !! (1 + a + 2 * d + 2 * p + 3 * i + 2)
           = Some (geometry_record num
                     (normalize num
                        (dvec3_mul_dmat3 num (s_direction light)
                           (inverse_3x3 num mv)))
                     (float_of_double num (cos num (outerAngle light))))).
Proof.
  intros Hpack a d p. rewrite (pack_returns s s' Hpack).
  unfold pack_records.
  destruct (records_assoc
              (counts_record num (vsize (ambientLights s))
                 (vsize (directionalLights s)) (vsize (pointLights s))
                 (vsize (spotLights s)))
              (ambientLights s ≫= ambient_records)
              (directionalLights s ≫= directional_records num)
              (pointLights s ≫= point_records num)
              (spotLights s ≫= spot_records num)
              (drop (record_count s) (lightData s)))
    as (E1 & E2 & E3 & E4).
  assert (HA : length (ambientLights s ≫= ambient_records) = a)
    by (rewrite (length_bind_const ambient_records 1) by done; lia).
  assert (HD : length (directionalLights s ≫= directional_records num) = 2 * d)
    by (by rewrite (length_bind_const (directional_records num) 2)).
  assert (HP : length (pointLights s ≫= point_records num) = 2 * p)
    by (by rewrite (length_bind_const (point_records num) 2)).
  split; [|split; [|split]].
  - intros i key light Hi. rewrite E1.
    by rewrite (slot [_] ambient_records 1 _ i 0 _ _ (1 + i)
                  (fun _ => eq_refl) Hi) by (cbn; lia).
  - intros i mv light Hi. rewrite E2.
    assert (Hpre : forall c, length (c :: ambientLights s ≫= ambient_records)
                             = 1 + a) by (intros c; cbn; by rewrite HA).
    split.
    + by rewrite (slot _ (directional_records num) 2 _ i 0 _ _ _
                    (fun _ => eq_refl) Hi) by (rewrite ?Hpre; lia).
    + by rewrite (slot _ (directional_records num) 2 _ i 1 _ _ _
                    (fun _ => eq_refl) Hi) by (rewrite ?Hpre; lia).
  - intros i mv light Hi. rewrite E3.
    assert (Hpre : forall c,
              length (c :: (ambientLights s ≫= ambient_records)
                           ++ (directionalLights s ≫= directional_records num))
              = 1 + a + 2 * d)
      by (intros c; cbn; rewrite length_app, HA, HD; lia).
    split.
    + by rewrite (slot _ (point_records num) 2 _ i 0 _ _ _
                    (fun _ => eq_refl) Hi) by (rewrite ?Hpre; lia).
    + by rewrite (slot _ (point_records num) 2 _ i 1 _ _ _
                    (fun _ => eq_refl) Hi) by (rewrite ?Hpre; lia).
  - intros i mv light Hi. rewrite E4.
    assert (Hpre : forall c,
              length (c :: (ambientLights s ≫= ambient_records)
                           ++ (directionalLights s ≫= directional_records num)
                           ++ (pointLights s ≫= point_records num))
              = 1 + a + 2 * d + 2 * p)
      by (intros c; cbn; rewrite !length_app, HA, HD, HP; lia).
    split; [|split].
    + by rewrite (slot _ (spot_records num) 3 _ i 0 _ _ _
                    (fun _ => eq_refl) Hi) by (rewrite ?Hpre; lia).
    + by rewrite (slot _ (spot_records num) 3 _ i 1 _ _ _
                    (fun _ => eq_refl) Hi) by (rewrite ?Hpre; lia).
    + by rewrite (slot _ (spot_records num) 3 _ i 2 _ _ _
                    (fun _ => eq_refl) Hi) by (rewrite ?Hpre; lia).
Qed.

(** X22. [pack] reads the lights and writes the light data only: when it
    returns, the four containers and the viewport data are as they were, the
    array has the length it had, and it is marked dirty; [clear] after it
    leaves the packed array in place. *)
Theorem pack_frame (s s' : State) :
  pack num s = inr s' ->
  ambientLights s' = ambientLights s
  /\ directionalLights s' = directionalLights s
  /\ pointLights s' = pointLights s
  /\ spotLights s' = spotLights s
  /\ viewportData s' = viewportData s
  /\ length (lightData s') = length (lightData s)
  /\ lightData_dirty s' = true
  /\ lightData (clear s') = lightData s'.
Proof.
  intros Hpack.
  destruct (decide (record_count s <= length (lightData s))) as [Hle|Hgt].
  - assert (Hlen : length (lightData s') = length (lightData s)).
    { rewrite (pack_returns s s' Hpack).
      rewrite length_app, length_drop, length_pack_records. lia. }
    rewrite (pack_in_bounds num s Hle) in Hpack. by injection Hpack as <-.
  - rewrite (pack_overrun num s) in Hpack by lia. discriminate.
Qed.

End Layout.

(** *** The layout at a concrete set of lights *)

Lemma pack_layout_witness :
  exists s',
    pack Demo.num Demo2.lights = inr s'
    /\ lightData s' !! 7%nat = Some (mkvec4 3 0 3 40)
    /\ lightData s' !! 8%nat = Some (mkvec4 0 3 0 50).
Proof.
  destruct (pack Demo.num Demo2.lights) as [e|s'] eqn:H1;
    [vm_compute in H1; discriminate|].
  exists s'. split; [reflexivity|].
  destruct (pack_layout Demo.num Demo2.lights s' H1) as (_ & _ & _ & Hspot).
  destruct (Hspot 0%nat tt
              (mkSpotLight (mkvec3 0 0 1) 7 (mkdvec3 3 0 3) (mkdvec3 0 3 0) 40 50)
              eq_refl) as (_ & H7 & H8).
  split; [exact H7|exact H8].
Defined.

Lemma pack_frame_witness :
  exists s',
    pack Demo.num Demo2.lights = inr s'
    /\ length (lightData s') = 12%nat
    /\ lightData_dirty s' = true.
Proof.
  destruct (pack Demo.num Demo2.lights) as [e|s'] eqn:H1;
    [vm_compute in H1; discriminate|].
  exists s'. split; [reflexivity|].
  destruct (pack_frame Demo.num Demo2.lights s' H1)
    as (_ & _ & _ & _ & _ & Hlen & Hdirty & _).
  split; [rewrite Hlen; reflexivity|exact Hdirty].
Defined.

End PackLayoutSpec.

(** * Properties of ViewDescriptorSetLayout::compile *)

Module ViewDescriptorSetLayoutSpec.
Import ViewDescriptorSetLayout.

Section Layout.
Context {DescriptorSetLayout ContextState : Type}.

#[local] Abbreviation Context := (@Context DescriptorSetLayout ContextState).
#[local] Abbreviation ViewDescriptorSetLayout :=
  (@ViewDescriptorSetLayout DescriptorSetLayout).
#[local] Abbreviation LayoutCompile :=
  (@LayoutCompile DescriptorSetLayout ContextState).

Lemma compile_offer (this : ViewDescriptorSetLayout) (context : Context) :
  compile this context
  = match _viewDescriptorSetLayout this, offer context with
    | None, Some call => (mkViewDescriptorSetLayout (Some call.1), [call])
    | _, _ => (this, [])
    end.
Proof.
  unfold compile, offer.
  destruct (_viewDescriptorSetLayout this); [done|].
  destruct (viewDependentState context) as [vds|]; [|done]. cbn.
  by destruct (descriptorSetLayout vds).
Qed.

Lemma foldl_compile_log (contexts : list Context)
    (this : ViewDescriptorSetLayout) (log : list LayoutCompile) :
  foldl (fun acc context =>
           let r := compile acc.1 context in (r.1, acc.2 ++ r.2))
    (this, log) contexts
  = ((compiles this contexts).1, log ++ (compiles this contexts).2).
Proof.
  unfold compiles. revert this log.
  induction contexts as [|context contexts IH]; intros this log.
  - cbn. by rewrite app_nil_r.
  - cbn. rewrite (IH _ (log ++ _)), (IH _ (compile this context).2). cbn.
    by rewrite <- (assoc_L (++)).
Qed.

Lemma compiles_cons (this : ViewDescriptorSetLayout) (context : Context)
    (contexts : list Context) :
  compiles this (context :: contexts)
  = ((compiles (compile this context).1 contexts).1,
     (compile this context).2 ++ (compiles (compile this context).1 contexts).2).
Proof. unfold compiles at 1. cbn. apply foldl_compile_log. Qed.

Lemma compiles_latched (contexts : list Context)
    (this : ViewDescriptorSetLayout) :
  is_Some (_viewDescriptorSetLayout this) ->
  compiles this contexts = (this, []).
Proof.
  intros [layout Hthis]. induction contexts as [|context contexts IH]; [done|].
  rewrite compiles_cons, compile_offer, Hthis. cbn. by rewrite IH.
Qed.

(** X23. [compile] latches.  Called with one context after the other, a
    [ViewDescriptorSetLayout] without a layout takes the layout of the first
    context that has a view dependent state with one, and compiles it with
    that context; every other call does nothing, whatever the context has to
    offer.  On an object that has a layout, no call does anything. *)
Theorem compile_latches (this : ViewDescriptorSetLayout)
    (contexts : list Context) :
  compiles this contexts
  = match _viewDescriptorSetLayout this, head (omap offer contexts) with
    | None, Some call => (mkViewDescriptorSetLayout (Some call.1), [call])
    | _, _ => (this, [])
    end.
Proof.
  destruct (_viewDescriptorSetLayout this) as [layout|] eqn:Hthis.
  { apply compiles_latched. rewrite Hthis. by eexists. }
  induction contexts as [|context contexts IH]; [done|].
  rewrite compiles_cons, compile_offer, Hthis. cbn.
  destruct (offer context) as [call|]; cbn.
  - by rewrite compiles_latched by (by eexists).
  - rewrite IH. symmetry. apply surjective_pairing.
Qed.

End Layout.
End ViewDescriptorSetLayoutSpec.
